(** * The reporting pipeline of the profiling agent

    A shallow embedding of [reporter/otlp_reporter.go] (the ingestion
    calls, the snapshot encoder [getProfile] and the export driver
    [reportOTLPProfile]) and of the Parca symbol uploader
    ([Upload] / [attemptUpload]), with the properties the design
    document states about them.

    Conventions.
    - Go's fixed-width integers are [Z] with the wrap-around written where
      the source computes at that width ([u32], [u64], [i64]).  A
      conversion that keeps every value of its source type ([uint16] to
      [uint32], [uint32] to [int64]) is left out.  [len] returns a
      non-negative [int], so [uint64(len(m))] and the [+ 1] on it are
      exact; [uint32(len(m))] is not and wraps.
    - A panic is [None].
    - Calls run one after another; a call is not interleaved with the
      steps of another.
    - [lru.SyncedLRU] (an external library) is a finite map.  The reporter
      never sets a lifetime, so its entries do not expire; eviction under
      capacity pressure is outside the model (the caches are taken to be
      below capacity).  [Get] and [Peek] differ only in the recency they
      record, so both are a lookup.
    - A Go [map] is a [gmap].  The order in which [range] visits it is
      left open by Go: it is a parameter ([RangeOrder]), and everything is
      proved for every order. *)

From stdpp Require Import gmap strings list fin_maps pretty.

#[local] Open Scope Z_scope.

(** ** Fixed-width integers *)

Definition u32 (z : Z) : Z := z mod 2 ^ 32.
Definition u64 (z : Z) : Z := z mod 2 ^ 64.
Definition i64 (z : Z) : Z := (z + 2 ^ 63) mod 2 ^ 64 - 2 ^ 63.

(** [time.Unix(sec, 0).UnixMilli()] and [.UnixNano()]: int64 arithmetic. *)
Definition UnixMilli (sec : Z) : Z := i64 (sec * 1000).
Definition UnixNano (sec : Z) : Z := i64 (sec * 1000000000).

(** ** Identifiers of package libpf

    The package is declared outside the files at hand; its types are taken
    as the design document describes them. *)

(** Modelled from the spec: [TraceHash] is the "content hash of a call
    stack", [FileID] the "content hash identifying an executable/module";
    only equality on them is used. *)
Abbreviation TraceHash := N (only parsing).
Abbreviation FileID := N (only parsing).

(** Modelled from the spec: [AddressOrLineno] is "either a virtual address
    or an interpreter line number", a [uint64]. *)
Abbreviation AddressOrLineno := Z (only parsing).

(** Modelled from the spec: a [FrameID] is "derived from FileID + an
    address/line value" and "always re-derivable from (FileID,
    AddressOrLineno)". *)
Abbreviation FrameID := (N * Z)%type (only parsing).

(** Modelled from the spec: [libpf.NewFrameID] builds the FrameID of a
    FileID and an address/line value. *)
Definition NewFrameID (fileID : FileID) (addressOrLineno : AddressOrLineno)
  : FrameID := (fileID, addressOrLineno).

(** Modelled from the spec: [libpf.FrameType] classifies a frame "as native
    code, kernel code, an artificial/abort marker, or interpreted/managed
    code": the three kinds [getProfile] names, and every other kind by its
    code. *)
Inductive FrameType :=
  | NativeFrame
  | KernelFrame
  | AbortFrame
  | InterpretedFrame (code : N).

#[global] Instance FrameType_eq_dec : EqDecision FrameType.
Proof. solve_decision. Defined.

(** What the encoder takes from other packages: the string renderings of
    libpf, the sampling frequency of config, the version of vc. *)
Class External := {
  TraceHash_StringNoQuotes : TraceHash → string;
  FileID_StringNoQuotes : FileID → string;
  FrameType_String : FrameType → string;
  SamplesPerSecond : Z;
  Version : string;
  Revision : string;
}.

(** ** Iteration order

    Go does not specify the order of [range] over a map, and [Keys()] of a
    cache follows recency.  [rangeOver l m] is the order in which the loop
    [l] visits the entries of [m] in the run at hand: some arrangement of
    them. *)
Inductive loop :=
  | SampleKeys      (* [r.samples.Keys()] *)
  | MissingInfo     (* the first [range samplesCpy] *)
  | WorkingSet      (* the second [range samplesCpy] *)
  | FunctionMap     (* [range funcMap] *)
  | StringMap       (* [range stringMap] *)
  | HostMetadata.   (* [r.hostmetadata.Keys()] *)

Class RangeOrder := {
  rangeOver : loop → ∀ `{Countable K} {V}, gmap K V → list (K * V);
  rangeOver_perm : ∀ l `{Countable K} {V} (m : gmap K V),
    rangeOver l m ≡ₚ map_to_list m;
}.

(** ** Package reporter: data model *)

Module Reporter.

Record Trace := {
  Hash : TraceHash;
  Files : list FileID;
  Linenos : list AddressOrLineno;
  FrameTypes : list FrameType;
}.

(** [traceInfo] holds static information about a trace. *)
Record traceInfo := {
  files : list FileID;
  linenos : list AddressOrLineno;
  frameTypes : list FrameType;
  comm : string;
  podName : string;
  podNamespace : string;
  containerName : string;
  apmServiceName : string;
}.

(** [sample] holds dynamic information about traces. *)
Record sample := {
  timestamps : list Z;
  count : Z;
}.

Record execInfo := {
  fileName : string;
  buildID : string;
}.

Record sourceInfo := {
  lineNumber : Z;
  functionOffset : Z;
  functionName : string;
  filePath : string;
}.

(** [funcInfo{name, fileName}]; the second field is [fileName] in the
    source, which [execInfo] already uses here. *)
Record funcInfo := FuncInfo {
  name : string;
  funcFileName : string;
}.

#[global] Instance funcInfo_eq_dec : EqDecision funcInfo.
Proof. solve_decision. Defined.

#[global] Instance funcInfo_countable : Countable funcInfo :=
  inj_countable' (λ f, (name f, funcFileName f)) (λ p, FuncInfo p.1 p.2)
    (λ f, match f with FuncInfo _ _ => eq_refl end).

Record OTLPReporter := {
  hostmetadata : gmap string string;
  traces : gmap TraceHash traceInfo;
  samples : gmap TraceHash sample;
  fallbackSymbols : gmap FrameID string;
  executables : gmap FileID execInfo;
  frames : gmap FileID (gmap AddressOrLineno sourceInfo);
  otlpBuildIDMode : string;
}.

Definition set_traces (r : OTLPReporter) (t : gmap TraceHash traceInfo) :=
  {| hostmetadata := hostmetadata r; traces := t; samples := samples r;
     fallbackSymbols := fallbackSymbols r; executables := executables r;
     frames := frames r; otlpBuildIDMode := otlpBuildIDMode r |}.

Definition set_samples (r : OTLPReporter) (s : gmap TraceHash sample) :=
  {| hostmetadata := hostmetadata r; traces := traces r; samples := s;
     fallbackSymbols := fallbackSymbols r; executables := executables r;
     frames := frames r; otlpBuildIDMode := otlpBuildIDMode r |}.

Definition set_frames (r : OTLPReporter)
    (f : gmap FileID (gmap AddressOrLineno sourceInfo)) :=
  {| hostmetadata := hostmetadata r; traces := traces r; samples := samples r;
     fallbackSymbols := fallbackSymbols r; executables := executables r;
     frames := f; otlpBuildIDMode := otlpBuildIDMode r |}.

(** ** Ingestion *)

(** [ReportFramesForTrace] *)
Definition ReportFramesForTrace (r : OTLPReporter) (trace : Trace)
  : OTLPReporter :=
  match traces r !! Hash trace with
  | Some v =>
      let v := {| files := Files trace; linenos := Linenos trace;
                  frameTypes := FrameTypes trace;
                  comm := comm v; podName := podName v;
                  podNamespace := podNamespace v;
                  containerName := containerName v;
                  apmServiceName := apmServiceName v |} in
      set_traces r (<[Hash trace := v]> (traces r))
  | None =>
      set_traces r
        (<[Hash trace :=
             {| files := Files trace; linenos := Linenos trace;
                frameTypes := FrameTypes trace;
                comm := ""; podName := ""; podNamespace := "";
                containerName := ""; apmServiceName := "" |}]> (traces r))
  end.

(** [ReportCountForTrace].  [timestamp] is a [UnixTime32] and [cnt] a
    [uint16], so their conversions to [uint64] and [uint32] are exact; the
    addition to the stored count is at [uint32]. *)
Definition ReportCountForTrace (r : OTLPReporter) (traceHash : TraceHash)
    (timestamp : Z) (cnt : Z)
    (comm' podName' podNamespace' containerName' : string) : OTLPReporter :=
  let r :=
    match traces r !! traceHash with
    | Some v =>
        let v := {| files := files v; linenos := linenos v;
                    frameTypes := frameTypes v;
                    comm := comm'; podName := podName';
                    podNamespace := podNamespace';
                    containerName := containerName';
                    apmServiceName := apmServiceName v |} in
        set_traces r (<[traceHash := v]> (traces r))
    | None =>
        set_traces r
          (<[traceHash :=
               {| files := []; linenos := []; frameTypes := [];
                  comm := comm'; podName := podName';
                  podNamespace := podNamespace';
                  containerName := containerName';
                  apmServiceName := "" |}]> (traces r))
    end in
  match samples r !! traceHash with
  | Some v =>
      let v := {| count := u32 (count v + cnt);
                  timestamps := timestamps v ++ [timestamp] |} in
      set_samples r (<[traceHash := v]> (samples r))
  | None =>
      set_samples r
        (<[traceHash := {| count := cnt;
                           timestamps := [timestamp] |}]> (samples r))
  end.

(** [FrameMetadata].  The cache holds a reference to the inner map, so the
    assignment [v[addressOrLine] = ...] is an update of the cached entry. *)
Definition FrameMetadata (r : OTLPReporter) (fileID : FileID)
    (addressOrLine : AddressOrLineno) (lineNumber' : Z) (functionOffset' : Z)
    (functionName' filePath' : string) : OTLPReporter :=
  match frames r !! fileID with
  | Some v =>
      let filePath' :=
        if decide (filePath' = "") then
          match v !! addressOrLine with
          | Some s => filePath s
          | None => filePath'
          end
        else filePath' in
      let v := <[addressOrLine :=
                   {| lineNumber := lineNumber';
                      functionOffset := functionOffset';
                      functionName := functionName';
                      filePath := filePath' |}]> v in
      set_frames r (<[fileID := v]> (frames r))
  | None =>
      let v : gmap AddressOrLineno sourceInfo :=
        <[addressOrLine :=
            {| lineNumber := lineNumber';
               functionOffset := functionOffset';
               functionName := functionName';
               filePath := filePath' |}]> ∅ in
      set_frames r (<[fileID := v]> (frames r))
  end.


(** ** Messages of package pprofextended

    The generated message types, with the fields the encoder writes. *)

(** The first value is the zero value of the enumeration. *)
Inductive BuildIdKind := BUILD_ID_LINKER | BUILD_ID_BINARY_HASH.

Record Label := { Key : Z; Str : Z }.

Record Sample := {
  LocationsStartIndex : Z;
  LocationsLength : Z;
  StacktraceIdIndex : Z;
  Value : list Z;
  Sample_Label : list Label;
  Timestamps : list Z;
}.

Record Line := { FunctionIndex : Z; Line_Line : Z }.

Record Location := {
  TypeIndex : Z;
  Address : Z;
  MappingIndex : Z;
  Location_Line : list Line;
}.

Record Mapping := {
  FileOffset : Z;
  Filename : Z;
  BuildId : Z;
  Mapping_BuildIdKind : BuildIdKind;
}.

(** [pprofextended.Function] *)
Record Function_ := { Name : Z; Function_Filename : Z }.

Record ValueType := { Type_ : Z; Unit : Z }.

(** [Function] is a slice of pointers: [None] is a nil entry. *)
Record Profile := {
  SampleType : list ValueType;
  Profile_Sample : list Sample;
  Profile_Mapping : list Mapping;
  Profile_Location : list Location;
  LocationIndices : list Z;
  Profile_Function : list (option Function_);
  StringTable : list string;
  TimeNanos : Z;
  DurationNanos : Z;
  PeriodType : ValueType;
  Period : Z;
}.

(** ** The snapshot encoder *)

(** [getStringMapIndex] inserts or looks up the index for [value]. *)
Definition getStringMapIndex (stringMap : gmap string Z) (value : string)
  : Z * gmap string Z :=
  match stringMap !! value with
  | Some idx => (idx, stringMap)
  | None =>
      let idx := u32 (Z.of_nat (size stringMap)) in
      (idx, <[value := idx]> stringMap)
  end.

(** [createFunctionEntry] adds a new function and returns its index. *)
Definition createFunctionEntry (funcMap : gmap funcInfo Z)
    (name' fileName' : string) : Z * gmap funcInfo Z :=
  let key := {| name := name'; funcFileName := fileName' |} in
  match funcMap !! key with
  | Some idx => (idx, funcMap)
  | None =>
      let idx := Z.of_nat (size funcMap) in
      (idx, <[key := idx]> funcMap)
  end.

(** One [if i.field != ""] block of [getTraceLabels]. *)
Definition addLabel (key value : string)
    (acc : list Label * gmap string Z) : list Label * gmap string Z :=
  let '(labels, stringMap) := acc in
  if decide (value = "") then acc
  else
    let '(keyIdx, stringMap) := getStringMapIndex stringMap key in
    let '(valueIdx, stringMap) := getStringMapIndex stringMap value in
    (labels ++ [{| Key := keyIdx; Str := valueIdx |}], stringMap).

(** [getTraceLabels] builds the labels from [traceInfo]. *)
Definition getTraceLabels (stringMap : gmap string Z) (i : traceInfo)
  : list Label * gmap string Z :=
  addLabel "apmServiceName" (apmServiceName i)
    (addLabel "containerName" (containerName i)
       (addLabel "podNamespace" (podNamespace i)
          (addLabel "podName" (podName i)
             (addLabel "comm" (comm i) ([], stringMap))))).

(** The locals of [getProfile] that its loops update. *)
Record encoder := {
  stringMap : gmap string Z;
  funcMap : gmap funcInfo Z;
  fileIDtoMapping : gmap FileID Z;
  frameIDtoFunction : gmap FrameID Z;
  profileSample : list Sample;
  profileMapping : list Mapping;
  profileLocation : list Location;
  locationIndex : Z;
  startTS : Z;
  endTS : Z;
}.

Definition set_stringMap (e : encoder) (m : gmap string Z) : encoder :=
  {| stringMap := m; funcMap := funcMap e;
     fileIDtoMapping := fileIDtoMapping e;
     frameIDtoFunction := frameIDtoFunction e;
     profileSample := profileSample e; profileMapping := profileMapping e;
     profileLocation := profileLocation e;
     locationIndex := locationIndex e;
     startTS := startTS e; endTS := endTS e |}.

Definition set_funcMap (e : encoder) (m : gmap funcInfo Z) : encoder :=
  {| stringMap := stringMap e; funcMap := m;
     fileIDtoMapping := fileIDtoMapping e;
     frameIDtoFunction := frameIDtoFunction e;
     profileSample := profileSample e; profileMapping := profileMapping e;
     profileLocation := profileLocation e;
     locationIndex := locationIndex e;
     startTS := startTS e; endTS := endTS e |}.

(** [fileIDtoMapping[fileID] = idx] together with the
    [profile.Mapping = append(profile.Mapping, m)] that follows it. *)
Definition addMapping (e : encoder) (fileID : FileID) (idx : Z) (m : Mapping)
  : encoder :=
  {| stringMap := stringMap e; funcMap := funcMap e;
     fileIDtoMapping := <[fileID := idx]> (fileIDtoMapping e);
     frameIDtoFunction := frameIDtoFunction e;
     profileSample := profileSample e;
     profileMapping := profileMapping e ++ [m];
     profileLocation := profileLocation e;
     locationIndex := locationIndex e;
     startTS := startTS e; endTS := endTS e |}.

(** [profile.Location = append(profile.Location, loc)] *)
Definition addLocation (e : encoder) (loc : Location) : encoder :=
  {| stringMap := stringMap e; funcMap := funcMap e;
     fileIDtoMapping := fileIDtoMapping e;
     frameIDtoFunction := frameIDtoFunction e;
     profileSample := profileSample e; profileMapping := profileMapping e;
     profileLocation := profileLocation e ++ [loc];
     locationIndex := locationIndex e;
     startTS := startTS e; endTS := endTS e |}.

Definition set_timestamps (e : encoder) (startTS' endTS' : Z) : encoder :=
  {| stringMap := stringMap e; funcMap := funcMap e;
     fileIDtoMapping := fileIDtoMapping e;
     frameIDtoFunction := frameIDtoFunction e;
     profileSample := profileSample e; profileMapping := profileMapping e;
     profileLocation := profileLocation e;
     locationIndex := locationIndex e;
     startTS := startTS'; endTS := endTS' |}.

(** [locationIndex += sample.LocationsLength] and
    [profile.Sample = append(profile.Sample, sample)] *)
Definition addSample (e : encoder) (s : Sample) : encoder :=
  {| stringMap := stringMap e; funcMap := funcMap e;
     fileIDtoMapping := fileIDtoMapping e;
     frameIDtoFunction := frameIDtoFunction e;
     profileSample := profileSample e ++ [s];
     profileMapping := profileMapping e;
     profileLocation := profileLocation e;
     locationIndex := locationIndex e + LocationsLength s;
     startTS := startTS e; endTS := endTS e |}.

(** [getStringMapIndex(stringMap, value)] on the encoder's string map. *)
Definition intern (value : string) (e : encoder) : Z * encoder :=
  let '(idx, m) := getStringMapIndex (stringMap e) value in
  (idx, set_stringMap e m).

(** [createFunctionEntry(funcMap, name, fileName)] on the encoder's map. *)
Definition internFunction (name' fileName' : string) (e : encoder)
  : Z * encoder :=
  let '(idx, m) := createFunctionEntry (funcMap e) name' fileName' in
  (idx, set_funcMap e m).

(** [getDummyMappingIndex] inserts or looks up a dummy mapping entry. *)
Definition getDummyMappingIndex `{External} (fileID : FileID) (e : encoder)
  : Z * encoder :=
  match fileIDtoMapping e !! fileID with
  | Some tmpMappingIndex => (tmpMappingIndex, e)
  | None =>
      let idx := Z.of_nat (size (fileIDtoMapping e)) in
      let '(filenameIdx, e') := intern "DUMMY" e in
      let '(buildIdIdx, e') := intern (FileID_StringNoQuotes fileID) e' in
      (idx,
       addMapping e' fileID idx
         {| FileOffset := 0; Filename := filenameIdx; BuildId := buildIdIdx;
            Mapping_BuildIdKind := BUILD_ID_BINARY_HASH |})
  end.
(** The body of [if ... else] on a native frame's first sight of its
    FileID: the mapping entry of an executable. *)
Definition nativeMapping `{External} (r : OTLPReporter) (fileID : FileID)
    (fileOffset : Z) (e : encoder) : Mapping * encoder :=
  let execInfo' := executables r !! fileID in
  let fileName' :=
    match execInfo' with
    | Some x => fileName x
    | None => "UNKNOWN"
    end in
  let buildID' := "UNKNOWN" in
  let buildIDKind := BUILD_ID_LINKER in
  let '(buildID', buildIDKind) :=
    if decide (otlpBuildIDMode r = "linker") then
      (match execInfo' with Some x => buildID x | None => "" end,
       BUILD_ID_LINKER)
    else (buildID', buildIDKind) in
  let '(buildID', buildIDKind) :=
    if decide (otlpBuildIDMode r = "hash") then
      (FileID_StringNoQuotes fileID, BUILD_ID_BINARY_HASH)
    else (buildID', buildIDKind) in
  let '(filenameIdx, e) := intern fileName' e in
  let '(buildIdIdx, e) := intern buildID' e in
  ({| FileOffset := fileOffset; Filename := filenameIdx;
      BuildId := buildIdIdx; Mapping_BuildIdKind := buildIDKind |}, e).

(** The function entry of an interpreted frame: the three sub-cases of the
    [default] branch.  Returns the line number and the function index. *)
Definition interpretedFunction `{External} (r : OTLPReporter)
    (frameKind : FrameType) (fileID : FileID) (lineno : AddressOrLineno)
    (e : encoder) : Z * Z * encoder :=
  match frames r !! fileID with
  | None =>
      let '(idx, e) :=
        internFunction "UNREPORTED" (FrameType_String frameKind) e in
      (0, idx + 1, e)
  | Some fileIDInfo =>
      match fileIDInfo !! lineno with
      | None =>
          let '(idx, e) :=
            internFunction "UNRESOLVED" (FrameType_String frameKind) e in
          (0, idx + 1, e)
      | Some si =>
          let '(idx, e) :=
            internFunction (functionName si) (filePath si) e in
          (i64 (lineNumber si), idx + 1, e)
      end
  end.

(** One iteration of [for i := range trace.frameTypes].  Indexing
    [trace.linenos] or [trace.files] out of range panics: [None]. *)
Definition encodeFrame `{External} (r : OTLPReporter) (trace : traceInfo)
    (i : nat) (frameKind : FrameType) (e : encoder) : option encoder :=
  let '(typeIndex, e) := intern (FrameType_String frameKind) e in
  lineno ← linenos trace !! i;
  match frameKind with
  | NativeFrame =>
      fileID ← files trace !! i;
      let '(locationMappingIndex, e) :=
        match fileIDtoMapping e !! fileID with
        | Some tmpMappingIndex => (tmpMappingIndex, e)
        | None =>
            let idx := Z.of_nat (size (fileIDtoMapping e)) in
            let '(m, e') := nativeMapping r fileID lineno e in
            (idx, addMapping e' fileID idx m)
        end in
      Some (addLocation e
              {| TypeIndex := typeIndex; Address := lineno;
                 MappingIndex := locationMappingIndex + 1;
                 Location_Line := [] |})
  | KernelFrame =>
      fileID ← files trace !! i;
      let frameID := NewFrameID fileID lineno in
      let '(functionIndex, e) :=
        match frameIDtoFunction e !! frameID with
        | Some tmpFunctionIndex => (tmpFunctionIndex + 1, e)
        | None =>
            let symbol :=
              match fallbackSymbols r !! frameID with
              | Some symbol => symbol
              | None => "UNKNOWN"
              end in
            let '(idx, e) := internFunction symbol "vmlinux" e in
            (idx + 1, e)
        end in
      let '(dummy, e) := getDummyMappingIndex fileID e in
      Some (addLocation e
              {| TypeIndex := typeIndex; Address := lineno;
                 MappingIndex := dummy + 1;
                 Location_Line :=
                   [{| FunctionIndex := functionIndex; Line_Line := 0 |}] |})
  | AbortFrame =>
      Some (addLocation e
              {| TypeIndex := typeIndex; Address := lineno;
                 MappingIndex := 0; Location_Line := [] |})
  | InterpretedFrame _ =>
      fileID ← files trace !! i;
      let '(line, functionIndex, e) :=
        interpretedFunction r frameKind fileID lineno e in
      let '(dummy, e) := getDummyMappingIndex fileID e in
      Some (addLocation e
              {| TypeIndex := typeIndex; Address := lineno;
                 MappingIndex := dummy + 1;
                 Location_Line :=
                   [{| FunctionIndex := functionIndex;
                       Line_Line := line |}] |})
  end.

(** [for i := range trace.frameTypes], from index [i] on. *)
Fixpoint encodeFrames `{External} (r : OTLPReporter) (trace : traceInfo)
    (i : nat) (kinds : list FrameType) (e : encoder) : option encoder :=
  match kinds with
  | [] => Some e
  | frameKind :: kinds =>
      e ← encodeFrame r trace i frameKind e;
      encodeFrames r trace (S i) kinds e
  end.

(** The body of [for _, ts := range sampleInfo.timestamps] on the pair
    [(startTS, endTS)]: a new minimum (or an unset start) updates the start
    and [continue]s; otherwise a new maximum updates the end. *)
Definition trackTimestamp (acc : Z * Z) (ts : Z) : Z * Z :=
  let '(startTS', endTS') := acc in
  if decide (ts < startTS' ∨ startTS' = 0) then (ts, endTS')
  else if decide (ts > endTS') then (startTS', ts)
  else (startTS', endTS').

(** The zero [traceInfo], which [r.traces.Get] returns on a miss. *)
#[global] Instance traceInfo_inhabited : Inhabited traceInfo :=
  populate {| files := []; linenos := []; frameTypes := [];
              comm := ""; podName := ""; podNamespace := "";
              containerName := ""; apmServiceName := "" |}.

(** The zero [sample], which indexing a Go map returns on a miss. *)
#[global] Instance sample_inhabited : Inhabited sample :=
  populate {| timestamps := []; count := 0 |}.

(** One iteration of [for traceHash, sampleInfo := range samplesCpy]. *)
Definition encodeSample `{External} (r : OTLPReporter)
    (kv : TraceHash * sample) (e : encoder) : option encoder :=
  let '(traceHash, sampleInfo) := kv in
  let locationsStartIndex := locationIndex e in
  let trace := traces r !!! traceHash in
  let '(stacktraceIdIndex, e) :=
    intern (TraceHash_StringNoQuotes traceHash) e in
  let sampleTimestamps :=
    (λ ts, u64 (UnixMilli (i64 ts))) <$> timestamps sampleInfo in
  let '(startTS', endTS') :=
    foldl trackTimestamp (startTS e, endTS e) (timestamps sampleInfo) in
  let e := set_timestamps e startTS' endTS' in
  e ← encodeFrames r trace 0 (frameTypes trace) e;
  let '(labels, m) := getTraceLabels (stringMap e) trace in
  let e := set_stringMap e m in
  Some (addSample e
          {| LocationsStartIndex := locationsStartIndex;
             LocationsLength := Z.of_nat (length (frameTypes trace));
             StacktraceIdIndex := stacktraceIdIndex;
             Value := [count sampleInfo];
             Sample_Label := labels;
             Timestamps := sampleTimestamps |}).

(** [for traceHash, sampleInfo := range samplesCpy], in the order [ws]. *)
Fixpoint encodeSamples `{External} (r : OTLPReporter)
    (ws : list (TraceHash * sample)) (e : encoder) : option encoder :=
  match ws with
  | [] => Some e
  | kv :: ws => e ← encodeSample r kv e; encodeSamples r ws e
  end.

(** *** Draining the samples cache *)

(** [Keys()] of a cache, and the keys of a Go map in [range] order. *)
Definition Keys `{RangeOrder} {V} (l : loop) (m : gmap TraceHash V)
  : list TraceHash :=
  (rangeOver l m).*1.

(** The body of [for _, k := range sampleKeys] on the pair
    (samples cache, [samplesCpy]). *)
Definition drainStep
    (acc : gmap TraceHash sample * gmap TraceHash sample) (k : TraceHash)
  : gmap TraceHash sample * gmap TraceHash sample :=
  let '(cache, samplesCpy) := acc in
  match cache !! k with
  | None => acc
  | Some v => (delete k cache, <[k := v]> samplesCpy)
  end.

(** The body of [for _, trace := range samplesWoTraceinfo]. *)
Definition requeueStep
    (acc : gmap TraceHash sample * gmap TraceHash sample) (trace : TraceHash)
  : gmap TraceHash sample * gmap TraceHash sample :=
  let '(cache, samplesCpy) := acc in
  (<[trace := samplesCpy !!! trace]> cache, delete trace samplesCpy).

(** The first two loops of [getProfile] and the hand-back that follows:
    the samples cache and [samplesCpy] as the encoding loop finds them. *)
Definition drainSamples `{RangeOrder} (r : OTLPReporter)
  : gmap TraceHash sample * gmap TraceHash sample :=
  let sampleKeys := Keys SampleKeys (samples r) in
  let '(cache, samplesCpy) :=
    foldl drainStep (samples r, ∅) sampleKeys in
  let samplesWoTraceinfo :=
    filter (λ trace, traces r !! trace = None)
      (Keys MissingInfo samplesCpy) in
  foldl requeueStep (cache, samplesCpy) samplesWoTraceinfo.

(** *** Tables *)

(** [stringMap] and the profile literal: the string map after the sample
    and period types are interned, and the two value types. *)
Definition newEncoder : ValueType * ValueType * encoder :=
  let stringMap : gmap string Z := <["" := 0]> ∅ in
  let '(samplesIdx, stringMap) := getStringMapIndex stringMap "samples" in
  let '(countIdx, stringMap) := getStringMapIndex stringMap "count" in
  let '(cpuIdx, stringMap) := getStringMapIndex stringMap "cpu" in
  let '(nanosIdx, stringMap) :=
    getStringMapIndex stringMap "nanoseconds" in
  ({| Type_ := samplesIdx; Unit := countIdx |},
   {| Type_ := cpuIdx; Unit := nanosIdx |},
   {| stringMap := stringMap; funcMap := ∅; fileIDtoMapping := ∅;
      frameIDtoFunction := ∅; profileSample := []; profileMapping := [];
      profileLocation := []; locationIndex := 0;
      startTS := 0; endTS := 0 |}).

(** The body of [for v, idx := range funcMap]; an index outside
    [funcTable] panics. *)
Definition fillFunction
    (acc : option (list (option Function_) * gmap string Z))
    (kv : funcInfo * Z) : option (list (option Function_) * gmap string Z) :=
  '(funcTable, stringMap) ← acc;
  let '(v, idx) := kv in
  let '(nameIdx, stringMap) := getStringMapIndex stringMap (name v) in
  let '(fileIdx, stringMap) :=
    getStringMapIndex stringMap (funcFileName v) in
  if decide (0 ≤ idx < Z.of_nat (length funcTable)) then
    Some (<[Z.to_nat idx :=
              Some {| Name := nameIdx; Function_Filename := fileIdx |}]>
            funcTable, stringMap)
  else None.

(** The body of [for v, idx := range stringMap]. *)
Definition fillString (acc : option (list string)) (kv : string * Z)
  : option (list string) :=
  stringTable ← acc;
  let '(v, idx) := kv in
  if decide (0 ≤ idx < Z.of_nat (length stringTable)) then
    Some (<[Z.to_nat idx := v]> stringTable)
  else None.

(** "Populate the deduplicated functions into profile": the function
    table and the string map with the names of the functions interned. *)
Definition fillFunctions `{RangeOrder} (e : encoder)
  : option (list (option Function_) * gmap string Z) :=
  foldl fillFunction
    (Some (replicate (size (funcMap e)) None, stringMap e))
    (rangeOver FunctionMap (funcMap e)).

(** "Put the values in stringMap in the correct array order". *)
Definition fillStrings `{RangeOrder} (stringMap : gmap string Z)
  : option (list string) :=
  foldl fillString (Some (replicate (size stringMap) ""))
    (rangeOver StringMap stringMap).

(** The function table and the string table of the finished encoder. *)
Definition buildTables `{RangeOrder} (e : encoder)
  : option (list (option Function_) * list string) :=
  '(funcTable, stringMap) ← fillFunctions e;
  stringTable ← fillStrings stringMap;
  Some (funcTable, stringTable).

(** [1e9 / int64(config.SamplesPerSecond())]; dividing by zero panics. *)
Definition samplingPeriod `{External} : option Z :=
  if decide (SamplesPerSecond = 0) then None
  else Some (1000000000 `quot` SamplesPerSecond).

(** The encoder as the loop over [samplesCpy] leaves it. *)
Definition encodeSnapshot `{External, RangeOrder} (r : OTLPReporter)
  : option encoder :=
  encodeSamples r (rangeOver WorkingSet (drainSamples r).2) newEncoder.2.

(** [getProfile] returns the profile of all samples collected up to this
    moment, the start and end timestamps, and the reporter with its samples
    cache drained. *)
Definition getProfile `{External, RangeOrder} (r : OTLPReporter)
  : option (Profile * Z * Z * OTLPReporter) :=
  let sampleType := newEncoder.1.1 in
  let periodType := newEncoder.1.2 in
  period ← samplingPeriod;
  e ← encodeSnapshot r;
  let r := set_samples r (drainSamples r).1 in
  '(funcTable, stringTable) ← buildTables e;
  let startNanos := UnixNano (i64 (startTS e)) in
  let endNanos := UnixNano (i64 (endTS e)) in
  Some ({| SampleType := [sampleType];
           Profile_Sample := profileSample e;
           Profile_Mapping := profileMapping e;
           Profile_Location := profileLocation e;
           LocationIndices :=
             Z.of_nat <$> seq 0 (length (profileLocation e));
           Profile_Function := funcTable;
           StringTable := stringTable;
           TimeNanos := startNanos;
           DurationNanos := i64 (endNanos - startNanos);
           PeriodType := periodType;
           Period := period |},
        startTS e, endTS e, r).

(** *** The export driver *)

Record KeyValue := { kvKey : string; kvValue : string }.

(** [getResource]: the host metadata and the name of the profile type. *)
Definition getResource `{RangeOrder} (r : OTLPReporter) : list KeyValue :=
  ((λ kv, {| kvKey := kv.1; kvValue := kv.2 |}) <$>
     rangeOver HostMetadata (hostmetadata r))
  ++ [{| kvKey := "__name__"; kvValue := "otel_profiling_agent_on_cpu" |}].

(** [ExportProfilesServiceRequest]: one resource, one scope, one profile
    container. *)
Record ExportProfilesServiceRequest := {
  Resource : list KeyValue;
  ScopeName : string;
  ScopeVersion : string;
  ProfileId : string;
  StartTimeUnixNano : Z;
  EndTimeUnixNano : Z;
  ContainerProfile : Profile;
}.

Definition set_DurationNanos (p : Profile) (d : Z) : Profile :=
  {| SampleType := SampleType p; Profile_Sample := Profile_Sample p;
     Profile_Mapping := Profile_Mapping p;
     Profile_Location := Profile_Location p;
     LocationIndices := LocationIndices p;
     Profile_Function := Profile_Function p; StringTable := StringTable p;
     TimeNanos := TimeNanos p; DurationNanos := d;
     PeriodType := PeriodType p; Period := Period p |}.

(** What one call of [reportOTLPProfile] did: the requests it handed to
    [client.Export], the error it returned ([None] is nil) and the
    reporter afterwards. *)
Record reportResult := {
  exported : list ExportProfilesServiceRequest;
  reportError : option string;
  reporterAfter : OTLPReporter;
}.

(** [reportOTLPProfile] creates and sends out an OTLP profile.  [export]
    is the answer of [r.client.Export] to a request; [reportInterval] is in
    nanoseconds.  [None] is a panic of [getProfile]. *)
Definition reportOTLPProfile `{External, RangeOrder} (r : OTLPReporter)
    (reportInterval : Z)
    (export : ExportProfilesServiceRequest → option string)
  : option reportResult :=
  '(profile, startTS', endTS', r) ← getProfile r;
  if decide (length (Profile_Sample profile) = 0%nat) then
    Some {| exported := []; reportError := None; reporterAfter := r |}
  else
    let profile :=
      if decide (DurationNanos profile = 0) then
        set_DurationNanos profile reportInterval
      else profile in
    let req :=
      {| Resource := getResource r;
         ScopeName := "Elastic-Universal-Profiling";
         ScopeVersion := Version +:+ "@" +:+ Revision;
         ProfileId := "ELASTIC";
         StartTimeUnixNano := u64 (UnixNano (i64 startTS'));
         EndTimeUnixNano := u64 (UnixNano (i64 endTS'));
         ContainerProfile := profile |} in
    Some {| exported := [req]; reportError := export req;
            reporterAfter := r |}.

(** ** The other ingestion calls *)

Definition set_fallbackSymbols (r : OTLPReporter)
    (s : gmap FrameID string) :=
  {| hostmetadata := hostmetadata r; traces := traces r; samples := samples r;
     fallbackSymbols := s; executables := executables r;
     frames := frames r; otlpBuildIDMode := otlpBuildIDMode r |}.

Definition set_executables (r : OTLPReporter) (x : gmap FileID execInfo) :=
  {| hostmetadata := hostmetadata r; traces := traces r; samples := samples r;
     fallbackSymbols := fallbackSymbols r; executables := x;
     frames := frames r; otlpBuildIDMode := otlpBuildIDMode r |}.

Definition set_hostmetadata (r : OTLPReporter) (h : gmap string string) :=
  {| hostmetadata := h; traces := traces r; samples := samples r;
     fallbackSymbols := fallbackSymbols r; executables := executables r;
     frames := frames r; otlpBuildIDMode := otlpBuildIDMode r |}.

(** [ReportFallbackSymbol] enqueues a fallback symbol for a frame: what
    one call reads and writes (the cache is below its capacity). *)
Definition ReportFallbackSymbol (r : OTLPReporter) (frameID : FrameID)
    (symbol : string) : OTLPReporter :=
  match fallbackSymbols r !! frameID with
  | Some _ => r
  | None => set_fallbackSymbols r (<[frameID := symbol]> (fallbackSymbols r))
  end.

(** The interface [symbolUploader]: [U] is the uploader's state, [G] what
    [Upload] starts in the background; [now] is the clock at the call. *)
Class symbolUploader (U G : Type) := {
  Upload : Z → U → FileID → string → string → U * option G;
}.

(** [noopSymbolUploader]: its [Upload] does nothing. *)
Inductive noopSymbolUploader := NoopSymbolUploader.

#[global] Instance noopSymbolUploader_Upload
  : symbolUploader noopSymbolUploader Empty_set :=
  {| Upload := λ _ n _ _ _, (n, None) |}.

(** [ExecutableMetadata] caches the file name and build ID of a FileID and
    hands the executable to the symbol uploader.  [Base] is [path.Base] of
    Go's standard library; the result is the reporter, the uploader and
    what the uploader started. *)
Definition ExecutableMetadata `{symbolUploader U G} (Base : string → string)
    (now : Z) (r : OTLPReporter) (u : U) (fileID : FileID)
    (fileName' buildID' : string) : OTLPReporter * U * option G :=
  let baseName := Base fileName' in
  let baseName :=
    if decide (baseName = "/") then "<anonymous-blob>" else baseName in
  let '(u, started) := Upload now u fileID fileName' buildID' in
  (set_executables r
     (<[fileID := {| fileName := baseName; buildID := buildID' |}]>
        (executables r)),
   u, started).

(** The order in which [range metadataMap] visits the map it is given. *)
Class MetadataOrder := {
  rangeMetadata : gmap string string → list (string * string);
  rangeMetadata_perm : ∀ m, rangeMetadata m ≡ₚ map_to_list m;
}.

(** The capacity of the host metadata cache:
    [lru.NewSynced[string, string](115, hashString)] in [StartOTLP]. *)
Definition hostmetadataEntries : nat := 115.

(** [addHostmetadata] adds to and overwrites host metadata.  The cache is
    a finite map: exact while the entries fit [hostmetadataEntries]. *)
Definition addHostmetadata `{MetadataOrder} (r : OTLPReporter)
    (metadataMap : gmap string string) : OTLPReporter :=
  set_hostmetadata r
    (foldl (λ c kv, <[kv.1 := kv.2]> c) (hostmetadata r)
       (rangeMetadata metadataMap)).

(** [ReportHostMetadata] enqueues host metadata. *)
Definition ReportHostMetadata `{MetadataOrder} (r : OTLPReporter)
    (metadataMap : gmap string string) : OTLPReporter :=
  addHostmetadata r metadataMap.

(** [ReportHostMetadataBlocking]: the same, and a nil error. *)
Definition ReportHostMetadataBlocking `{MetadataOrder} (r : OTLPReporter)
    (metadataMap : gmap string string) : OTLPReporter * option string :=
  (addHostmetadata r metadataMap, None).


End Reporter.

(** ** Package symuploader *)

Module Symuploader.

(** An entry of a freelru cache: [expire = None] is the library's
    "no lifetime", otherwise the clock value from which the entry is gone. *)
Record entry := { value : bool; expire : option Z }.

(** [Get]: an entry whose lifetime is over is not found (the library also
    drops it, which no later [Get] or [Add] can tell apart). *)
Definition Get (now : Z) (c : gmap FileID entry) (k : FileID) : option bool :=
  match c !! k with
  | Some {| value := v; expire := None |} => Some v
  | Some {| value := v; expire := Some t |} =>
      if decide (t ≤ now) then None else Some v
  | None => None
  end.

(** [Add]: the caches are built without a default lifetime. *)
Definition Add (c : gmap FileID entry) (k : FileID) (v : bool)
  : gmap FileID entry :=
  <[k := {| value := v; expire := None |}]> c.

Definition AddWithLifetime (now : Z) (c : gmap FileID entry) (k : FileID)
    (v : bool) (lifetime : Z) : gmap FileID entry :=
  <[k := {| value := v; expire := Some (now + lifetime) |}]> c.

(** [time.Minute], in nanoseconds as [time.Duration] counts. *)
Definition Minute : Z := 60 * 1000000000.

Record ParcaSymbolUploader := {
  retry : gmap FileID entry;
  singleflight : gmap FileID entry;
  keepTextSection : bool;
}.

Definition set_retry (u : ParcaSymbolUploader) (c : gmap FileID entry) :=
  {| retry := c; singleflight := singleflight u;
     keepTextSection := keepTextSection u |}.

Definition set_singleflight (u : ParcaSymbolUploader)
    (c : gmap FileID entry) :=
  {| retry := retry u; singleflight := c;
     keepTextSection := keepTextSection u |}.

Definition ReasonUploadInProgress : string :=
  "A previous upload is still in-progress and not stale yet (only stale uploads can be retried).".

(** *** The environment of one attempt *)

Inductive result (A : Type) :=
  | Ok (a : A)
  | Err (msg : string).
Arguments Ok {A} a.
Arguments Err {A} msg.

(** An [os] error: [os.IsNotExist] or any other. *)
Inductive fsError := NotExist | OtherError.

Inductive UploadStrategy :=
  | UPLOAD_STRATEGY_UNSPECIFIED
  | UPLOAD_STRATEGY_GRPC
  | UPLOAD_STRATEGY_SIGNED_URL.

Record UploadInstructions := {
  UploadStrategy_ : UploadStrategy;
  SignedUrl : string;
  UploadId : string;
}.

Record ShouldInitiateUploadResponse := {
  ShouldInitiateUpload : bool;
  Reason : string;
}.

(** The answer to the HTTP PUT of [uploadViaSignedURL]: the request could
    not be built, the transport failed, or a status code came back. *)
Inductive putReply := BadRequest | TransportError | Status (code : Z).

(** The answers the remote store and the file system give during one
    attempt.  [None] for an [os] call is success. *)
Record world := {
  shouldInitiateUpload : string → result ShouldInitiateUploadResponse;
  initiateUpload : string → string → Z → result (option UploadInstructions);
  markUploadFinished : string → string → result unit;
  put : string → Z → putReply;
  openOriginal : string → option fsError;
  statOriginal : result Z;
  statCachedFile : option fsError;
  openCached : option fsError;
  statCached : result Z;
  createCached : option fsError;
  onlyKeepDebug : option string;
  seekStart : option string;
  statExtracted : result Z;
}.

(** The calls that leave the agent. *)
Inductive RemoteCall :=
  | CallShouldInitiateUpload (buildID : string)
  | CallInitiateUpload (buildID hash : string) (size : Z)
  | CallPut (url : string) (size : Z)
  | CallMarkUploadFinished (buildID uploadID : string).

#[global] Instance RemoteCall_eq_dec : EqDecision RemoteCall.
Proof. solve_decision. Defined.

(** What an attempt leaves behind: the error it returns ([None] is nil),
    the uploader, and the remote calls it made, in order. *)
Record outcome := {
  returned : option string;
  uploader : ParcaSymbolUploader;
  calls : list RemoteCall;
}.

(** "Materialize local payload": either the attempt ends here, or there is
    a file of the given size to upload. *)
Inductive payload :=
  | Stop (err : option string) (u : ParcaSymbolUploader)
  | Payload (size : Z)
  | Crash.

(** The [if u.keepTextSection ... else ...] block of [attemptUpload].
    When [os.Create] fails the source calls [f.Name()] on the nil file,
    which panics: [Crash]. *)
Definition materialize (now : Z) (w : world) (u : ParcaSymbolUploader)
    (fileID : FileID) (path : string) : payload :=
  if keepTextSection u then
    match openOriginal w path with
    | Some NotExist => Stop None u
    | Some OtherError => Stop (Some "open file") u
    | None =>
        match statOriginal w with
        | Err _ => Stop (Some "stat file to upload") u
        | Ok size =>
            if decide (size = 0) then
              Stop None (set_retry u (Add (retry u) fileID false))
            else Payload size
        end
    end
  else
    match statCachedFile w with
    | None =>
        match openCached w with
        | Some _ => Stop (Some "open cached file") u
        | None =>
            match statCached w with
            | Err _ => Stop (Some "stat file to upload") u
            | Ok size =>
                if decide (size = 0) then Stop None u else Payload size
            end
        end
    | Some NotExist =>
        match createCached w with
        | Some _ => Crash
        | None =>
            match openOriginal w path with
            | Some NotExist => Stop None u
            | Some OtherError => Stop (Some "open original file") u
            | None =>
                match onlyKeepDebug w with
                | Some _ => Stop (Some "extract debuginfo") u
                | None =>
                    match seekStart w with
                    | Some _ =>
                        Stop (Some "seek extracted debuginfo to start") u
                    | None =>
                        match statExtracted w with
                        | Err _ => Stop (Some "stat file to upload") u
                        | Ok size =>
                            if decide (size = 0) then
                              Stop None
                                (set_retry u
                                   (AddWithLifetime now (retry u) fileID
                                      false (5 * Minute)))
                            else Payload size
                        end
                    end
                end
            end
        end
    | Some OtherError => Stop (Some "stat cached file file") u
    end.

(** [uploadViaSignedURL]: the error it returns and the call it made. *)
Definition uploadViaSignedURL (w : world) (url : string) (size : Z)
  : option string * list RemoteCall :=
  match put w url size with
  | BadRequest => (Some "create request", [])
  | TransportError => (Some "do upload request", [CallPut url size])
  | Status code =>
      if decide (code `quot` 100 ≠ 2) then
        (Some "unexpected status code", [CallPut url size])
      else (None, [CallPut url size])
  end.

(** The body of [attemptUpload], before its deferred call runs; [None] is
    a panic. *)
Definition attemptUploadBody `{External} (now : Z) (w : world)
    (u : ParcaSymbolUploader) (fileID : FileID) (path buildID : string)
  : option outcome :=
  let c1 := [CallShouldInitiateUpload buildID] in
  match shouldInitiateUpload w buildID with
  | Err err => Some {| returned := Some err; uploader := u; calls := c1 |}
  | Ok resp =>
      if negb (ShouldInitiateUpload resp) then
        Some
        (if decide (Reason resp = ReasonUploadInProgress) then
          {| returned := None;
             uploader :=
               set_retry u
                 (AddWithLifetime now (retry u) fileID false (5 * Minute));
             calls := c1 |}
        else
          {| returned := None;
             uploader := set_retry u (Add (retry u) fileID false);
             calls := c1 |})
      else
        match materialize now w u fileID path with
        | Crash => None
        | Stop err u =>
            Some {| returned := err; uploader := u; calls := c1 |}
        | Payload size =>
            let hash := FileID_StringNoQuotes fileID in
            let c2 := c1 ++ [CallInitiateUpload buildID hash size] in
            Some
            match initiateUpload w buildID hash size with
            | Err err =>
                {| returned := Some err; uploader := u; calls := c2 |}
            | Ok None =>
                {| returned := None;
                   uploader := set_retry u (Add (retry u) fileID false);
                   calls := c2 |}
            | Ok (Some instructions) =>
                match UploadStrategy_ instructions with
                | UPLOAD_STRATEGY_SIGNED_URL =>
                    let '(err, c) :=
                      uploadViaSignedURL w (SignedUrl instructions) size in
                    let c3 := c2 ++ c in
                    match err with
                    | Some err =>
                        {| returned := Some err; uploader := u;
                           calls := c3 |}
                    | None =>
                        let id := UploadId instructions in
                        let c4 :=
                          c3 ++ [CallMarkUploadFinished buildID id] in
                        match markUploadFinished w buildID id with
                        | Err err =>
                            {| returned := Some err; uploader := u;
                               calls := c4 |}
                        | Ok _ =>
                            {| returned := None;
                               uploader :=
                                 set_retry u (Add (retry u) fileID false);
                               calls := c4 |}
                        end
                    end
                | _ =>
                    {| returned := None;
                       uploader := set_retry u (Add (retry u) fileID false);
                       calls := c2 |}
                end
            end
        end
  end.

(** [defer u.singleflight.Add(fileID, false)] *)
Definition clearInFlight (fileID : FileID) (o : outcome) : outcome :=
  {| returned := returned o;
     uploader :=
       set_singleflight (uploader o)
         (Add (singleflight (uploader o)) fileID false);
     calls := calls o |}.

(** [attemptUpload]; [now] is the clock when it records a retry state. *)
Definition attemptUpload `{External} (now : Z) (w : world)
    (u : ParcaSymbolUploader) (fileID : FileID) (path buildID : string)
  : option outcome :=
  clearInFlight fileID <$> attemptUploadBody now w u fileID path buildID.

(** The goroutine [Upload] starts. *)
Record attempt := {
  attemptFileID : FileID;
  attemptPath : string;
  attemptBuildID : string;
}.

(** [Upload], up to the [go] statement: the uploader it leaves and the
    goroutine it started, if any.  [now] is the clock at the call. *)
Definition Upload (now : Z) (u : ParcaSymbolUploader) (fileID : FileID)
    (path buildID : string) : ParcaSymbolUploader * option attempt :=
  if decide (buildID = "") then (u, None)
  else
    let retry' := Get now (retry u) fileID in
    if bool_decide (is_Some retry') && negb (default false retry') then
      (u, None)
    else
      let singleflight' := Get now (singleflight u) fileID in
      if bool_decide (is_Some singleflight') || default false singleflight'
      then (u, None)
      else
        (set_singleflight u (Add (singleflight u) fileID true),
         Some {| attemptFileID := fileID; attemptPath := path;
                 attemptBuildID := buildID |}).

(** The goroutine: [attemptUpload], then the goroutine's own deferred
    [u.singleflight.Add(fileID, false)]. *)
Definition runAttempt `{External} (now : Z) (w : world)
    (u : ParcaSymbolUploader) (a : attempt) : option outcome :=
  clearInFlight (attemptFileID a) <$>
    attemptUpload now w u (attemptFileID a) (attemptPath a)
      (attemptBuildID a).

End Symuploader.

(** * The vocabulary of the properties *)

(** ** Dedup tables *)

(** A map from logical values to indices is [indexed] when it is a
    bijection onto the indices below its size. *)
Definition inRange `{Countable K} (m : gmap K Z) : Prop :=
  ∀ k i, m !! k = Some i → 0 ≤ i < Z.of_nat (size m).

Definition indexed `{Countable K} (m : gmap K Z) : Prop :=
  inRange m ∧
  (∀ k1 k2 i, m !! k1 = Some i → m !! k2 = Some i → k1 = k2) ∧
  (∀ i, 0 ≤ i < Z.of_nat (size m) → ∃ k, m !! k = Some i).

(** What holds of the string map whatever its size, and what holds while
    its size fits the [uint32] index. *)
Definition stringsOk (m : gmap string Z) : Prop :=
  m !! "" = Some 0 ∧ inRange m ∧ (Z.of_nat (size m) ≤ 2 ^ 32 → indexed m).

(** The string map after a run of [getStringMapIndex] calls, and the
    function map after a run of [createFunctionEntry] calls. *)
Definition internAll (m : gmap string Z) (l : list string) : gmap string Z :=
  foldl (λ m s, (Reporter.getStringMapIndex m s).2) m l.

Definition createAll (m : gmap Reporter.funcInfo Z)
    (l : list Reporter.funcInfo) : gmap Reporter.funcInfo Z :=
  foldl (λ m k,
           (Reporter.createFunctionEntry m (Reporter.name k)
              (Reporter.funcFileName k)).2) m l.

(** [e'] comes from [e] by interning strings and functions. *)
Definition grows (e e' : Reporter.encoder) : Prop :=
  (∃ l, Reporter.stringMap e' = internAll (Reporter.stringMap e) l) ∧
  (∃ l, Reporter.funcMap e' = createAll (Reporter.funcMap e) l) ∧
  Reporter.frameIDtoFunction e' = Reporter.frameIDtoFunction e.

(** ** Snapshots *)

(** Index [idx] of the string table of [p] holds [s]. *)
Definition resolves (p : Reporter.Profile) (idx : Z) (s : string) : Prop :=
  0 ≤ idx ∧ Reporter.StringTable p !! Z.to_nat idx = Some s.

(** The name [getProfile] gives the function of a kernel frame. *)
Definition kernelSymbol (r : Reporter.OTLPReporter) (fileID : FileID)
    (lineno : AddressOrLineno) : string :=
  default "UNKNOWN" (Reporter.fallbackSymbols r !! NewFrameID fileID lineno).

(** The frames of a trace as the frame loop reads them, and the frames of
    a working set in encoding order: one per emitted location. *)
Definition traceFrames (t : Reporter.traceInfo)
  : list (FrameType * option FileID * option AddressOrLineno) :=
  imap (λ i k, (k, Reporter.files t !! i, Reporter.linenos t !! i))
    (Reporter.frameTypes t).

Definition snapshotFrames (r : Reporter.OTLPReporter)
    (ws : list (TraceHash * Reporter.sample))
  : list (FrameType * option FileID * option AddressOrLineno) :=
  ws ≫= λ kv, traceFrames (Reporter.traces r !!! kv.1).

(** [smp] is the sample emitted for the counter [kv]: its value is the
    accumulated count, its timestamps are the counter's in milliseconds,
    and its stack identity is interned in [sm]. *)
Definition emittedFor `{External} (sm : gmap string Z)
    (kv : TraceHash * Reporter.sample) (smp : Reporter.Sample) : Prop :=
  Reporter.Value smp = [Reporter.count kv.2] ∧
  Reporter.Timestamps smp =
    ((λ ts, u64 (UnixMilli (i64 ts))) <$> Reporter.timestamps kv.2) ∧
  sm !! TraceHash_StringNoQuotes kv.1 = Some (Reporter.StacktraceIdIndex smp).

(** The line of every kernel frame among [frs] refers to the function
    entry of its symbol in [fm]. *)
Definition kernelLines (r : Reporter.OTLPReporter)
    (fm : gmap Reporter.funcInfo Z)
    (frs : list (FrameType * option FileID * option AddressOrLineno))
    (locs : list Reporter.Location) : Prop :=
  length locs = length frs ∧
  ∀ j f a, frs !! j = Some (KernelFrame, Some f, Some a) →
    ∃ loc l, locs !! j = Some loc ∧ Reporter.Location_Line loc = [l] ∧
      fm !! Reporter.FuncInfo (kernelSymbol r f a) "vmlinux" =
        Some (Reporter.FunctionIndex l - 1).

(** A trace whose three slices cover its frames: the frame loop indexes
    [files] and [linenos] by the positions of [frameTypes]. *)
Definition wellFormed (t : Reporter.traceInfo) : Prop :=
  (length (Reporter.frameTypes t) ≤ length (Reporter.files t))%nat ∧
  (length (Reporter.frameTypes t) ≤ length (Reporter.linenos t))%nat.

(** ** Frame metadata *)

(** The file path the frames cache holds for (FileID, address). *)
Definition storedFilePath (r : Reporter.OTLPReporter) (fileID : FileID)
    (addressOrLine : AddressOrLineno) : option string :=
  v ← Reporter.frames r !! fileID;
  s ← v !! addressOrLine;
  Some (Reporter.filePath s).

(** [ParcaSymbolUploader] implements the reporter's [symbolUploader]. *)
#[global] Instance ParcaSymbolUploader_Upload
  : Reporter.symbolUploader Symuploader.ParcaSymbolUploader
      Symuploader.attempt :=
  {| Reporter.Upload := Symuploader.Upload |}.

(** ** Runs of [ReportCountForTrace]

    Every call of a run for one hash adds that hash again to both caches,
    so the hash is the most recently used entry throughout the run. *)

(** A [ReportCountForTrace] call, without its hash. *)
Record countCall := {
  countTimestamp : Z;
  countCount : Z;
  countComm : string;
  countPodName : string;
  countPodNamespace : string;
  countContainerName : string;
}.

Definition applyCount (traceHash : TraceHash) (r : Reporter.OTLPReporter)
    (c : countCall) : Reporter.OTLPReporter :=
  Reporter.ReportCountForTrace r traceHash (countTimestamp c) (countCount c)
    (countComm c) (countPodName c) (countPodNamespace c)
    (countContainerName c).

(** The counts of a run of [ReportCountForTrace] calls, added up. *)
Definition totalCount (cs : list countCall) : Z :=
  foldr (λ c n, countCount c + n) 0 cs.

(** Every counter of the samples cache has trace information. *)
Definition covered (r : Reporter.OTLPReporter) : Prop :=
  ∀ k, is_Some (Reporter.samples r !! k) → is_Some (Reporter.traces r !! k).

(** ** Locations *)

(** A trace whose frame loop indexes its slices in range: [linenos] at
    every frame, [files] at every frame but an abort marker. *)
Definition indexable (t : Reporter.traceInfo) : Prop :=
  ∀ i kind, Reporter.frameTypes t !! i = Some kind →
    is_Some (Reporter.linenos t !! i) ∧
    (kind ≠ AbortFrame → is_Some (Reporter.files t !! i)).

(** [idx] is the index that [sm] gives to some string. *)
Definition interned (sm : gmap string Z) (idx : Z) : Prop :=
  ∃ s, sm !! s = Some idx.

(** The line number and the function of an interpreted frame, from the
    frame metadata: no metadata for the file, none for the line, or the
    cached source information. *)
Definition interpretedSource `{External} (r : Reporter.OTLPReporter)
    (kind : FrameType) (fileID : FileID) (lineno : AddressOrLineno)
  : Z * Reporter.funcInfo :=
  match Reporter.frames r !! fileID with
  | None => (0, Reporter.FuncInfo "UNREPORTED" (FrameType_String kind))
  | Some fileIDInfo =>
      match fileIDInfo !! lineno with
      | None => (0, Reporter.FuncInfo "UNRESOLVED" (FrameType_String kind))
      | Some si =>
          (i64 (Reporter.lineNumber si),
           Reporter.FuncInfo (Reporter.functionName si)
             (Reporter.filePath si))
      end
  end.

(** [loc] is the location of the frame [fr], read through the dedup maps:
    the string map [sm], the function map [fm] and the map [mm] from
    FileIDs to mapping indices. *)
Definition describes `{External} (r : Reporter.OTLPReporter)
    (sm : gmap string Z) (fm : gmap Reporter.funcInfo Z) (mm : gmap FileID Z)
    (fr : FrameType * option FileID * option AddressOrLineno)
    (loc : Reporter.Location) : Prop :=
  ∃ a, fr.2 = Some a ∧ Reporter.Address loc = a ∧
    sm !! FrameType_String fr.1.1 = Some (Reporter.TypeIndex loc) ∧
    match fr.1.1 with
    | AbortFrame =>
        Reporter.MappingIndex loc = 0 ∧ Reporter.Location_Line loc = []
    | NativeFrame =>
        ∃ f, fr.1.2 = Some f ∧
          mm !! f = Some (Reporter.MappingIndex loc - 1) ∧
          Reporter.Location_Line loc = []
    | KernelFrame =>
        ∃ f l, fr.1.2 = Some f ∧
          mm !! f = Some (Reporter.MappingIndex loc - 1) ∧
          Reporter.Location_Line loc = [l] ∧ Reporter.Line_Line l = 0 ∧
          fm !! Reporter.FuncInfo (kernelSymbol r f a) "vmlinux" =
            Some (Reporter.FunctionIndex l - 1)
    | InterpretedFrame _ =>
        ∃ f l, fr.1.2 = Some f ∧
          mm !! f = Some (Reporter.MappingIndex loc - 1) ∧
          Reporter.Location_Line loc = [l] ∧
          Reporter.Line_Line l = (interpretedSource r fr.1.1 f a).1 ∧
          fm !! (interpretedSource r fr.1.1 f a).2 =
            Some (Reporter.FunctionIndex l - 1)
    end.

(** The mapping table and its index: the index is a bijection onto the
    positions of the table, whose entries use interned strings. *)
Definition mappingsOk (e : Reporter.encoder) : Prop :=
  indexed (Reporter.fileIDtoMapping e) ∧
  size (Reporter.fileIDtoMapping e) = length (Reporter.profileMapping e) ∧
  Forall (λ m, interned (Reporter.stringMap e) (Reporter.Filename m) ∧
               interned (Reporter.stringMap e) (Reporter.BuildId m))
    (Reporter.profileMapping e).

(** The FileIDs of the frames that refer to a mapping: all but abort
    markers. *)
Definition mappedFiles
    (frs : list (FrameType * option FileID * option AddressOrLineno))
  : list FileID :=
  omap (λ fr, match fr.1.1 with AbortFrame => None | _ => fr.1.2 end) frs.

(** The locations of a sample: [LocationsLength] entries of the location
    table from [LocationsStartIndex] on. *)
Definition sliceOf (locs : list Reporter.Location) (smp : Reporter.Sample)
  : list Reporter.Location :=
  take (Z.to_nat (Reporter.LocationsLength smp))
    (drop (Z.to_nat (Reporter.LocationsStartIndex smp)) locs).

(** The label keys with the fields of the trace information they stand
    for, in the order of [getTraceLabels]. *)
Definition labelFields (t : Reporter.traceInfo) : list (string * string) :=
  [("comm", Reporter.comm t); ("podName", Reporter.podName t);
   ("podNamespace", Reporter.podNamespace t);
   ("containerName", Reporter.containerName t);
   ("apmServiceName", Reporter.apmServiceName t)].

(** [labels] are the labels of [t]: one per non-empty field, in order,
    key and value interned in [sm]. *)
Definition labelled (sm : gmap string Z) (t : Reporter.traceInfo)
    (labels : list Reporter.Label) : Prop :=
  Forall2
    (λ kv l, sm !! kv.1 = Some (Reporter.Key l) ∧
             sm !! kv.2 = Some (Reporter.Str l))
    (filter (λ kv, kv.2 ≠ "") (labelFields t)) labels.

(** Entry [idx] (1-based) of the function table of [p] is a function
    named [name'] of file [fileName']. *)
Definition namedFunction (p : Reporter.Profile) (idx : Z)
    (name' fileName' : string) : Prop :=
  1 ≤ idx ∧
  ∃ fn, Reporter.Profile_Function p !! Z.to_nat (idx - 1) = Some (Some fn) ∧
    resolves p (Reporter.Name fn) name' ∧
    resolves p (Reporter.Function_Filename fn) fileName'.

(** [loc] is the location of the frame [fr], read through the tables of
    the profile [p]. *)
Definition located `{External} (r : Reporter.OTLPReporter)
    (p : Reporter.Profile)
    (fr : FrameType * option FileID * option AddressOrLineno)
    (loc : Reporter.Location) : Prop :=
  ∃ a, fr.2 = Some a ∧ Reporter.Address loc = a ∧
    resolves p (Reporter.TypeIndex loc) (FrameType_String fr.1.1) ∧
    match fr.1.1 with
    | AbortFrame =>
        Reporter.MappingIndex loc = 0 ∧ Reporter.Location_Line loc = []
    | NativeFrame =>
        1 ≤ Reporter.MappingIndex loc ≤
          Z.of_nat (length (Reporter.Profile_Mapping p)) ∧
        Reporter.Location_Line loc = []
    | KernelFrame =>
        ∃ f l, fr.1.2 = Some f ∧
          1 ≤ Reporter.MappingIndex loc ≤
            Z.of_nat (length (Reporter.Profile_Mapping p)) ∧
          Reporter.Location_Line loc = [l] ∧ Reporter.Line_Line l = 0 ∧
          namedFunction p (Reporter.FunctionIndex l)
            (kernelSymbol r f a) "vmlinux"
    | InterpretedFrame _ =>
        ∃ f l, fr.1.2 = Some f ∧
          1 ≤ Reporter.MappingIndex loc ≤
            Z.of_nat (length (Reporter.Profile_Mapping p)) ∧
          Reporter.Location_Line loc = [l] ∧
          Reporter.Line_Line l = (interpretedSource r fr.1.1 f a).1 ∧
          namedFunction p (Reporter.FunctionIndex l)
            (Reporter.name (interpretedSource r fr.1.1 f a).2)
            (Reporter.funcFileName (interpretedSource r fr.1.1 f a).2)
    end.

(** [smp] is the sample of the counter [kv], read through the dedup maps:
    its slice of the location table [locs] describes the frames of the
    trace, its labels are those of the trace, and its stack identity is
    interned. *)
Definition sampled `{External} (r : Reporter.OTLPReporter)
    (sm : gmap string Z) (fm : gmap Reporter.funcInfo Z) (mm : gmap FileID Z)
    (locs : list Reporter.Location) (kv : TraceHash * Reporter.sample)
    (smp : Reporter.Sample) : Prop :=
  let t := Reporter.traces r !!! kv.1 in
  0 ≤ Reporter.LocationsStartIndex smp ∧
  Reporter.LocationsLength smp =
    Z.of_nat (length (Reporter.frameTypes t)) ∧
  Reporter.LocationsStartIndex smp + Reporter.LocationsLength smp ≤
    Z.of_nat (length locs) ∧
  Forall2 (describes r sm fm mm) (traceFrames t) (sliceOf locs smp) ∧
  labelled sm t (Reporter.Sample_Label smp) ∧
  sm !! TraceHash_StringNoQuotes kv.1 =
    Some (Reporter.StacktraceIdIndex smp).

(** The location slices of [smps] follow one another from [start] to
    [stop]. *)
Fixpoint tiles (start : Z) (smps : list Reporter.Sample) (stop : Z) : Prop :=
  match smps with
  | [] => start = stop
  | smp :: smps =>
      Reporter.LocationsStartIndex smp = start ∧
      tiles (start + Reporter.LocationsLength smp) smps stop
  end.

(** * A concrete setting, for the examples *)

Definition demoExternal : External :=
  {| TraceHash_StringNoQuotes := λ h, "trace-" +:+ pretty h;
     FileID_StringNoQuotes := λ f, "file-" +:+ pretty f;
     FrameType_String := λ k,
       match k with
       | NativeFrame => "native"
       | KernelFrame => "kernel"
       | AbortFrame => "abort-marker"
       | InterpretedFrame c => "interpreter-" +:+ pretty c
       end;
     SamplesPerSecond := 20;
     Version := "v1";
     Revision := "0" |}.

(** [range] in the order of the map's own enumeration. *)
Definition demoOrder : RangeOrder :=
  {| rangeOver := λ _ K _ _ V, map_to_list;
     rangeOver_perm := λ _ K _ _ V m, Permutation_refl (map_to_list m) |}.

Definition emptyReporter (mode : string) : Reporter.OTLPReporter :=
  {| Reporter.hostmetadata := ∅; Reporter.traces := ∅;
     Reporter.samples := ∅; Reporter.fallbackSymbols := ∅;
     Reporter.executables := ∅; Reporter.frames := ∅;
     Reporter.otlpBuildIDMode := mode |}.

(** One trace of a native and two identical kernel frames, counted once
    at second 1000. *)
Definition oneTrace : Reporter.Trace :=
  {| Reporter.Hash := 7%N; Reporter.Files := [1%N; 2%N; 2%N];
     Reporter.Linenos := [4096; 10; 10];
     Reporter.FrameTypes := [NativeFrame; KernelFrame; KernelFrame] |}.

(** The trace information [oneSample] holds for its trace. *)
Definition oneTraceInfo : Reporter.traceInfo :=
  {| Reporter.files := [1%N; 2%N; 2%N]; Reporter.linenos := [4096; 10; 10];
     Reporter.frameTypes := [NativeFrame; KernelFrame; KernelFrame];
     Reporter.comm := "app"; Reporter.podName := "";
     Reporter.podNamespace := ""; Reporter.containerName := "";
     Reporter.apmServiceName := "" |}.

Definition oneSample : Reporter.OTLPReporter :=
  Reporter.ReportCountForTrace
    (Reporter.ReportFramesForTrace (emptyReporter "linker") oneTrace)
    7%N 1000 3 "app" "" "" "".

(** [oneSample] and a counter whose trace information is gone. *)
Definition twoCounters : Reporter.OTLPReporter :=
  Reporter.set_samples oneSample
    (<[9%N := {| Reporter.timestamps := [1001]; Reporter.count := 2 |}]>
       (Reporter.samples oneSample)).

(** A reporter whose only counter has lost its trace information. *)
Definition orphanCounter : Reporter.OTLPReporter :=
  Reporter.set_samples (emptyReporter "linker")
    (<[9%N := {| Reporter.timestamps := [1001]; Reporter.count := 2 |}]> ∅).

(** A remote store that answers every authorize call with [reply], and
    a file system on which nothing fails. *)
Definition answering
    (reply : Symuploader.result Symuploader.ShouldInitiateUploadResponse)
  : Symuploader.world :=
  {| Symuploader.shouldInitiateUpload := λ _, reply;
     Symuploader.initiateUpload := λ _ _ _, Symuploader.Ok None;
     Symuploader.markUploadFinished := λ _ _, Symuploader.Ok ();
     Symuploader.put := λ _ _, Symuploader.Status 200;
     Symuploader.openOriginal := λ _, None;
     Symuploader.statOriginal := Symuploader.Ok 4096;
     Symuploader.statCachedFile := Some Symuploader.NotExist;
     Symuploader.openCached := None;
     Symuploader.statCached := Symuploader.Ok 4096;
     Symuploader.createCached := None;
     Symuploader.onlyKeepDebug := None;
     Symuploader.seekStart := None;
     Symuploader.statExtracted := Symuploader.Ok 4096 |}.

Definition denying (reason : string) : Symuploader.world :=
  answering
    (Symuploader.Ok
       {| Symuploader.ShouldInitiateUpload := false;
          Symuploader.Reason := reason |}).

Definition newUploader : Symuploader.ParcaSymbolUploader :=
  {| Symuploader.retry := ∅; Symuploader.singleflight := ∅;
     Symuploader.keepTextSection := false |}.

(** A remote store that allows the upload and hands out a signed URL, on
    which the PUT answers [code]; the file system is that of [answering]. *)
Definition allowing (code : Z) : Symuploader.world :=
  {| Symuploader.shouldInitiateUpload := λ _,
       Symuploader.Ok
         {| Symuploader.ShouldInitiateUpload := true;
            Symuploader.Reason := "" |};
     Symuploader.initiateUpload := λ _ _ _,
       Symuploader.Ok
         (Some {| Symuploader.UploadStrategy_ :=
                    Symuploader.UPLOAD_STRATEGY_SIGNED_URL;
                  Symuploader.SignedUrl := "https://store/put";
                  Symuploader.UploadId := "upload-1" |});
     Symuploader.markUploadFinished := λ _ _, Symuploader.Ok ();
     Symuploader.put := λ _ _, Symuploader.Status code;
     Symuploader.openOriginal := λ _, None;
     Symuploader.statOriginal := Symuploader.Ok 4096;
     Symuploader.statCachedFile := Some Symuploader.NotExist;
     Symuploader.openCached := None;
     Symuploader.statCached := Symuploader.Ok 4096;
     Symuploader.createCached := None;
     Symuploader.onlyKeepDebug := None;
     Symuploader.seekStart := None;
     Symuploader.statExtracted := Symuploader.Ok 4096 |}.

(** As [allowing], with an extraction that leaves an empty file. *)
Definition extractingNothing : Symuploader.world :=
  {| Symuploader.shouldInitiateUpload :=
       Symuploader.shouldInitiateUpload (allowing 200);
     Symuploader.initiateUpload := Symuploader.initiateUpload (allowing 200);
     Symuploader.markUploadFinished :=
       Symuploader.markUploadFinished (allowing 200);
     Symuploader.put := Symuploader.put (allowing 200);
     Symuploader.openOriginal := λ _, None;
     Symuploader.statOriginal := Symuploader.Ok 0;
     Symuploader.statCachedFile := Some Symuploader.NotExist;
     Symuploader.openCached := None;
     Symuploader.statCached := Symuploader.Ok 0;
     Symuploader.createCached := None;
     Symuploader.onlyKeepDebug := None;
     Symuploader.seekStart := None;
     Symuploader.statExtracted := Symuploader.Ok 0 |}.

Definition demoMetadataOrder : Reporter.MetadataOrder :=
  {| Reporter.rangeMetadata := map_to_list;
     Reporter.rangeMetadata_perm := λ m, Permutation_refl (map_to_list m) |}.

(** Two counts of the trace of [oneSample], one second apart. *)
Definition countA : countCall :=
  {| countTimestamp := 1001; countCount := 2; countComm := "app";
     countPodName := "pod-1"; countPodNamespace := "";
     countContainerName := "" |}.

Definition countB : countCall :=
  {| countTimestamp := 1002; countCount := 5; countComm := "worker";
     countPodName := "pod-2"; countPodNamespace := "ns";
     countContainerName := "" |}.

(** [oneSample] counted twice more. *)
Definition threeCounts : Reporter.OTLPReporter :=
  foldl (applyCount 7%N) oneSample [countA; countB].

(** The last element of a slash-separated path, to stand for [path.Base]
    in the examples. *)
Fixpoint lastElement (s cur : string) : string :=
  match s with
  | EmptyString => cur
  | String c s =>
      if Ascii.eqb c (Ascii.ascii_of_nat 47) then lastElement s ""
      else lastElement s (cur +:+ String c "")
  end.

Definition demoBase (s : string) : string := lastElement s "".

(** A trace of a native, a kernel, an interpreted and an abort frame,
    counted once, with a fallback symbol, an executable, frame metadata and
    host metadata. *)
Definition busyTrace : Reporter.Trace :=
  {| Reporter.Hash := 7%N; Reporter.Files := [1%N; 2%N; 3%N];
     Reporter.Linenos := [4096; 10; 42; 0];
     Reporter.FrameTypes :=
       [NativeFrame; KernelFrame; InterpretedFrame 3; AbortFrame] |}.

Definition busyReporter : Reporter.OTLPReporter :=
  let r := Reporter.ReportFramesForTrace (emptyReporter "linker") busyTrace in
  let r := applyCount 7%N r countA in
  let r := Reporter.ReportFallbackSymbol r (NewFrameID 2%N 10)
             "do_syscall_64" in
  let r := (Reporter.ExecutableMetadata demoBase 0 r
              Reporter.NoopSymbolUploader 1%N "/usr/bin/app" "build-1").1.1 in
  let r := Reporter.FrameMetadata r 3%N 42 17 0 "main" "app.py" in
  @Reporter.ReportHostMetadata demoMetadataOrder r
    (<["host.name" := "node-1"]> ∅).

(** * Properties *)

(** Evaluate the lookups of a concrete map in the goal. *)
Ltac eval_lookup :=
  repeat match goal with
  | |- context [@lookup ?K ?A ?M ?L ?k ?m] =>
      let v := eval vm_compute in (@lookup K A M L k m) in
      progress change (@lookup K A M L k m) with v
  end.

(** ** Ingestion *)

Section ingestion.
Import Reporter.

(** C4: [ReportFramesForTrace] and [ReportCountForTrace] for the same hash
    commute: whichever comes first, the reporter ends in the same state, and
    the trace shape it stores has the files, line numbers and frame types
    of the frames call and the four labels of the count call (the service
    name, which neither call sets, is what was stored before). *)
Theorem frames_and_count_commute (r : OTLPReporter) (trace : Trace)
    (timestamp cnt : Z) (c pn pns cn : string) :
  let h := Hash trace in
  let fc :=
    ReportCountForTrace (ReportFramesForTrace r trace) h timestamp cnt
      c pn pns cn in
  let cf :=
    ReportFramesForTrace
      (ReportCountForTrace r h timestamp cnt c pn pns cn) trace in
  fc = cf ∧
  traces fc !! h =
    Some {| files := Files trace; linenos := Linenos trace;
            frameTypes := FrameTypes trace;
            comm := c; podName := pn; podNamespace := pns;
            containerName := cn;
            apmServiceName :=
              default "" (apmServiceName <$> traces r !! h) |}.
Proof.
  intros h fc cf. subst fc cf h.
  unfold ReportCountForTrace, ReportFramesForTrace.
  destruct (traces r !! Hash trace) as [v|] eqn:Ht;
    destruct (samples r !! Hash trace) as [s|] eqn:Hs;
    repeat (cbn; rewrite ?Ht, ?Hs, ?lookup_insert_eq, ?insert_insert_eq);
    split; reflexivity.
Qed.

Lemma storedFilePath_FrameMetadata r f' a' ln fo fn fp f a :
  storedFilePath (FrameMetadata r f' a' ln fo fn fp) f a =
    if decide (f' = f ∧ a' = a) then
      Some (if decide (fp = "") then default "" (storedFilePath r f a)
            else fp)
    else storedFilePath r f a.
Proof.
  unfold storedFilePath, FrameMetadata.
  destruct (decide (f' = f ∧ a' = a)) as [[-> ->]|Hne].
  - destruct (frames r !! f) as [v|] eqn:Hv; cbn;
      repeat (rewrite lookup_insert_eq; cbn).
    + destruct (decide (fp = "")) as [->|]; [|done].
      by destruct (v !! a).
    + by destruct (decide (fp = "")) as [->|].
  - assert (Hin : ∀ v : gmap Z sourceInfo, ∀ x, f' = f →
              <[a' := x]> v !! a = v !! a).
    { intros v x ->. apply lookup_insert_ne. naive_solver. }
    destruct (frames r !! f') as [v|] eqn:Hv; cbn;
      (destruct (decide (f' = f)) as [->|Hf];
       [rewrite lookup_insert_eq; cbn; rewrite Hin by done
       |by rewrite lookup_insert_ne by done]).
    + by rewrite Hv.
    + by rewrite lookup_empty, Hv.
Qed.

(** C8: once the frames cache holds a non-empty file path for (FileID,
    address), whatever calls led to that state, a [FrameMetadata] call for
    that pair with an empty file path leaves the stored path as it is. *)
Theorem FrameMetadata_keeps_file_path (r : OTLPReporter) (f : FileID)
    (a : AddressOrLineno) (p : string) :
  storedFilePath r f a = Some p → p ≠ "" →
  ∀ ln fo fn,
    storedFilePath (FrameMetadata r f a ln fo fn "") f a = Some p.
Proof.
  intros Hp Hne ln fo fn. rewrite storedFilePath_FrameMetadata, Hp. cbn.
  by destruct (decide (f = f ∧ a = a)) as [_|[]].
Qed.

Lemma FrameMetadata_keeps_file_path_witness :
  storedFilePath
    (FrameMetadata
       (FrameMetadata (emptyReporter "linker") 1%N 2 3 4 "f" "a.py")
       1%N 2 5 6 "g" "") 1%N 2 = Some "a.py".
Proof.
  exact (FrameMetadata_keeps_file_path
           (FrameMetadata (emptyReporter "linker") 1%N 2 3 4 "f" "a.py")
           1%N 2 "a.py" eq_refl ltac:(discriminate) 5 6 "g").
Defined.

End ingestion.

(** ** The symbol uploader *)

Section uploader.
Context `{External}.
Import Symuploader.

Lemma Get_Add t c k v : Get t (Add c k v) k = Some v.
Proof. unfold Get, Add. by rewrite lookup_insert_eq. Qed.

Lemma Get_AddWithLifetime t now c k v lifetime :
  Get t (AddWithLifetime now c k v lifetime) k =
    if decide (now + lifetime ≤ t) then None else Some v.
Proof. unfold Get, AddWithLifetime. by rewrite lookup_insert_eq. Qed.

(** C7: when the authorize step denies the upload, [attemptUpload] returns
    nil after that one remote call and leaves a "do not retry" entry for the
    FileID in the retry cache: with a lifetime of five minutes from now when
    the reason is [ReasonUploadInProgress] (so [Get] finds it until then and
    not afterwards), without expiry for any other reason. *)
Theorem attemptUpload_denied (now : Z) (w : world) (u : ParcaSymbolUploader)
    (fileID : FileID) (path buildID : string)
    (resp : ShouldInitiateUploadResponse) :
  shouldInitiateUpload w buildID = Ok resp →
  ShouldInitiateUpload resp = false →
  ∃ o, attemptUpload now w u fileID path buildID = Some o ∧
    returned o = None ∧
    calls o = [CallShouldInitiateUpload buildID] ∧
    retry (uploader o) =
      <[fileID :=
          {| value := false;
             expire :=
               if decide (Reason resp = ReasonUploadInProgress)
               then Some (now + 5 * Minute) else None |}]> (retry u) ∧
    ∀ t, Get t (retry (uploader o)) fileID =
      if decide (Reason resp = ReasonUploadInProgress)
      then (if decide (now + 5 * Minute ≤ t) then None else Some false)
      else Some false.
Proof.
  intros Hresp Hdeny.
  unfold attemptUpload, attemptUploadBody. rewrite Hresp, Hdeny. cbn.
  destruct (decide (Reason resp = ReasonUploadInProgress)) as [Hr|Hr];
    eexists; (split; [reflexivity|]); cbn; repeat split; intros t.
  - apply Get_AddWithLifetime.
  - apply Get_Add.
Qed.

(** An attempt that concluded leaves the in-flight entry of its FileID in
    the cache, with the value [false] and no expiry. *)
Lemma runAttempt_marker now w u a o :
  runAttempt now w u a = Some o →
  singleflight (uploader o) !! attemptFileID a =
    Some {| value := false; expire := None |}.
Proof.
  unfold runAttempt, attemptUpload. intros Ho.
  destruct (attemptUploadBody _ _ _ _ _ _) as [o'|]; [|done].
  cbn in Ho. injection Ho as <-. cbn. unfold Add.
  apply lookup_insert_eq.
Qed.

(** [Upload] finds such an entry ([ok] is true) and returns. *)
Lemma Upload_entry_found now u fileID path buildID e :
  singleflight u !! fileID = Some e → expire e = None →
  Upload now u fileID path buildID = (u, None).
Proof.
  intros He Hexp. unfold Upload.
  destruct (decide (buildID = "")); [done|].
  destruct (_ && _); [done|].
  assert (Hg : Get now (singleflight u) fileID = Some (value e)).
  { unfold Get. rewrite He. destruct e as [v ?]. cbn in Hexp. by subst. }
  by rewrite Hg.
Qed.

Lemma Upload_after_attempt now w u a o now' path' buildID' :
  runAttempt now w u a = Some o →
  Upload now' (uploader o) (attemptFileID a) path' buildID' =
    (uploader o, None).
Proof.
  intros Ho. eapply Upload_entry_found; [by eapply runAttempt_marker|done].
Qed.

End uploader.

Lemma attemptUpload_denied_witness :
  ∃ o,
    @Symuploader.attemptUpload demoExternal 0
      (denying Symuploader.ReasonUploadInProgress) newUploader 1%N
      "/bin/app" "build-1" = Some o ∧
    Symuploader.returned o = None ∧
    Symuploader.calls o = [Symuploader.CallShouldInitiateUpload "build-1"] ∧
    Symuploader.Get 299999999999
      (Symuploader.retry (Symuploader.uploader o)) 1%N = Some false ∧
    Symuploader.Get 300000000000
      (Symuploader.retry (Symuploader.uploader o)) 1%N = None.
Proof.
  destruct (@attemptUpload_denied demoExternal 0
              (denying Symuploader.ReasonUploadInProgress) newUploader 1%N
              "/bin/app" "build-1" _ eq_refl eq_refl)
    as (o & Ho & Hret & Hcalls & _ & Hget).
  exists o. repeat split; try assumption.
  - rewrite Hget. reflexivity.
  - rewrite Hget. reflexivity.
Defined.

(** C2, on the code: a first [Upload] for FileID 1 starts an attempt, the
    authorize call of that attempt fails, and the attempt ends with no
    retry state recorded and the in-flight entry set to [false]; from then
    on every [Upload] for FileID 1, at any time, starts nothing.  The same
    holds after a denial for [ReasonUploadInProgress], also once the five
    minutes are over. *)
Theorem Upload_noop_after_concluded_attempt :
  let w := answering (Symuploader.Err "unavailable") in
  let w' := denying Symuploader.ReasonUploadInProgress in
  ∃ u1 a o o',
    Symuploader.Upload 0 newUploader 1%N "/bin/app" "build-1" = (u1, Some a) ∧
    @Symuploader.runAttempt demoExternal 1 w u1 a = Some o ∧
    Symuploader.returned o = Some "unavailable" ∧
    Symuploader.retry (Symuploader.uploader o) = ∅ ∧
    Symuploader.Get 2 (Symuploader.singleflight (Symuploader.uploader o)) 1%N
      = Some false ∧
    (∀ now,
       Symuploader.Upload now (Symuploader.uploader o) 1%N "/bin/app"
         "build-1" = (Symuploader.uploader o, None)) ∧
    @Symuploader.runAttempt demoExternal 1 w' u1 a = Some o' ∧
    (∀ now, 1 + 5 * Symuploader.Minute ≤ now →
       Symuploader.Get now (Symuploader.retry (Symuploader.uploader o')) 1%N
         = None ∧
       Symuploader.Upload now (Symuploader.uploader o') 1%N "/bin/app"
         "build-1" = (Symuploader.uploader o', None)).
Proof.
  intros w w'. eexists _, _, _, _.
  split; [vm_compute; reflexivity|].
  split; [vm_compute; reflexivity|].
  split; [reflexivity|].
  split; [reflexivity|].
  split; [reflexivity|].
  split.
  { intros now.
    eapply (@Upload_entry_found); [vm_compute; reflexivity|reflexivity]. }
  split; [vm_compute; reflexivity|].
  intros now Hnow. split.
  - unfold Symuploader.Minute in Hnow. unfold Symuploader.Get.
    eval_lookup. cbn. case_decide; [done|lia].
  - eapply (@Upload_entry_found); [vm_compute; reflexivity|reflexivity].
Qed.

(** ** Dedup tables *)

Section tables.
Import Reporter.

Lemma u32_small z : 0 ≤ z < 2 ^ 32 → u32 z = z.
Proof. intros. unfold u32. by apply Z.mod_small. Qed.

Lemma u32_bound z : 0 ≤ z → 0 ≤ u32 z ≤ z.
Proof.
  intros Hz. unfold u32. split.
  - apply Z.mod_pos_bound. lia.
  - apply Z.mod_le; lia.
Qed.

Lemma inRange_insert `{Countable K} (m : gmap K Z) k i :
  inRange m → m !! k = None → 0 ≤ i ≤ Z.of_nat (size m) →
  inRange (<[k := i]> m).
Proof.
  intros Hr Hk Hi k' i'. rewrite map_size_insert_None by done.
  destruct (decide (k = k')) as [->|Hne].
  - rewrite lookup_insert_eq. intros [= <-]. lia.
  - rewrite lookup_insert_ne by done. intros Hk'.
    specialize (Hr _ _ Hk'). lia.
Qed.

Lemma indexed_insert `{Countable K} (m : gmap K Z) k :
  indexed m → m !! k = None → indexed (<[k := Z.of_nat (size m)]> m).
Proof.
  intros (Hr & Hinj & Hsurj) Hk. split; [|split].
  - apply inRange_insert; [done..|lia].
  - intros k1 k2 i.
    destruct (decide (k1 = k)) as [->|H1], (decide (k2 = k)) as [->|H2];
      rewrite ?lookup_insert_eq, ?lookup_insert_ne by done;
      try done.
    + intros [= <-] H2'. specialize (Hr _ _ H2'). lia.
    + intros H1' [= <-]. specialize (Hr _ _ H1'). lia.
    + apply Hinj.
  - intros i. rewrite map_size_insert_None by done. intros Hi.
    destruct (decide (i = Z.of_nat (size m))) as [->|Hne].
    + exists k. apply lookup_insert_eq.
    + destruct (Hsurj i) as [k' Hk']; [lia|].
      exists k'. rewrite lookup_insert_ne; [done|]. congruence.
Qed.

Lemma indexed_empty `{Countable K} : indexed (∅ : gmap K Z).
Proof.
  split; [|split].
  - intros k i. by rewrite lookup_empty.
  - intros k1 k2 i. by rewrite lookup_empty.
  - intros i. rewrite map_size_empty. lia.
Qed.

(** *** [getStringMapIndex] *)

Lemma getStringMapIndex_lookup m s :
  (getStringMapIndex m s).2 !! s = Some (getStringMapIndex m s).1.
Proof.
  unfold getStringMapIndex. destruct (m !! s) eqn:Hs; cbn; [done|].
  apply lookup_insert_eq.
Qed.

Lemma getStringMapIndex_subseteq m s : m ⊆ (getStringMapIndex m s).2.
Proof.
  unfold getStringMapIndex. destruct (m !! s) eqn:Hs; cbn; [done|].
  by apply insert_subseteq.
Qed.

Lemma getStringMapIndex_ok m s :
  stringsOk m → stringsOk (getStringMapIndex m s).2.
Proof.
  intros (H0 & Hr & Hix). unfold getStringMapIndex.
  destruct (m !! s) eqn:Hs; cbn; [done|].
  pose proof (u32_bound (Z.of_nat (size m)) ltac:(lia)) as Hb.
  split; [|split].
  - rewrite lookup_insert_ne; [done|]. congruence.
  - by apply inRange_insert.
  - rewrite map_size_insert_None by done. intros Hsz.
    rewrite u32_small by lia. apply indexed_insert; [|done].
    apply Hix. lia.
Qed.

Lemma internAll_cons m s l :
  internAll m (s :: l) = internAll (getStringMapIndex m s).2 l.
Proof. done. Qed.

Lemma internAll_app m l1 l2 :
  internAll m (l1 ++ l2) = internAll (internAll m l1) l2.
Proof. apply foldl_app. Qed.

Lemma internAll_subseteq m l : m ⊆ internAll m l.
Proof.
  revert m. induction l as [|s l IH]; intros m; [done|].
  rewrite internAll_cons. etrans; [apply getStringMapIndex_subseteq|apply IH].
Qed.

Lemma internAll_ok m l : stringsOk m → stringsOk (internAll m l).
Proof.
  revert m. induction l as [|s l IH]; intros m Hm; [done|].
  rewrite internAll_cons. by apply IH, getStringMapIndex_ok.
Qed.

Lemma internAll_lookup m l s i :
  m !! s = Some i → internAll m l !! s = Some i.
Proof. intros Hs. eapply lookup_weaken; [done|apply internAll_subseteq]. Qed.

(** *** [createFunctionEntry] *)

Lemma createFunctionEntry_lookup m n f :
  (createFunctionEntry m n f).2 !! FuncInfo n f =
    Some (createFunctionEntry m n f).1.
Proof.
  unfold createFunctionEntry. destruct (m !! _) eqn:Hs; cbn; [done|].
  apply lookup_insert_eq.
Qed.

Lemma createFunctionEntry_subseteq m n f : m ⊆ (createFunctionEntry m n f).2.
Proof.
  unfold createFunctionEntry. destruct (m !! _) eqn:Hs; cbn; [done|].
  by apply insert_subseteq.
Qed.

Lemma createFunctionEntry_indexed m n f :
  indexed m → indexed (createFunctionEntry m n f).2.
Proof.
  intros Hm. unfold createFunctionEntry.
  destruct (m !! _) eqn:Hs; cbn; [done|]. by apply indexed_insert.
Qed.

Lemma createAll_cons m k l :
  createAll m (k :: l) =
    createAll (createFunctionEntry m (name k) (funcFileName k)).2 l.
Proof. done. Qed.

Lemma createAll_app m l1 l2 :
  createAll m (l1 ++ l2) = createAll (createAll m l1) l2.
Proof. apply foldl_app. Qed.

Lemma createAll_subseteq m l : m ⊆ createAll m l.
Proof.
  revert m. induction l as [|s l IH]; intros m; [done|].
  rewrite createAll_cons.
  etrans; [apply createFunctionEntry_subseteq|apply IH].
Qed.

Lemma createAll_indexed m l : indexed m → indexed (createAll m l).
Proof.
  revert m. induction l as [|s l IH]; intros m Hm; [done|].
  rewrite createAll_cons. by apply IH, createFunctionEntry_indexed.
Qed.

(** *** Encoders that grow *)

Lemma grows_refl e : grows e e.
Proof. split; [by exists []|split; [by exists []|done]]. Qed.

Lemma grows_trans e1 e2 e3 : grows e1 e2 → grows e2 e3 → grows e1 e3.
Proof.
  intros ([l1 H1] & [f1 F1] & I1) ([l2 H2] & [f2 F2] & I2).
  split; [|split].
  - exists (l1 ++ l2). by rewrite internAll_app, <- H1.
  - exists (f1 ++ f2). by rewrite createAll_app, <- F1.
  - congruence.
Qed.

Lemma grows_stringsOk e e' :
  grows e e' → stringsOk (stringMap e) → stringsOk (stringMap e').
Proof. intros ([l ->] & _). apply internAll_ok. Qed.

Lemma grows_indexed e e' :
  grows e e' → indexed (funcMap e) → indexed (funcMap e').
Proof. intros (_ & [l ->] & _). apply createAll_indexed. Qed.

Lemma grows_string_lookup e e' s i :
  grows e e' → stringMap e !! s = Some i → stringMap e' !! s = Some i.
Proof. intros ([l ->] & _). apply internAll_lookup. Qed.

Lemma grows_func_lookup e e' k i :
  grows e e' → funcMap e !! k = Some i → funcMap e' !! k = Some i.
Proof.
  intros (_ & [l ->] & _) Hk.
  eapply lookup_weaken; [done|apply createAll_subseteq].
Qed.

Lemma grows_frameIDs e e' :
  grows e e' → frameIDtoFunction e = ∅ → frameIDtoFunction e' = ∅.
Proof. intros (_ & _ & ->). done. Qed.

End tables.

(** ** The encoder *)

Section encoder.
Context `{External}.
Import Reporter.

Lemma intern_eq s e :
  intern s e =
    ((getStringMapIndex (stringMap e) s).1,
     set_stringMap e (getStringMapIndex (stringMap e) s).2).
Proof. unfold intern. by destruct (getStringMapIndex _ _). Qed.

Lemma internFunction_eq n f e :
  internFunction n f e =
    ((createFunctionEntry (funcMap e) n f).1,
     set_funcMap e (createFunctionEntry (funcMap e) n f).2).
Proof. unfold internFunction. by destruct (createFunctionEntry _ _ _). Qed.

Lemma grows_set_stringMap e s :
  grows e (set_stringMap e (getStringMapIndex (stringMap e) s).2).
Proof. split; [by exists [s]|split; [by exists []|done]]. Qed.

Lemma grows_set_funcMap e n f :
  grows e (set_funcMap e (createFunctionEntry (funcMap e) n f).2).
Proof. split; [by exists []|split; [by exists [FuncInfo n f]|done]]. Qed.

Lemma grows_addMapping e f i m : grows e (addMapping e f i m).
Proof. split; [by exists []|split; [by exists []|done]]. Qed.

Lemma grows_addLocation e loc : grows e (addLocation e loc).
Proof. split; [by exists []|split; [by exists []|done]]. Qed.

Lemma grows_addSample e s : grows e (addSample e s).
Proof. split; [by exists []|split; [by exists []|done]]. Qed.

Lemma grows_set_timestamps e s t : grows e (set_timestamps e s t).
Proof. split; [by exists []|split; [by exists []|done]]. Qed.

Lemma getDummyMappingIndex_spec f e :
  let e' := (getDummyMappingIndex f e).2 in
  grows e e' ∧ funcMap e' = funcMap e ∧
  profileLocation e' = profileLocation e ∧
  profileSample e' = profileSample e.
Proof.
  unfold getDummyMappingIndex.
  destruct (fileIDtoMapping e !! f); cbn; [by split; [apply grows_refl|]|].
  rewrite !intern_eq. cbn. split; [|done].
  eapply grows_trans; [apply grows_set_stringMap|].
  eapply grows_trans; [apply grows_set_stringMap|].
  apply grows_addMapping.
Qed.

Lemma nativeMapping_spec r f off e :
  let e' := (nativeMapping r f off e).2 in
  grows e e' ∧ funcMap e' = funcMap e ∧
  profileLocation e' = profileLocation e ∧
  profileSample e' = profileSample e ∧
  profileMapping e' = profileMapping e ∧
  fileIDtoMapping e' = fileIDtoMapping e.
Proof.
  unfold nativeMapping.
  repeat case_decide; rewrite !intern_eq; cbn; (split; [|done]);
    (eapply grows_trans; [apply grows_set_stringMap|]);
    apply grows_set_stringMap.
Qed.

Lemma interpretedFunction_spec r k f a e :
  let e' := (interpretedFunction r k f a e).2 in
  grows e e' ∧
  profileLocation e' = profileLocation e ∧
  profileSample e' = profileSample e.
Proof.
  unfold interpretedFunction.
  destruct (frames r !! f) as [v|]; [destruct (v !! a)|];
    rewrite internFunction_eq; cbn; (split; [|done]);
    apply grows_set_funcMap.
Qed.

Lemma encodeFrame_spec r trace i k e e' :
  encodeFrame r trace i k e = Some e' →
  grows e e' ∧ profileSample e' = profileSample e ∧
  ∃ loc, profileLocation e' = profileLocation e ++ [loc] ∧
    (k = KernelFrame → frameIDtoFunction e = ∅ →
     ∀ f a, files trace !! i = Some f → linenos trace !! i = Some a →
       ∃ l, Location_Line loc = [l] ∧
         funcMap e' !! FuncInfo (kernelSymbol r f a) "vmlinux" =
           Some (FunctionIndex l - 1)).
Proof.
  unfold encodeFrame. rewrite intern_eq.
  pose proof (grows_set_stringMap e (FrameType_String k)) as G1.
  revert G1. generalize (getStringMapIndex (stringMap e) (FrameType_String k)).
  intros p G1.
  destruct (linenos trace !! i) as [a|] eqn:Ha; cbn; [|done].
  destruct k as [| | |c].
  - destruct (files trace !! i) as [f|] eqn:Hf; cbn; [|done].
    destruct (fileIDtoMapping e !! f) as [idx|] eqn:Hm.
    + intros [= <-]. cbn. split; [done|]. split; [done|].
      eexists. split; [done|]. done.
    + destruct (nativeMapping r f a _) as [m e2] eqn:Hn.
      pose proof (nativeMapping_spec r f a (set_stringMap e p.2)) as Hs.
      rewrite Hn in Hs.
      cbn in Hs. destruct Hs as (G2 & _ & HL & HS & _).
      intros [= <-]. cbn. split; [by eapply grows_trans|].
      split; [done|]. rewrite HL. eexists. split; [done|]. done.
  - destruct (files trace !! i) as [f|] eqn:Hf; cbn; [|done].
    destruct (frameIDtoFunction e !! NewFrameID f a) as [tmp|] eqn:Hfid.
    + destruct (getDummyMappingIndex f _) as [d e3] eqn:Hd.
      pose proof (getDummyMappingIndex_spec f (set_stringMap e p.2)) as Hs.
      rewrite Hd in Hs. cbn in Hs. destruct Hs as (G2 & HF & HL & HS).
      intros [= <-]. cbn. split; [by eapply grows_trans|].
      split; [done|]. rewrite HL. eexists. split; [done|].
      intros _ Hempty. by rewrite Hempty, lookup_empty in Hfid.
    + rewrite internFunction_eq. cbn.
      fold (kernelSymbol r f a).
      destruct (getDummyMappingIndex f _) as [d e3] eqn:Hd.
      match type of Hd with
      | getDummyMappingIndex _ ?x = _ =>
          pose proof (getDummyMappingIndex_spec f x) as Hs;
          pose proof (grows_set_funcMap (set_stringMap e p.2)
                        (kernelSymbol r f a) "vmlinux") as G3
      end.
      rewrite Hd in Hs. cbn in Hs, G3. destruct Hs as (G2 & HF & HL & HS).
      intros [= <-]. cbn.
      split; [eapply grows_trans; [done|by eapply grows_trans]|].
      split; [done|]. rewrite HL. eexists. split; [done|].
      intros _ _ f' a' [= <-] [= <-]. eexists. split; [done|]. cbn.
      rewrite HF, createFunctionEntry_lookup. f_equal. lia.
  - intros [= <-]. cbn. split; [done|]. split; [done|].
    eexists. split; [done|]. done.
  - destruct (files trace !! i) as [f|] eqn:Hf; cbn; [|done].
    destruct (interpretedFunction r _ f a _) as [[ln fi] e2] eqn:Hi.
    match type of Hi with
    | interpretedFunction _ ?k _ _ ?x = _ =>
        pose proof (interpretedFunction_spec r k f a x) as Hs
    end.
    rewrite Hi in Hs. cbn in Hs. destruct Hs as (G2 & HL & HS).
    destruct (getDummyMappingIndex f e2) as [d e3] eqn:Hd.
    pose proof (getDummyMappingIndex_spec f e2) as Hs.
    rewrite Hd in Hs. cbn in Hs. destruct Hs as (G3 & HF3 & HL3 & HS3).
    intros [= <-]. cbn.
    split; [eapply grows_trans; [done|by eapply grows_trans]|].
    split; [congruence|]. rewrite HL3, HL. eexists. split; [done|]. done.
Qed.

(** The frame loop leaves the two timestamps alone. *)
Lemma getDummyMappingIndex_timestamps f e :
  startTS (getDummyMappingIndex f e).2 = startTS e ∧
  endTS (getDummyMappingIndex f e).2 = endTS e.
Proof.
  unfold getDummyMappingIndex.
  destruct (fileIDtoMapping e !! f); [done|]. by rewrite !intern_eq.
Qed.

Lemma encodeFrame_timestamps r trace i k e e' :
  encodeFrame r trace i k e = Some e' →
  startTS e' = startTS e ∧ endTS e' = endTS e.
Proof.
  unfold encodeFrame. rewrite intern_eq.
  generalize (getStringMapIndex (stringMap e) (FrameType_String k)).
  intros p.
  destruct (linenos trace !! i) as [a|]; cbn; [|done].
  destruct k as [| | |c].
  - destruct (files trace !! i) as [f|]; cbn; [|done].
    destruct (fileIDtoMapping e !! f); [by intros [= <-]|].
    unfold nativeMapping. repeat case_decide; rewrite !intern_eq; cbn;
      by intros [= <-].
  - destruct (files trace !! i) as [f|]; cbn; [|done].
    destruct (frameIDtoFunction e !! NewFrameID f a);
      rewrite ?internFunction_eq; cbn.
    + pose proof (getDummyMappingIndex_timestamps f (set_stringMap e p.2))
        as [Hs He].
      destruct (getDummyMappingIndex f _) as [d e3].
      by intros [= <-].
    + match goal with
      | |- context [getDummyMappingIndex f ?x] =>
          pose proof (getDummyMappingIndex_timestamps f x) as [Hs He]
      end.
      destruct (getDummyMappingIndex f _) as [d e3].
      by intros [= <-].
  - by intros [= <-].
  - destruct (files trace !! i) as [f|]; cbn; [|done].
    unfold interpretedFunction.
    destruct (frames r !! f) as [v|]; [destruct (v !! a)|];
      rewrite internFunction_eq; cbn;
      match goal with
      | |- context [getDummyMappingIndex f ?x] =>
          pose proof (getDummyMappingIndex_timestamps f x) as [Hs He];
          destruct (getDummyMappingIndex f x) as [d e3]
      end;
      by intros [= <-].
Qed.

Lemma encodeFrames_timestamps r trace kinds : ∀ i e e',
  encodeFrames r trace i kinds e = Some e' →
  startTS e' = startTS e ∧ endTS e' = endTS e.
Proof.
  induction kinds as [|k kinds IH]; intros i e e'; cbn.
  - by intros [= <-].
  - destruct (encodeFrame r trace i k e) as [e1|] eqn:H1; cbn; [|done].
    intros H2. destruct (encodeFrame_timestamps _ _ _ _ _ _ H1) as [<- <-].
    by eapply IH.
Qed.

Lemma kernelLines_weaken r fm fm' frs locs :
  fm ⊆ fm' → kernelLines r fm frs locs → kernelLines r fm' frs locs.
Proof.
  intros Hsub [Hlen Hk]. split; [done|]. intros j f a Hj.
  destruct (Hk j f a Hj) as (loc & l & ? & ? & ?).
  exists loc, l. split_and!; [done..|]. by eapply lookup_weaken.
Qed.

Lemma kernelLines_app r fm frs1 frs2 locs1 locs2 :
  kernelLines r fm frs1 locs1 → kernelLines r fm frs2 locs2 →
  kernelLines r fm (frs1 ++ frs2) (locs1 ++ locs2).
Proof.
  intros [Hl1 H1] [Hl2 H2]. split; [rewrite !length_app; lia|].
  intros j f a Hj. apply lookup_app_Some in Hj as [Hj|[Hge Hj]].
  - destruct (H1 j f a Hj) as (loc & l & ? & ? & ?).
    exists loc, l. split_and!; [|done..]. by apply lookup_app_l_Some.
  - destruct (H2 _ f a Hj) as (loc & l & Hloc & ? & ?).
    exists loc, l. split_and!; [|done..].
    rewrite lookup_app_r by lia. by rewrite Hl1.
Qed.

Lemma grows_funcMap_subseteq e e' : grows e e' → funcMap e ⊆ funcMap e'.
Proof. intros (_ & [l ->] & _). apply createAll_subseteq. Qed.

Lemma encodeFrames_spec r trace kinds : ∀ i e e',
  encodeFrames r trace i kinds e = Some e' →
  grows e e' ∧ profileSample e' = profileSample e ∧
  ∃ locs, profileLocation e' = profileLocation e ++ locs ∧
    (frameIDtoFunction e = ∅ →
     kernelLines r (funcMap e')
       (imap (λ j k, (k, files trace !! (i + j)%nat,
                      linenos trace !! (i + j)%nat)) kinds) locs).
Proof.
  induction kinds as [|k kinds IH]; intros i e e'; cbn.
  - intros [= <-]. split; [apply grows_refl|]. split; [done|].
    exists []. split; [by rewrite app_nil_r|]. intros _. split; [done|].
    intros j f a. by rewrite lookup_nil.
  - destruct (encodeFrame r trace i k e) as [e1|] eqn:H1; cbn; [|done].
    intros H2.
    destruct (encodeFrame_spec _ _ _ _ _ _ H1) as (G1 & S1 & loc & L1 & K1).
    destruct (IH _ _ _ H2) as (G2 & S2 & locs & L2 & K2).
    split; [by eapply grows_trans|]. split; [congruence|].
    exists (loc :: locs). split; [by rewrite L2, L1, <- app_assoc|].
    intros Hempty.
    specialize (K2 (grows_frameIDs _ _ G1 Hempty)).
    apply (kernelLines_app r _ [_] _ [_]).
    + split; [done|]. intros [|j] f a; cbn; [|done].
      rewrite Nat.add_0_r. intros [= -> Hf Ha].
      destruct (K1 eq_refl Hempty f a Hf Ha) as (l & Hl & Hfm).
      exists loc, l. split_and!; [done..|].
      by eapply grows_func_lookup.
    + erewrite imap_ext; [exact K2|].
      intros j k' _. cbn. by rewrite Nat.add_succ_r.
Qed.

Lemma addLabel_internAll key value labels m :
  ∃ l, (addLabel key value (labels, m)).2 = internAll m l.
Proof.
  unfold addLabel. destruct (decide (value = "")); [by exists []|].
  exists [key; value]. cbn.
  destruct (getStringMapIndex m key) as [i1 m1]. cbn.
  by destruct (getStringMapIndex m1 value) as [i2 m2].
Qed.

Lemma getTraceLabels_internAll m t :
  ∃ l, (getTraceLabels m t).2 = internAll m l.
Proof.
  unfold getTraceLabels.
  destruct (addLabel_internAll "comm" (comm t) [] m) as [l1 H1].
  destruct (addLabel "comm" _ _) as [ls1 m1]. cbn in H1.
  destruct (addLabel_internAll "podName" (podName t) ls1 m1) as [l2 H2].
  destruct (addLabel "podName" _ _) as [ls2 m2]. cbn in H2.
  destruct (addLabel_internAll "podNamespace" (podNamespace t) ls2 m2)
    as [l3 H3].
  destruct (addLabel "podNamespace" _ _) as [ls3 m3]. cbn in H3.
  destruct (addLabel_internAll "containerName" (containerName t) ls3 m3)
    as [l4 H4].
  destruct (addLabel "containerName" _ _) as [ls4 m4]. cbn in H4.
  destruct (addLabel_internAll "apmServiceName" (apmServiceName t) ls4 m4)
    as [l5 H5].
  exists (l1 ++ l2 ++ l3 ++ l4 ++ l5).
  rewrite !internAll_app. congruence.
Qed.

Lemma encodeSample_spec r kv e e' :
  encodeSample r kv e = Some e' →
  grows e e' ∧
  ∃ smp, profileSample e' = profileSample e ++ [smp] ∧
    emittedFor (stringMap e') kv smp ∧
  ∃ locs, profileLocation e' = profileLocation e ++ locs ∧
    (frameIDtoFunction e = ∅ →
     kernelLines r (funcMap e') (traceFrames (traces r !!! kv.1)) locs).
Proof.
  destruct kv as [h s]. unfold encodeSample. rewrite intern_eq.
  pose proof (grows_set_stringMap e (TraceHash_StringNoQuotes h)) as G1.
  pose proof (getStringMapIndex_lookup (stringMap e)
                (TraceHash_StringNoQuotes h)) as Hid.
  revert G1 Hid.
  generalize (getStringMapIndex (stringMap e) (TraceHash_StringNoQuotes h)).
  intros p G1 Hid.
  destruct (foldl trackTimestamp _ _) as [st en].
  destruct (encodeFrames r _ 0 _ _) as [e2|] eqn:H2; cbn; [|done].
  destruct (encodeFrames_spec _ _ _ _ _ _ H2) as (G2 & S2 & locs & L2 & K2).
  cbn in G2, S2, L2, K2.
  destruct (getTraceLabels_internAll (stringMap e2) (traces r !!! h))
    as [ll Hll].
  destruct (getTraceLabels _ _) as [labels m]. cbn in Hll.
  intros [= <-]. cbn.
  assert (G3 : grows e2 (set_stringMap e2 m)).
  { split; [by exists ll|split; [by exists []|done]]. }
  assert (G : grows e (set_stringMap e2 m)).
  { eapply grows_trans; [exact G1|].
    eapply grows_trans; [|exact G3].
    destruct G2 as (Gs & Gf & Gi). split; [done|]. split; done. }
  split; [exact G|].
  eexists. split; [by rewrite S2|]. split.
  { split; [done|]. split; [done|]. cbn.
    eapply (grows_string_lookup (set_stringMap e p.2) (set_stringMap e2 m));
      [|exact Hid].
    eapply grows_trans; [|exact G3].
    destruct G2 as (Gs & Gf & Gi). split; [done|]. split; done. }
  exists locs. split; [done|]. exact K2.
Qed.

(** The timestamps after a sample are the running pair after the
    timestamps of its counter. *)
Lemma encodeSample_timestamps r kv e e' :
  encodeSample r kv e = Some e' →
  (startTS e', endTS e') =
    foldl trackTimestamp (startTS e, endTS e) (timestamps kv.2).
Proof.
  destruct kv as [h s]. unfold encodeSample. rewrite intern_eq. cbn.
  destruct (foldl trackTimestamp _ _) as [st en].
  destruct (encodeFrames r _ 0 _ _) as [e2|] eqn:H2; cbn; [|done].
  destruct (encodeFrames_timestamps _ _ _ _ _ _ H2) as [Hs He].
  destruct (getTraceLabels _ _) as [labels m].
  intros [= <-]. cbn in *. congruence.
Qed.

Lemma encodeSamples_timestamps r ws : ∀ e e',
  encodeSamples r ws e = Some e' →
  (startTS e', endTS e') =
    foldl trackTimestamp (startTS e, endTS e) (ws ≫= λ kv, timestamps kv.2).
Proof.
  induction ws as [|kv ws IH]; intros e e'; cbn.
  - by intros [= <-].
  - destruct (encodeSample r kv e) as [e1|] eqn:H1; cbn; [|done].
    intros H2. rewrite foldl_app, <- (encodeSample_timestamps _ _ _ _ H1).
    by apply IH.
Qed.

Lemma encodeSamples_spec r ws : ∀ e e',
  encodeSamples r ws e = Some e' →
  grows e e' ∧
  ∃ smps, profileSample e' = profileSample e ++ smps ∧
    Forall2 (emittedFor (stringMap e')) ws smps ∧
  ∃ locs, profileLocation e' = profileLocation e ++ locs ∧
    (frameIDtoFunction e = ∅ →
     kernelLines r (funcMap e') (snapshotFrames r ws) locs).
Proof.
  induction ws as [|kv ws IH]; intros e e'; cbn.
  - intros [= <-]. split; [apply grows_refl|].
    exists []. split; [by rewrite app_nil_r|]. split; [constructor|].
    exists []. split; [by rewrite app_nil_r|]. intros _. split; [done|].
    intros j f a. by rewrite lookup_nil.
  - destruct (encodeSample r kv e) as [e1|] eqn:H1; cbn; [|done].
    intros H2.
    destruct (encodeSample_spec _ _ _ _ H1)
      as (G1 & smp & S1 & E1 & locs1 & L1 & K1).
    destruct (IH _ _ H2) as (G2 & smps & S2 & E2 & locs2 & L2 & K2).
    split; [by eapply grows_trans|].
    exists (smp :: smps). split; [by rewrite S2, S1, <- app_assoc|].
    split.
    { constructor; [|done]. destruct E1 as (? & ? & ?).
      split_and!; [done..|]. by eapply grows_string_lookup. }
    exists (locs1 ++ locs2). split; [by rewrite L2, L1, <- app_assoc|].
    intros Hempty. apply kernelLines_app.
    + eapply kernelLines_weaken; [|by apply K1].
      by apply grows_funcMap_subseteq.
    + apply K2. by eapply grows_frameIDs.
Qed.

End encoder.

(** ** Draining the samples cache *)

Section order.
Context `{RangeOrder}.

Lemma elem_of_rangeOver l `{Countable K} {V} (m : gmap K V) k v :
  (k, v) ∈ rangeOver l m ↔ m !! k = Some v.
Proof. rewrite rangeOver_perm. apply elem_of_map_to_list. Qed.

Lemma NoDup_rangeOver l `{Countable K} {V} (m : gmap K V) :
  NoDup (rangeOver l m).
Proof. rewrite rangeOver_perm. apply NoDup_map_to_list. Qed.

Lemma NoDup_fst_rangeOver l `{Countable K} {V} (m : gmap K V) :
  NoDup (rangeOver l m).*1.
Proof. rewrite rangeOver_perm. apply NoDup_fst_map_to_list. Qed.

End order.

Section drain.
Context `{RangeOrder}.
Import Reporter.

Lemma elem_of_Keys {V} l (m : gmap TraceHash V) k :
  k ∈ Keys l m ↔ is_Some (m !! k).
Proof.
  unfold Keys. rewrite list_elem_of_fmap. split.
  - intros ([k' v] & -> & Hin). apply elem_of_rangeOver in Hin. by eexists.
  - intros [v Hv]. exists (k, v). split; [done|].
    by apply elem_of_rangeOver.
Qed.

Lemma NoDup_Keys {V} l (m : gmap TraceHash V) : NoDup (Keys l m).
Proof. apply NoDup_fst_rangeOver. Qed.

Lemma drain_fold l : ∀ c cpy k,
  (foldl drainStep (c, cpy) l).1 !! k =
    (if decide (k ∈ l) then None else c !! k) ∧
  (foldl drainStep (c, cpy) l).2 !! k =
    (if decide (k ∈ l) then from_option Some (cpy !! k) (c !! k)
     else cpy !! k).
Proof.
  induction l as [|k0 l IH]; intros c cpy k; cbn [foldl].
  - rewrite !decide_False by apply not_elem_of_nil. done.
  - destruct (drainStep (c, cpy) k0) as [c1 cpy1] eqn:Hstep.
    destruct (IH c1 cpy1 k) as [-> ->].
    unfold drainStep in Hstep.
    destruct (decide (k = k0)) as [->|Hne].
    + rewrite !(decide_True (P := k0 ∈ k0 :: l)) by left.
      destruct (c !! k0) as [v|] eqn:Hc; injection Hstep as <- <-.
      * rewrite lookup_delete_eq, lookup_insert_eq. cbn.
        by destruct (decide (k0 ∈ l)).
      * rewrite Hc. by destruct (decide (k0 ∈ l)).
    + assert (Hc1 : c1 !! k = c !! k ∧ cpy1 !! k = cpy !! k).
      { destruct (c !! k0) as [v|] eqn:Hc; injection Hstep as <- <-;
          [|done].
        by rewrite lookup_delete_ne, lookup_insert_ne. }
      destruct Hc1 as [-> ->].
      destruct (decide (k ∈ l)).
      * by rewrite !decide_True by (by right).
      * by rewrite !decide_False by (rewrite elem_of_cons; by intros [?|?]).
Qed.

Lemma requeue_fold l : ∀ c cpy k,
  NoDup l → (∀ k, k ∈ l → is_Some (cpy !! k)) →
  (foldl requeueStep (c, cpy) l).1 !! k =
    (if decide (k ∈ l) then cpy !! k else c !! k) ∧
  (foldl requeueStep (c, cpy) l).2 !! k =
    (if decide (k ∈ l) then None else cpy !! k).
Proof.
  induction l as [|k0 l IH]; intros c cpy k Hnd Hin; cbn [foldl].
  - rewrite !decide_False by apply not_elem_of_nil. done.
  - apply NoDup_cons in Hnd as [Hk0 Hnd]. cbn [requeueStep].
    destruct (IH (<[k0 := cpy !!! k0]> c) (delete k0 cpy) k Hnd)
      as [-> ->].
    { intros k' Hk'. rewrite lookup_delete_ne by (by intros ->).
      apply Hin. by right. }
    destruct (decide (k = k0)) as [->|Hne].
    + rewrite !(decide_True (P := k0 ∈ k0 :: l)) by left.
      rewrite !(decide_False (P := k0 ∈ l)) by done.
      rewrite lookup_insert_eq, lookup_delete_eq.
      destruct (Hin k0) as [v Hv]; [by left|].
      by rewrite (lookup_total_correct _ _ _ Hv).
    + rewrite lookup_insert_ne, lookup_delete_ne by done.
      destruct (decide (k ∈ l)).
      * by rewrite !decide_True by (by right).
      * by rewrite !decide_False by (rewrite elem_of_cons; by intros [?|?]).
Qed.

(** The hand-back leaves in the cache the counters without trace
    information and in the working set those with it. *)
Lemma drainSamples_lookup r k :
  (drainSamples r).1 !! k =
    (if decide (traces r !! k = None) then samples r !! k else None) ∧
  (drainSamples r).2 !! k =
    (if decide (traces r !! k = None) then None else samples r !! k).
Proof.
  unfold drainSamples.
  destruct (foldl drainStep _ _) as [c1 cpy1] eqn:Hd.
  assert (Hc1 : c1 = ∅ ∧ cpy1 = samples r).
  { split; apply map_eq; intros k'.
    - pose proof (proj1 (drain_fold (Keys SampleKeys (samples r))
                           (samples r) ∅ k'))
        as Hk. rewrite Hd in Hk. cbn in Hk. rewrite Hk, lookup_empty.
      case_decide as Hin; [done|].
      rewrite elem_of_Keys in Hin. by apply eq_None_not_Some.
    - pose proof (proj2 (drain_fold (Keys SampleKeys (samples r))
                           (samples r) ∅ k'))
        as Hk. rewrite Hd in Hk. cbn in Hk. rewrite Hk, lookup_empty.
      case_decide as Hin.
      + by destruct (samples r !! k').
      + rewrite elem_of_Keys in Hin. symmetry. by apply eq_None_not_Some. }
  destruct Hc1 as [-> ->].
  set (l := filter _ _).
  destruct (requeue_fold l ∅ (samples r) k) as [-> ->].
  { apply NoDup_filter, NoDup_Keys. }
  { intros k' Hk'. apply list_elem_of_filter in Hk' as [_ Hk'].
    by apply elem_of_Keys in Hk'. }
  rewrite lookup_empty.
  destruct (decide (traces r !! k = None)) as [Ht|Ht].
  - destruct (decide (k ∈ l)) as [Hin|Hin]; [done|].
    assert (Hs : samples r !! k = None); [|by rewrite Hs].
    apply eq_None_not_Some. intros Hs.
    apply Hin. apply list_elem_of_filter. split; [done|].
    by apply elem_of_Keys.
  - destruct (decide (k ∈ l)) as [Hin|Hin]; [|done].
    apply list_elem_of_filter in Hin as [? _]. done.
Qed.

End drain.

(** ** Flattening the dedup maps into tables *)

Section flatten.
Context `{RangeOrder}.
Import Reporter.

Lemma indexed_NoDup_indices l `{Countable K} (m : gmap K Z) :
  indexed m → NoDup (rangeOver l m).*2.
Proof.
  intros (_ & Hinj & _). apply NoDup_fmap_2_strong; [|apply NoDup_rangeOver].
  intros [k1 i1] [k2 i2] H1 H2. cbn. intros ->.
  apply elem_of_rangeOver in H1, H2. f_equal. by eapply Hinj.
Qed.

Lemma inRange_rangeOver l `{Countable K} (m : gmap K Z) k i :
  inRange m → (k, i) ∈ rangeOver l m → 0 ≤ i < Z.of_nat (size m).
Proof. intros Hr Hin. apply elem_of_rangeOver in Hin. by eapply Hr. Qed.

(** The string loop does not panic when the indices are in range. *)
Lemma fillString_fold_Some l : ∀ tbl,
  (∀ s i, (s, i) ∈ l → 0 ≤ i < Z.of_nat (length tbl)) →
  ∃ tbl', foldl fillString (Some tbl) l = Some tbl' ∧
    length tbl' = length tbl.
Proof.
  induction l as [|[s0 i0] l IH]; intros tbl Hr; cbn [foldl].
  - by exists tbl.
  - cbn. rewrite decide_True by (apply (Hr s0); left).
    destruct (IH (<[Z.to_nat i0 := s0]> tbl)) as (tbl' & Hf & Hlen).
    { intros s i Hin. rewrite length_insert. apply (Hr s). by right. }
    exists tbl'. split; [done|]. by rewrite Hlen, length_insert.
Qed.

(** With distinct indices every entry lands in its slot and stays. *)
Lemma fillString_fold l : ∀ tbl tbl',
  NoDup l.*2 →
  foldl fillString (Some tbl) l = Some tbl' →
  (∀ s i, (s, i) ∈ l → tbl' !! Z.to_nat i = Some s) ∧
  (∀ j, (∀ s, (s, Z.of_nat j) ∉ l) → tbl' !! j = tbl !! j).
Proof.
  induction l as [|[s0 i0] l IH]; intros tbl tbl' Hnd; cbn [foldl].
  - intros [= <-]. split; [|done]. intros s i Hin. by apply elem_of_nil in Hin.
  - cbn. apply NoDup_cons in Hnd as [Hi0 Hnd].
    destruct (decide (0 ≤ i0 < _)) as [Hr|Hr]; cycle 1.
    { intros Hf. exfalso. clear -Hf.
      induction l as [|x l IHl]; [done|]. by apply IHl. }
    intros Hf. destruct (IH _ _ Hnd Hf) as [Hin Hout]. split.
    + intros s i Hsi. apply elem_of_cons in Hsi as [[= -> ->]|Hsi];
        [|by apply Hin].
      rewrite Hout.
      * apply list_lookup_insert_eq. lia.
      * intros s Hs. apply Hi0. rewrite Z2Nat.id in Hs by lia.
        apply list_elem_of_fmap. by exists (s, i0).
    + intros j Hj. rewrite Hout.
      * apply list_lookup_insert_ne. intros <-.
        apply (Hj s0). rewrite Z2Nat.id by lia. by left.
      * intros s Hs. apply (Hj s). by right.
Qed.

(** The string table is the inverse of an indexed string map. *)
Lemma fillStrings_spec m tbl :
  indexed m → fillStrings m = Some tbl →
  length tbl = size m ∧
  ∀ s i, m !! s = Some i ↔ 0 ≤ i ∧ tbl !! Z.to_nat i = Some s.
Proof.
  intros Hix Hf. unfold fillStrings in Hf.
  pose proof Hix as (Hr & Hinj & Hsurj).
  destruct (fillString_fold_Some (rangeOver StringMap m)
              (replicate (size m) ""))
    as (tbl0 & Hf0 & Hlen).
  { intros s i Hin. rewrite length_replicate.
    by eapply inRange_rangeOver. }
  rewrite Hf in Hf0. injection Hf0 as <-.
  rewrite length_replicate in Hlen. split; [done|].
  destruct (fillString_fold _ _ _ (indexed_NoDup_indices _ m Hix) Hf)
    as [Hin _].
  intros s i. split.
  - intros Hs. split; [by apply (Hr s)|].
    by apply Hin, elem_of_rangeOver.
  - intros [Hi Hs].
    destruct (Hsurj i) as [s' Hs'].
    { apply lookup_lt_Some in Hs. lia. }
    assert (Hs'' : tbl !! Z.to_nat i = Some s').
    { by apply Hin, elem_of_rangeOver. }
    congruence.
Qed.

Lemma fillFunction_fold_None l : foldl fillFunction None l = None.
Proof. induction l as [|x l IH]; [done|]. apply IH. Qed.

(** The function loop does not panic when the indices are in range; the
    strings it interns are the names of the functions. *)
Lemma fillFunction_fold_Some l : ∀ tbl sm,
  (∀ k i, (k, i) ∈ l → 0 ≤ i < Z.of_nat (length tbl)) →
  ∃ tbl',
    foldl fillFunction (Some (tbl, sm)) l =
      Some (tbl',
            internAll sm (l ≫= λ kv, [name kv.1; funcFileName kv.1])) ∧
    length tbl' = length tbl.
Proof.
  induction l as [|[k0 i0] l IH]; intros tbl sm Hr; cbn [foldl].
  - by exists tbl.
  - cbn.
    destruct (getStringMapIndex sm (name k0)) as [n sm1] eqn:H1.
    destruct (getStringMapIndex sm1 (funcFileName k0)) as [f sm2] eqn:H2.
    rewrite decide_True by (apply (Hr k0); left).
    destruct (IH (<[Z.to_nat i0 :=
                      Some {| Name := n; Function_Filename := f |}]> tbl) sm2)
      as (tbl' & Hf & Hlen).
    { intros k i Hin. rewrite length_insert. apply (Hr k). by right. }
    exists tbl'. split; [|by rewrite Hlen, length_insert].
    rewrite Hf. do 2 f_equal. unfold internAll. cbn.
    by rewrite ?H1; cbn; rewrite ?H2.
Qed.

Lemma fillFunction_fold l : ∀ tbl sm tbl' sm',
  NoDup l.*2 →
  foldl fillFunction (Some (tbl, sm)) l = Some (tbl', sm') →
  sm ⊆ sm' ∧
  (∀ k i, (k, i) ∈ l →
     ∃ f, tbl' !! Z.to_nat i = Some (Some f) ∧
       sm' !! name k = Some (Name f) ∧
       sm' !! funcFileName k = Some (Function_Filename f)) ∧
  (∀ j, (∀ k, (k, Z.of_nat j) ∉ l) → tbl' !! j = tbl !! j).
Proof.
  induction l as [|[k0 i0] l IH]; intros tbl sm tbl' sm' Hnd; cbn [foldl].
  - intros [= <- <-]. split; [done|]. split; [|done].
    intros k i Hin. by apply elem_of_nil in Hin.
  - cbn. apply NoDup_cons in Hnd as [Hi0 Hnd].
    pose proof (getStringMapIndex_lookup sm (name k0)) as L1.
    pose proof (getStringMapIndex_subseteq sm (name k0)) as S1.
    destruct (getStringMapIndex sm (name k0)) as [n sm1]. cbn in L1, S1.
    pose proof (getStringMapIndex_lookup sm1 (funcFileName k0)) as L2.
    pose proof (getStringMapIndex_subseteq sm1 (funcFileName k0)) as S2.
    destruct (getStringMapIndex sm1 (funcFileName k0)) as [f sm2].
    cbn in L2, S2.
    destruct (decide (0 ≤ i0 < _)) as [Hr|Hr]; cycle 1.
    { by rewrite fillFunction_fold_None. }
    intros Hf. destruct (IH _ _ _ _ Hnd Hf) as (S3 & Hin & Hout).
    split; [by etrans; [|etrans]|]. split.
    + intros k i Hki. apply elem_of_cons in Hki as [[= -> ->]|Hki];
        [|by apply Hin].
      eexists. split; [|split].
      * rewrite Hout.
        -- apply list_lookup_insert_eq. lia.
        -- intros k Hk. apply Hi0. rewrite Z2Nat.id in Hk by lia.
           apply list_elem_of_fmap. by exists (k, i0).
      * cbn. eapply lookup_weaken; [|exact S3].
        by eapply lookup_weaken.
      * cbn. by eapply lookup_weaken.
    + intros j Hj. rewrite Hout.
      * apply list_lookup_insert_ne. intros <-.
        apply (Hj k0). rewrite Z2Nat.id by lia. by left.
      * intros k Hk. apply (Hj k). by right.
Qed.

(** The function table holds, at the index of every function of an
    indexed function map, the indices of its two names; no slot is nil. *)
Lemma fillFunctions_spec e ft sm' :
  indexed (funcMap e) → fillFunctions e = Some (ft, sm') →
  length ft = size (funcMap e) ∧
  (∃ l, sm' = internAll (stringMap e) l) ∧
  (∀ k i, funcMap e !! k = Some i →
     ∃ f, ft !! Z.to_nat i = Some (Some f) ∧
       sm' !! name k = Some (Name f) ∧
       sm' !! funcFileName k = Some (Function_Filename f)) ∧
  (∀ j, (j < length ft)%nat → ∃ f, ft !! j = Some (Some f)).
Proof.
  intros Hix Hf. unfold fillFunctions in Hf.
  pose proof Hix as (Hr & Hinj & Hsurj).
  destruct (fillFunction_fold_Some (rangeOver FunctionMap (funcMap e))
              (replicate (size (funcMap e)) None) (stringMap e))
    as (ft0 & Hf0 & Hlen).
  { intros k i Hin. rewrite length_replicate.
    by eapply inRange_rangeOver. }
  rewrite Hf in Hf0. injection Hf0 as <- ->.
  rewrite length_replicate in Hlen. split; [done|].
  split; [by eexists|].
  destruct (fillFunction_fold _ _ _ _ _
              (indexed_NoDup_indices _ (funcMap e) Hix) Hf)
    as (_ & Hin & _).
  assert (Hk : ∀ k i, funcMap e !! k = Some i →
            ∃ f, ft !! Z.to_nat i = Some (Some f) ∧
              internAll (stringMap e)
                (rangeOver FunctionMap (funcMap e) ≫=
                   λ kv, [name kv.1; funcFileName kv.1]) !! name k =
                Some (Name f) ∧
              internAll (stringMap e)
                (rangeOver FunctionMap (funcMap e) ≫=
                   λ kv, [name kv.1; funcFileName kv.1]) !! funcFileName k =
                Some (Function_Filename f)).
  { intros k i Hki. by apply Hin, elem_of_rangeOver. }
  split; [exact Hk|].
  intros j Hj. destruct (Hsurj (Z.of_nat j)) as [k Hkj]; [lia|].
  destruct (Hk _ _ Hkj) as (f & Hft & _). rewrite Nat2Z.id in Hft.
  by exists f.
Qed.

End flatten.

(** ** Snapshots *)

Section snapshot.
Context `{External, RangeOrder}.
Import Reporter.

Lemma newEncoder_strings : stringsOk (stringMap newEncoder.2).
Proof.
  change (stringMap newEncoder.2) with
    (internAll (<["" := 0]> ∅) ["samples"; "count"; "cpu"; "nanoseconds"]).
  apply internAll_ok. split; [apply lookup_insert_eq|]. split.
  - apply inRange_insert; [by intros k i; rewrite lookup_empty|done|].
    rewrite map_size_empty. lia.
  - intros _.
    pose proof (indexed_insert (∅ : gmap string Z) "" indexed_empty
                  (lookup_empty _)) as Hi.
    by rewrite map_size_empty in Hi.
Qed.

Lemma fillStrings_length m tbl :
  inRange m → fillStrings m = Some tbl → length tbl = size m.
Proof.
  intros Hr Hf.
  destruct (fillString_fold_Some (rangeOver StringMap m)
              (replicate (size m) ""))
    as (tbl0 & Hf0 & Hlen).
  { intros s i Hin. rewrite length_replicate.
    by eapply inRange_rangeOver. }
  unfold fillStrings in Hf. rewrite Hf in Hf0. injection Hf0 as <-.
  by rewrite length_replicate in Hlen.
Qed.

(** What [getProfile] returns, in terms of the encoder it ran. *)
Lemma getProfile_inv r p s e r' :
  getProfile r = Some (p, s, e, r') →
  ∃ enc sm,
    encodeSnapshot r = Some enc ∧
    fillFunctions enc = Some (Profile_Function p, sm) ∧
    fillStrings sm = Some (StringTable p) ∧
    Profile_Sample p = profileSample enc ∧
    Profile_Location p = profileLocation enc ∧
    Profile_Mapping p = profileMapping enc ∧
    s = startTS enc ∧ e = endTS enc ∧
    r' = set_samples r (drainSamples r).1.
Proof.
  unfold getProfile.
  destruct samplingPeriod as [period|]; cbn; [|done].
  destruct (encodeSnapshot r) as [enc|]; cbn; [|done].
  unfold buildTables.
  destruct (fillFunctions enc) as [[ft sm]|] eqn:Hff; cbn; [|done].
  destruct (fillStrings sm) as [st|] eqn:Hfs; cbn; [|done].
  intros [= <- <- <- <-]. cbn. by exists enc, sm.
Qed.

(** The encoder of a snapshot, its dedup maps and the tables made of
    them. *)
Lemma getProfile_tables r p s e r' :
  getProfile r = Some (p, s, e, r') →
  ∃ enc sm,
    encodeSnapshot r = Some enc ∧
    fillFunctions enc = Some (Profile_Function p, sm) ∧
    fillStrings sm = Some (StringTable p) ∧
    stringMap enc ⊆ sm ∧ stringsOk sm ∧ indexed (funcMap enc) ∧
    length (StringTable p) = size sm ∧
    length (Profile_Function p) = size (funcMap enc) ∧
    (∀ j, (j < length (Profile_Function p))%nat →
       ∃ f, Profile_Function p !! j = Some (Some f)) ∧
    (∀ k i, funcMap enc !! k = Some i →
       ∃ f, Profile_Function p !! Z.to_nat i = Some (Some f) ∧
         sm !! name k = Some (Name f) ∧
         sm !! funcFileName k = Some (Function_Filename f)) ∧
    (Z.of_nat (length (StringTable p)) ≤ 2 ^ 32 →
     indexed sm ∧ ∀ str i, sm !! str = Some i ↔ resolves p i str).
Proof.
  intros Hg.
  destruct (getProfile_inv _ _ _ _ _ Hg)
    as (enc & sm & Henc & Hff & Hfs & _).
  exists enc, sm. split; [done|]. split; [done|]. split; [done|].
  unfold encodeSnapshot in Henc.
  destruct (encodeSamples_spec _ _ _ _ Henc) as (G & _).
  assert (Hfm : indexed (funcMap enc)).
  { eapply grows_indexed; [exact G|]. apply indexed_empty. }
  assert (Hsm0 : stringsOk (stringMap enc)).
  { eapply grows_stringsOk; [exact G|]. apply newEncoder_strings. }
  destruct (fillFunctions_spec _ _ _ Hfm Hff)
    as (Hlen & [l ->] & Hfk & Hocc).
  pose proof (internAll_ok _ l Hsm0) as Hsm.
  pose proof (fillStrings_length _ _ (proj1 (proj2 Hsm)) Hfs) as Hsl.
  split; [apply internAll_subseteq|]. split; [done|]. split; [done|].
  split; [done|]. split; [done|]. split; [done|]. split; [done|].
  intros Hb. rewrite Hsl in Hb.
  pose proof (proj2 (proj2 Hsm) Hb) as Hix. split; [done|].
  apply (fillStrings_spec _ _ Hix Hfs).
Qed.

(** The timestamps [getProfile] returns are the running pair of
    [trackTimestamp] after the timestamps of the working set, in encoding
    order. *)
Lemma getProfile_timestamps r p s e r' :
  getProfile r = Some (p, s, e, r') →
  (s, e) =
    foldl trackTimestamp (0, 0)
      (rangeOver WorkingSet (drainSamples r).2 ≫= λ kv, timestamps kv.2).
Proof.
  intros Hg.
  destruct (getProfile_inv _ _ _ _ _ Hg)
    as (enc & sm & Henc & _ & _ & _ & _ & _ & -> & -> & _).
  apply (encodeSamples_timestamps _ _ _ _ Henc).
Qed.

Lemma trackTimestamp_unset ts en : trackTimestamp (0, en) ts = (ts, en).
Proof. unfold trackTimestamp. by rewrite decide_True by (by right). Qed.

(** A snapshot of one counter with one timestamp: the start is that
    timestamp and the end stays 0. *)
Lemma getProfile_one_timestamp r p s e r' k c ts :
  getProfile r = Some (p, s, e, r') →
  rangeOver WorkingSet (drainSamples r).2 = [(k, c)] →
  timestamps c = [ts] →
  s = ts ∧ e = 0.
Proof.
  intros Hg Hws Hts. apply getProfile_timestamps in Hg.
  rewrite Hws in Hg. cbn [mbind list_bind app fst snd] in Hg.
  rewrite Hts in Hg. cbn [foldl app] in Hg.
  rewrite trackTimestamp_unset in Hg. by injection Hg.
Qed.

(** *** [getProfile] returns *)

Lemma encodeFrame_Some r trace i k e :
  is_Some (files trace !! i) → is_Some (linenos trace !! i) →
  is_Some (encodeFrame r trace i k e).
Proof.
  intros [f Hf] [a Ha]. unfold encodeFrame.
  destruct (intern _ e) as [ti e1]. rewrite Ha, Hf. cbn.
  destruct k.
  - by destruct (fileIDtoMapping e1 !! f);
      [|destruct (nativeMapping r f a e1)].
  - destruct (frameIDtoFunction e1 !! NewFrameID f a);
      [|destruct (internFunction _ _ e1)];
      by destruct (getDummyMappingIndex f _).
  - done.
  - destruct (interpretedFunction r _ f a e1) as [[? ?] ?].
    by destruct (getDummyMappingIndex f _).
Qed.

Lemma encodeFrames_Some r trace kinds : ∀ i e,
  (i + length kinds ≤ length (files trace))%nat →
  (i + length kinds ≤ length (linenos trace))%nat →
  is_Some (encodeFrames r trace i kinds e).
Proof.
  induction kinds as [|k kinds IH]; intros i e Hf Hl; cbn in *; [done|].
  destruct (encodeFrame_Some r trace i k e) as [e1 ->].
  { apply lookup_lt_is_Some. lia. }
  { apply lookup_lt_is_Some. lia. }
  cbn. apply IH; lia.
Qed.

Lemma encodeSample_Some r kv e :
  wellFormed (traces r !!! kv.1) → is_Some (encodeSample r kv e).
Proof.
  destruct kv as [h s]. intros [Hf Hl]. unfold encodeSample. cbn in *.
  destruct (intern _ e) as [si e1].
  destruct (foldl trackTimestamp _ _) as [st en].
  destruct (encodeFrames_Some r (traces r !!! h) (frameTypes (traces r !!! h))
              0 (set_timestamps e1 st en) Hf Hl) as [e2 ->].
  cbn. by destruct (getTraceLabels _ _).
Qed.

Lemma encodeSamples_Some r ws : ∀ e,
  Forall (λ kv, wellFormed (traces r !!! kv.1)) ws →
  is_Some (encodeSamples r ws e).
Proof.
  induction ws as [|kv ws IH]; intros e Hws; cbn; [done|].
  apply Forall_cons in Hws as [Hkv Hws].
  destruct (encodeSample_Some r kv e Hkv) as [e1 ->]. cbn. by apply IH.
Qed.

Lemma buildTables_Some e :
  indexed (funcMap e) → stringsOk (stringMap e) → is_Some (buildTables e).
Proof.
  intros Hix Hok. unfold buildTables, fillFunctions.
  destruct (fillFunction_fold_Some (rangeOver FunctionMap (funcMap e))
              (replicate (size (funcMap e)) None) (stringMap e))
    as (ft & -> & _).
  { intros k i Hin. rewrite length_replicate.
    eapply inRange_rangeOver; [apply Hix|done]. }
  cbn. set (sm := internAll _ _).
  destruct (fillString_fold_Some (rangeOver StringMap sm)
              (replicate (size sm) "")) as (st & Hst & _).
  { intros str i Hin. rewrite length_replicate.
    eapply inRange_rangeOver; [|done].
    exact (proj1 (proj2 (internAll_ok _ _ Hok))). }
  unfold fillStrings. by rewrite Hst.
Qed.

(** [getProfile] returns (does not panic) when the sampling frequency is
    not zero and the cached traces are well formed. *)
Lemma getProfile_returns r :
  SamplesPerSecond ≠ 0 →
  (∀ k t, traces r !! k = Some t → wellFormed t) →
  is_Some (getProfile r).
Proof.
  intros Hsps Hwf. unfold getProfile, samplingPeriod.
  rewrite decide_False by done. cbn.
  destruct (encodeSamples_Some r (rangeOver WorkingSet (drainSamples r).2)
              newEncoder.2) as [enc Henc].
  { apply Forall_forall. intros [k v] Hin. cbn.
    apply elem_of_rangeOver in Hin.
    rewrite (proj2 (drainSamples_lookup r k)) in Hin.
    destruct (decide (traces r !! k = None)) as [|Hk]; [done|].
    destruct (traces r !! k) as [t|] eqn:Ht; [|done].
    rewrite (lookup_total_correct _ _ _ Ht). by eapply Hwf. }
  unfold encodeSnapshot. rewrite Henc. cbn.
  destruct (encodeSamples_spec _ _ _ _ Henc) as (G & _).
  destruct (buildTables_Some enc) as [[ft st] ->]; [..|done].
  - eapply grows_indexed; [exact G|apply indexed_empty].
  - eapply grows_stringsOk; [exact G|apply newEncoder_strings].
Qed.


(** C6: the locations of a snapshot are its frames in encoding order, and
    two kernel frames with the same file and address (the same rebuilt
    FrameID) have lines with the same function index, which is 1-based;
    while the string table fits the index type, the function-table entry
    below that index names the frames' symbol and the kernel image. *)
Theorem kernel_frames_share_function (r : OTLPReporter) (p : Profile)
    (s e : Z) (r' : OTLPReporter) (i j : nat) (f : FileID)
    (a : AddressOrLineno) :
  getProfile r = Some (p, s, e, r') →
  let frs := snapshotFrames r (rangeOver WorkingSet (drainSamples r).2) in
  frs !! i = Some (KernelFrame, Some f, Some a) →
  frs !! j = Some (KernelFrame, Some f, Some a) →
  length (Profile_Location p) = length frs ∧
  ∃ loci locj li lj,
    Profile_Location p !! i = Some loci ∧ Location_Line loci = [li] ∧
    Profile_Location p !! j = Some locj ∧ Location_Line locj = [lj] ∧
    FunctionIndex li = FunctionIndex lj ∧ 1 ≤ FunctionIndex li ∧
    (Z.of_nat (length (StringTable p)) ≤ 2 ^ 32 →
     ∃ fn, Profile_Function p !! Z.to_nat (FunctionIndex li - 1) =
             Some (Some fn) ∧
       resolves p (Name fn) (kernelSymbol r f a) ∧
       resolves p (Function_Filename fn) "vmlinux").
Proof.
  intros Hg frs Hi Hj.
  destruct (getProfile_inv _ _ _ _ _ Hg)
    as (enc0 & sm0 & Henc0 & _ & _ & _ & HL & _).
  destruct (getProfile_tables _ _ _ _ _ Hg)
    as (enc & sm & Henc & _ & _ & _ & _ & Hix & _ & _ & _ & Hfk & Hres).
  rewrite Henc in Henc0. injection Henc0 as <-.
  unfold encodeSnapshot in Henc.
  destruct (encodeSamples_spec _ _ _ _ Henc)
    as (_ & _ & _ & _ & locs & HL' & HK).
  cbn in HL'. rewrite HL, HL'.
  destruct (HK eq_refl) as [Hlen HKl]. split; [done|].
  destruct (HKl _ _ _ Hi) as (loci & li & Hloci & Hli & Hfi).
  destruct (HKl _ _ _ Hj) as (locj & lj & Hlocj & Hlj & Hfj).
  exists loci, locj, li, lj.
  split; [done|]. split; [done|]. split; [done|]. split; [done|].
  split; [rewrite Hfi in Hfj; injection Hfj; lia|].
  split; [apply (proj1 Hix) in Hfi; lia|].
  intros Hb. destruct (Hfk _ _ Hfi) as (fn & Hfn & Hn & Hf).
  exists fn. split; [done|]. cbn in Hn, Hf.
  split; by apply (proj2 (Hres Hb)).
Qed.


(** C9: when [getProfile] returns a profile without samples,
    [reportOTLPProfile] returns nil and hands nothing to [Export]. *)
Theorem reportOTLPProfile_no_samples (r : OTLPReporter) (p : Profile)
    (s e : Z) (r' : OTLPReporter) (reportInterval : Z)
    (export : ExportProfilesServiceRequest → option string) :
  getProfile r = Some (p, s, e, r') →
  Profile_Sample p = [] →
  reportOTLPProfile r reportInterval export =
    Some {| exported := []; reportError := None; reporterAfter := r' |}.
Proof.
  intros Hg Hs. unfold reportOTLPProfile. rewrite Hg. cbn.
  by rewrite Hs.
Qed.

(** C10: in "linker" mode, the first native frame of a FileID that the
    executables cache does not know appends a mapping whose file name is
    the index of "UNKNOWN" and whose build ID is the index of the empty
    string, index 0, with the linker kind; while the string map fits the
    index type the two indices differ. *)
Theorem native_mapping_of_unknown_executable (r : OTLPReporter)
    (trace : traceInfo) (i : nat) (e : encoder) (f : FileID)
    (a : AddressOrLineno) :
  otlpBuildIDMode r = "linker" →
  executables r !! f = None →
  files trace !! i = Some f →
  linenos trace !! i = Some a →
  fileIDtoMapping e !! f = None →
  stringsOk (stringMap e) →
  ∃ e' m,
    encodeFrame r trace i NativeFrame e = Some e' ∧
    profileMapping e' = profileMapping e ++ [m] ∧
    fileIDtoMapping e' !! f = Some (Z.of_nat (size (fileIDtoMapping e))) ∧
    stringMap e' !! "UNKNOWN" = Some (Filename m) ∧
    stringMap e' !! "" = Some (BuildId m) ∧
    BuildId m = 0 ∧
    Mapping_BuildIdKind m = BUILD_ID_LINKER ∧
    FileOffset m = a ∧
    (Z.of_nat (size (stringMap e')) ≤ 2 ^ 32 → Filename m ≠ BuildId m).
Proof.
  intros Hmode Hexe Hf Ha Hmap Hok.
  unfold encodeFrame. rewrite intern_eq, Ha, Hf. cbn.
  rewrite Hmap. unfold nativeMapping. rewrite Hexe, Hmode.
  rewrite (decide_True (P := "linker" = "linker")) by done.
  rewrite (decide_False (P := "linker" = "hash")) by done.
  rewrite !intern_eq. cbn.
  set (m1 := (getStringMapIndex (stringMap e) _).2).
  set (m2 := (getStringMapIndex m1 "UNKNOWN").2).
  assert (Hok2 : stringsOk m2).
  { by apply getStringMapIndex_ok, getStringMapIndex_ok. }
  assert (Hz : (getStringMapIndex m2 "").1 = 0 ∧
               (getStringMapIndex m2 "").2 = m2).
  { unfold getStringMapIndex. by rewrite (proj1 Hok2). }
  destruct Hz as [Hz Hz'].
  eexists _, _. split; [reflexivity|]. cbn.
  rewrite Hz, Hz'.
  split; [done|]. split; [apply lookup_insert_eq|].
  split; [apply getStringMapIndex_lookup|].
  split; [apply Hok2|]. split; [done|]. split; [done|]. split; [done|].
  intros Hb Heq.
  destruct (proj2 (proj2 Hok2) Hb) as (_ & Hinj & _).
  pose proof (Hinj "UNKNOWN" "" 0) as Hne.
  rewrite <- Heq in Hne at 1.
  specialize (Hne (getStringMapIndex_lookup m1 "UNKNOWN") (proj1 Hok2)).
  discriminate.
Qed.

End snapshot.

(** ** The properties on concrete reporters *)

Section examples.
Import Reporter.
#[local] Existing Instances demoExternal demoOrder.

(** C1, on the code: one trace counted once at second 1000.  [getProfile]
    emits its sample with that one timestamp and returns 1000 as the start
    but 0 as the end, and the profile's duration is negative.  The same
    happens when the timestamps of a counter only decrease. *)
Theorem getProfile_end_timestamp_unset :
  map_to_list (samples oneSample) =
    [(7%N, {| timestamps := [1000]; count := 3 |})] ∧
  (∃ p r',
     getProfile oneSample = Some (p, 1000, 0, r') ∧
     Timestamps <$> Profile_Sample p = [[1000000]] ∧
     DurationNanos p = -1000000000000) ∧
  foldl trackTimestamp (0, 0) [1005; 1000] = (1000, 0).
Proof.
  split; [vm_compute; reflexivity|]. split; [|reflexivity].
  eexists _, _. split; [vm_compute; reflexivity|]. split; reflexivity.
Qed.



Lemma kernel_frames_share_function_witness :
  ∃ p s e r',
    getProfile oneSample = Some (p, s, e, r') ∧
    ∃ loci locj li lj,
      Profile_Location p !! 1%nat = Some loci ∧ Location_Line loci = [li] ∧
      Profile_Location p !! 2%nat = Some locj ∧ Location_Line locj = [lj] ∧
      FunctionIndex li = FunctionIndex lj.
Proof.
  eexists _, _, _, _. split; [vm_compute; reflexivity|].
  destruct (@kernel_frames_share_function demoExternal demoOrder oneSample _ _ _ _
              1%nat 2%nat 2%N 10
              ltac:(vm_compute; reflexivity) ltac:(vm_compute; reflexivity)
              ltac:(vm_compute; reflexivity))
    as (_ & loci & locj & li & lj & H1 & H2 & H3 & H4 & H5 & _).
  by exists loci, locj, li, lj.
Defined.

Lemma reportOTLPProfile_no_samples_witness :
  ∃ r',
    reportOTLPProfile orphanCounter 5000000000
      (λ _, Some "unavailable") =
      Some {| exported := []; reportError := None; reporterAfter := r' |} ∧
    samples r' !! 9%N = Some {| timestamps := [1001]; count := 2 |}.
Proof.
  eexists. split.
  - apply (@reportOTLPProfile_no_samples demoExternal demoOrder orphanCounter _ _ _ _
             5000000000 (λ _, Some "unavailable")
             ltac:(vm_compute; reflexivity)).
    reflexivity.
  - vm_compute. reflexivity.
Defined.

Lemma native_mapping_of_unknown_executable_witness :
  ∃ e' m,
    encodeFrame (emptyReporter "linker") oneTraceInfo 0
      NativeFrame newEncoder.2 = Some e' ∧
    profileMapping e' = [m] ∧
    stringMap e' !! "UNKNOWN" = Some (Filename m) ∧
    stringMap e' !! "" = Some (BuildId m) ∧
    BuildId m = 0.
Proof.
  destruct (@native_mapping_of_unknown_executable demoExternal
              (emptyReporter "linker") oneTraceInfo 0 newEncoder.2 1%N 4096
              eq_refl eq_refl eq_refl eq_refl eq_refl newEncoder_strings)
    as (e' & m & He & Hm & _ & Hu & Hb & Hz & _).
  by exists e', m.
Defined.

(** The same in a whole snapshot: the native frame of [oneSample] belongs
    to FileID 1, which the executables cache does not know; the first
    mapping of the profile names "UNKNOWN" as its file and the empty string
    as its build ID. *)
Example getProfile_unknown_executable :
  ∃ p s e r' m,
    getProfile oneSample = Some (p, s, e, r') ∧
    Profile_Mapping p !! 0%nat = Some m ∧
    resolves p (Filename m) "UNKNOWN" ∧
    resolves p (BuildId m) "" ∧
    Mapping_BuildIdKind m = BUILD_ID_LINKER.
Proof.
  eexists _, _, _, _, _. split; [vm_compute; reflexivity|].
  split; [reflexivity|]. repeat split; discriminate.
Qed.

End examples.

(** ** More on the symbol uploader *)

Section uploads.
Context `{External}.
Import Symuploader.

(** [Upload] starts an attempt exactly when the build ID is not empty, the
    retry cache holds no live "do not retry" for the FileID and the
    singleflight cache holds no live entry for it; it then marks the FileID
    in flight and changes nothing else.  Otherwise it changes nothing. *)
Theorem Upload_starts_iff (now : Z) (u : ParcaSymbolUploader)
    (fileID : FileID) (path buildID : string) :
  let blocked :=
    buildID = "" ∨ Get now (retry u) fileID = Some false ∨
    is_Some (Get now (singleflight u) fileID) in
  (blocked → Upload now u fileID path buildID = (u, None)) ∧
  (¬ blocked →
   Upload now u fileID path buildID =
     (set_singleflight u (Add (singleflight u) fileID true),
      Some {| attemptFileID := fileID; attemptPath := path;
              attemptBuildID := buildID |})).
Proof.
  intros blocked. unfold blocked, Upload.
  destruct (decide (buildID = "")) as [Hb|Hb].
  { split; [done|]. intros Hn. exfalso. apply Hn. by left. }
  destruct (Get now (retry u) fileID) as [[|]|] eqn:Hr; cbn;
    destruct (Get now (singleflight u) fileID) as [s|] eqn:Hs; cbn;
    (split; [try done|intros Hn; try done; exfalso; apply Hn]);
    try (by right; right; eexists); try (by right; left).
  all: intros [?|[?|[? ?]]]; done.
Qed.

(** Singleflight: once [Upload] has started an attempt for a FileID, every
    further [Upload] for it returns without starting another, whatever the
    path, the build ID and the time. *)
Theorem Upload_in_flight (now : Z) (u u1 : ParcaSymbolUploader)
    (fileID : FileID) (path buildID : string) (a : attempt) :
  Upload now u fileID path buildID = (u1, Some a) →
  ∀ now' path' buildID',
    Upload now' u1 fileID path' buildID' = (u1, None).
Proof.
  intros Hu now' path' buildID'.
  assert (Hu1 : u1 = set_singleflight u (Add (singleflight u) fileID true)).
  { unfold Upload in Hu. repeat case_match; by simplify_eq. }
  subst u1. eapply Upload_entry_found; [apply lookup_insert_eq|done].
Qed.

Lemma quot_100_is_2 code : code `quot` 100 = 2 ↔ 200 ≤ code ≤ 299.
Proof.
  pose proof (Z.quot_rem' code 100) as Hqr.
  destruct (decide (0 ≤ code)) as [Hc|Hc].
  - pose proof (Z.rem_bound_pos code 100 Hc ltac:(lia)). lia.
  - pose proof (Z.rem_bound_pos_neg code 100 ltac:(lia) ltac:(lia)). lia.
Qed.

(** [uploadViaSignedURL] returns nil exactly when a status code came back
    and it is one of 200..299; a request that could not be created is not
    sent, every other request is sent once. *)
Theorem uploadViaSignedURL_ok_iff (w : world) (url : string) (size : Z) :
  ((uploadViaSignedURL w url size).1 = None ↔
   ∃ code, put w url size = Status code ∧ 200 ≤ code ≤ 299) ∧
  (uploadViaSignedURL w url size).2 =
    match put w url size with
    | BadRequest => []
    | _ => [CallPut url size]
    end.
Proof.
  unfold uploadViaSignedURL.
  destruct (put w url size) as [| |code] eqn:Hp.
  - split; [|done]. split; [done|]. by intros (c & ? & _).
  - split; [|done]. split; [done|]. by intros (c & ? & _).
  - pose proof (quot_100_is_2 code) as Hq.
    case_decide as Hd; cbn; (split; [|done]).
    + split; [done|]. intros (c & [= <-] & Hc). exfalso. apply Hd.
      by apply Hq.
    + split; [|done]. intros _. exists code. split; [done|].
      apply Hq. destruct (decide (code `quot` 100 = 2)); [done|].
      by destruct Hd.
Qed.

(** Case analysis over the exits of an attempt. *)
Ltac attempt_cases H :=
  unfold attemptUpload, attemptUploadBody, materialize, uploadViaSignedURL
    in H;
  repeat (case_match; simplify_eq/=); simplify_eq/=.

(** The remote calls of an attempt are an initial part of the protocol
    authorize, initiate, transfer, finish, and never empty; the store is
    asked to initiate only after it allowed the upload, and told that the
    upload is finished only after the PUT came back with a status in
    200..299. *)
Theorem attemptUpload_protocol (now : Z) (w : world)
    (u : ParcaSymbolUploader) (fileID : FileID) (path buildID : string)
    (o : outcome) :
  attemptUpload now w u fileID path buildID = Some o →
  ∃ size url id,
    calls o `prefix_of`
      [CallShouldInitiateUpload buildID;
       CallInitiateUpload buildID (FileID_StringNoQuotes fileID) size;
       CallPut url size;
       CallMarkUploadFinished buildID id] ∧
    calls o ≠ [] ∧
    ((2 ≤ length (calls o))%nat →
     ∃ resp, shouldInitiateUpload w buildID = Ok resp ∧
       ShouldInitiateUpload resp = true) ∧
    ((length (calls o) = 4)%nat →
     ∃ code, put w url size = Status code ∧ 200 ≤ code ≤ 299).
Proof.
  intros Ho.
  unfold attemptUpload, attemptUploadBody in Ho.
  destruct (shouldInitiateUpload w buildID) as [resp|err] eqn:Hs; cycle 1.
  { simplify_eq/=. exists 0, "", "". split; [by eexists|].
    split; [done|]. split; intros; lia. }
  destruct (ShouldInitiateUpload resp) eqn:Hallow; cycle 1.
  { cbn in Ho. exists 0, "", "". case_decide; simplify_eq/=;
      (split; [by eexists|]; split; [done|]; split; intros; lia). }
  cbn in Ho.
  destruct (materialize now w u fileID path) as [err u'|size|]; cycle 2.
  { done. }
  { simplify_eq/=. exists 0, "", "". split; [by eexists|].
    split; [done|]. split; intros; lia. }
  destruct (initiateUpload w buildID _ size) as [[ins|]|err];
    [destruct (UploadStrategy_ ins) eqn:Hstr|..].
  1,2,4,5: simplify_eq/=; exists size, "", ""; (split; [by eexists|]);
    (split; [done|]); split; [intros _; by exists resp|intros; lia].
  unfold uploadViaSignedURL in *.
  destruct (put w (SignedUrl ins) size) as [| |code] eqn:Hc; cbn in *.
  - simplify_eq/=. exists size, (SignedUrl ins), "".
    split; [by eexists|]. split; [done|].
    split; [intros _; by exists resp|intros; lia].
  - simplify_eq/=. exists size, (SignedUrl ins), "".
    split; [by eexists|]. split; [done|].
    split; [intros _; by exists resp|intros; lia].
  - destruct (decide (code `quot` 100 ≠ 2)); cbn in *.
    + simplify_eq/=. exists size, (SignedUrl ins), "".
      split; [by eexists|]. split; [done|].
      split; [intros _; by exists resp|intros; lia].
    + assert (Hcode : 200 ≤ code ≤ 299).
      { apply quot_100_is_2.
        by destruct (decide (code `quot` 100 = 2)). }
      exists size, (SignedUrl ins), (UploadId ins).
      destruct (markUploadFinished w buildID (UploadId ins));
        simplify_eq/=; (split; [by eexists|]); (split; [done|]);
        (split; [intros _; by exists resp|]); intros _; by exists code.
Qed.

(** An attempt touches one FileID: it leaves the in-flight entry of its
    FileID at [false] and every other entry of both caches alone, and what
    it writes to the retry cache, if anything, is a "do not retry" for its
    FileID.  An attempt that returns an error writes no retry state. *)
Theorem attemptUpload_touches_one_file (now : Z) (w : world)
    (u : ParcaSymbolUploader) (fileID : FileID) (path buildID : string)
    (o : outcome) :
  attemptUpload now w u fileID path buildID = Some o →
  singleflight (uploader o) = Add (singleflight u) fileID false ∧
  keepTextSection (uploader o) = keepTextSection u ∧
  (retry (uploader o) = retry u ∨
   ∃ e, retry (uploader o) = <[fileID := e]> (retry u) ∧ value e = false) ∧
  (is_Some (returned o) → retry (uploader o) = retry u).
Proof.
  intros Ho. attempt_cases Ho;
    (split; [done|]); (split; [done|]);
    (split; [first [by left | right; by eexists]|]);
    try done; by intros [? [=]].
Qed.

(** The store is never asked to initiate an upload of an empty file. *)
Theorem attemptUpload_never_empty (now : Z) (w : world)
    (u : ParcaSymbolUploader) (fileID : FileID) (path buildID : string)
    (o : outcome) (b h : string) (size : Z) :
  attemptUpload now w u fileID path buildID = Some o →
  CallInitiateUpload b h size ∈ calls o →
  size ≠ 0.
Proof.
  intros Ho Hin. attempt_cases Ho;
    repeat (apply elem_of_cons in Hin as [Hin|Hin]; simplify_eq/=);
    try (by apply elem_of_nil in Hin); done.
Qed.

(** An attempt panics in exactly one situation: the upload is allowed, the
    debug information is to be extracted, no extracted file is cached, and
    creating one fails. *)
Theorem attemptUpload_panics_iff (now : Z) (w : world)
    (u : ParcaSymbolUploader) (fileID : FileID) (path buildID : string) :
  attemptUpload now w u fileID path buildID = None ↔
  (∃ resp, shouldInitiateUpload w buildID = Ok resp ∧
     ShouldInitiateUpload resp = true) ∧
  keepTextSection u = false ∧
  statCachedFile w = Some NotExist ∧
  is_Some (createCached w).
Proof.
  split.
  - intros Ho. attempt_cases Ho. split.
    + eexists. split; [done|]. by apply negb_false_iff.
    + by split_and!.
  - intros ((resp & Hr & Ha) & Hk & Hc & [e He]).
    unfold attemptUpload, attemptUploadBody, materialize.
    by rewrite Hr, Ha, Hk, Hc, He.
Qed.

(** A transfer that succeeds: after the store allowed the upload and
    handed out a signed URL for a payload, a PUT answered with a status in
    200..299 and an acknowledged finish make the attempt return nil after
    exactly the four calls, in order, with a "do not retry" that does not
    expire. *)
Theorem attemptUpload_success (now : Z) (w : world)
    (u : ParcaSymbolUploader) (fileID : FileID) (path buildID : string)
    (resp : ShouldInitiateUploadResponse) (size code : Z)
    (ins : UploadInstructions) :
  shouldInitiateUpload w buildID = Ok resp →
  ShouldInitiateUpload resp = true →
  materialize now w u fileID path = Payload size →
  initiateUpload w buildID (FileID_StringNoQuotes fileID) size =
    Ok (Some ins) →
  UploadStrategy_ ins = UPLOAD_STRATEGY_SIGNED_URL →
  put w (SignedUrl ins) size = Status code →
  200 ≤ code ≤ 299 →
  markUploadFinished w buildID (UploadId ins) = Ok () →
  ∃ o, attemptUpload now w u fileID path buildID = Some o ∧
    returned o = None ∧
    calls o =
      [CallShouldInitiateUpload buildID;
       CallInitiateUpload buildID (FileID_StringNoQuotes fileID) size;
       CallPut (SignedUrl ins) size;
       CallMarkUploadFinished buildID (UploadId ins)] ∧
    (∀ t, Get t (retry (uploader o)) fileID = Some false) ∧
    (∀ t, Get t (singleflight (uploader o)) fileID = Some false).
Proof.
  intros Hr Ha Hm Hi Hs Hp Hc Hf.
  unfold attemptUpload, attemptUploadBody. rewrite Hr, Ha, Hm, Hi, Hs. cbn.
  unfold uploadViaSignedURL. rewrite Hp.
  rewrite decide_False by (intros Hq; apply Hq; by apply quot_100_is_2).
  cbn. rewrite Hf. eexists. split; [done|]. cbn. split; [done|]. split; [done|].
  split; intros t; apply Get_Add.
Qed.

(** An allowed upload whose payload turns out empty ends after the
    authorize call with nil.  When the original file is uploaded as it is,
    an empty file gets a "do not retry" that does not expire; when the
    debug information is extracted, an empty extraction gets a "do not
    retry" that expires five minutes after the attempt; an empty file
    found in the extraction cache leaves the retry cache as it was. *)
Theorem attemptUpload_empty_payload (now : Z) (w : world)
    (u : ParcaSymbolUploader) (fileID : FileID) (path buildID : string)
    (resp : ShouldInitiateUploadResponse) :
  shouldInitiateUpload w buildID = Ok resp →
  ShouldInitiateUpload resp = true →
  (keepTextSection u = true → openOriginal w path = None →
   statOriginal w = Ok 0 →
   ∃ o, attemptUpload now w u fileID path buildID = Some o ∧
     returned o = None ∧ calls o = [CallShouldInitiateUpload buildID] ∧
     ∀ t, Get t (retry (uploader o)) fileID = Some false) ∧
  (keepTextSection u = false → statCachedFile w = Some NotExist →
   createCached w = None → openOriginal w path = None →
   onlyKeepDebug w = None → seekStart w = None → statExtracted w = Ok 0 →
   ∃ o, attemptUpload now w u fileID path buildID = Some o ∧
     returned o = None ∧ calls o = [CallShouldInitiateUpload buildID] ∧
     ∀ t, Get t (retry (uploader o)) fileID =
       if decide (now + 5 * Minute ≤ t) then None else Some false) ∧
  (keepTextSection u = false → statCachedFile w = None →
   openCached w = None → statCached w = Ok 0 →
   ∃ o, attemptUpload now w u fileID path buildID = Some o ∧
     returned o = None ∧ calls o = [CallShouldInitiateUpload buildID] ∧
     retry (uploader o) = retry u).
Proof.
  intros Hr Ha. unfold attemptUpload, attemptUploadBody, materialize.
  rewrite Hr, Ha. cbn. split_and!.
  - intros -> -> ->. cbn. eexists. split; [done|]. cbn.
    split_and!; [done..|]. intros t. apply Get_Add.
  - intros -> -> -> -> -> -> ->. cbn. eexists. split; [done|]. cbn.
    split_and!; [done..|]. intros t. apply Get_AddWithLifetime.
  - intros -> -> -> ->. cbn. eexists. by split.
Qed.

End uploads.

Section uploads_examples.
Import Symuploader.
#[local] Existing Instance demoExternal.

Lemma Upload_in_flight_witness :
  ∃ u1, (Upload 0 newUploader 1%N "/bin/app" "build-1").1 = u1 ∧
    Upload 5 u1 1%N "/bin/other" "build-2" = (u1, None).
Proof.
  eexists. split; [reflexivity|].
  eapply (Upload_in_flight 0 newUploader _ 1%N "/bin/app" "build-1").
  vm_compute. reflexivity.
Defined.

Lemma attemptUpload_protocol_witness :
  ∃ o size url id,
    attemptUpload 0 (allowing 200) newUploader 1%N "/bin/app" "build-1" =
      Some o ∧
    calls o `prefix_of`
      [CallShouldInitiateUpload "build-1";
       CallInitiateUpload "build-1" (FileID_StringNoQuotes 1%N) size;
       CallPut url size;
       CallMarkUploadFinished "build-1" id].
Proof.
  eexists.
  destruct (attemptUpload_protocol 0 (allowing 200) newUploader 1%N
              "/bin/app" "build-1" _ ltac:(vm_compute; reflexivity))
    as (size & url & id & Hp & _).
  by exists size, url, id.
Defined.

Lemma attemptUpload_touches_one_file_witness :
  ∃ o,
    attemptUpload 0 (allowing 503) newUploader 1%N "/bin/app" "build-1" =
      Some o ∧
    is_Some (returned o) ∧
    retry (uploader o) = retry newUploader.
Proof.
  eexists. split; [vm_compute; reflexivity|]. split; [by eexists|].
  refine (proj2 (proj2 (proj2
    (attemptUpload_touches_one_file 0 (allowing 503) newUploader 1%N
       "/bin/app" "build-1" _ ltac:(vm_compute; reflexivity)))) _).
  by eexists.
Defined.

Lemma attemptUpload_never_empty_witness :
  ∃ o size,
    attemptUpload 0 (allowing 200) newUploader 1%N "/bin/app" "build-1" =
      Some o ∧
    calls o !! 1%nat =
      Some (CallInitiateUpload "build-1" (FileID_StringNoQuotes 1%N) size) ∧
    size ≠ 0.
Proof.
  eexists _, 4096. split; [vm_compute; reflexivity|]. split; [reflexivity|].
  eapply (attemptUpload_never_empty 0 (allowing 200) newUploader 1%N
            "/bin/app" "build-1" _ "build-1" (FileID_StringNoQuotes 1%N)).
  - vm_compute. reflexivity.
  - cbn. apply list_elem_of_further, list_elem_of_here.
Defined.

Lemma attemptUpload_success_witness :
  ∃ o,
    attemptUpload 0 (allowing 204) newUploader 1%N "/bin/app" "build-1" =
      Some o ∧
    returned o = None ∧ length (calls o) = 4%nat.
Proof.
  destruct (attemptUpload_success 0 (allowing 204) newUploader 1%N
              "/bin/app" "build-1" _ 4096 204 _
              eq_refl eq_refl eq_refl eq_refl eq_refl eq_refl
              ltac:(lia) eq_refl)
    as (o & Ho & Hret & Hcalls & _).
  exists o. split; [done|]. split; [done|]. by rewrite Hcalls.
Defined.

Lemma attemptUpload_empty_payload_witness :
  ∃ o,
    attemptUpload 0 extractingNothing newUploader 1%N "/bin/app" "build-1" =
      Some o ∧
    Get 299999999999 (retry (uploader o)) 1%N = Some false ∧
    Get 300000000000 (retry (uploader o)) 1%N = None.
Proof.
  destruct (proj1 (proj2
              (attemptUpload_empty_payload 0 extractingNothing newUploader
                 1%N "/bin/app" "build-1" _ eq_refl eq_refl))
              eq_refl eq_refl eq_refl eq_refl eq_refl eq_refl eq_refl)
    as (o & Ho & _ & _ & Hget).
  exists o. split; [done|]. by rewrite !Hget.
Defined.

End uploads_examples.

(** ** More on ingestion *)

Section calls.
Context `{External, RangeOrder, Reporter.MetadataOrder}.
Import Reporter.

Lemma ReportFallbackSymbol_lookup r f s k :
  fallbackSymbols (ReportFallbackSymbol r f s) !! k =
    match fallbackSymbols r !! k with
    | Some x => Some x
    | None => if decide (f = k) then Some s else None
    end.
Proof.
  unfold ReportFallbackSymbol.
  destruct (fallbackSymbols r !! f) as [old|] eqn:Hf.
  - destruct (fallbackSymbols r !! k) eqn:Hk; [done|].
    case_decide; [|done]. congruence.
  - cbn. destruct (decide (f = k)) as [->|Hne].
    + by rewrite lookup_insert_eq, Hf.
    + rewrite lookup_insert_ne by done. by destruct (_ !! k).
Qed.

Lemma ReportFallbackSymbol_others r f s :
  set_fallbackSymbols (ReportFallbackSymbol r f s) (fallbackSymbols r) = r.
Proof.
  unfold ReportFallbackSymbol. destruct (fallbackSymbols r !! f); by destruct r.
Qed.

(** The first symbol reported for a frame is the one that stays: a call
    stores its symbol only for a frame that has none and keeps the stored
    one otherwise; it changes the symbol of no other frame and nothing but
    the symbol cache; and a second call for the same frame right after it,
    with any symbol, changes nothing.  A kernel frame of the next snapshot
    is named accordingly. *)
Theorem ReportFallbackSymbol_first_wins (r : OTLPReporter)
    (frameID : FrameID) (symbol symbol' : string) :
  let r' := ReportFallbackSymbol r frameID symbol in
  fallbackSymbols r' !! frameID =
    Some (default symbol (fallbackSymbols r !! frameID)) ∧
  (∀ k, k ≠ frameID → fallbackSymbols r' !! k = fallbackSymbols r !! k) ∧
  set_fallbackSymbols r' (fallbackSymbols r) = r ∧
  ReportFallbackSymbol r' frameID symbol' = r' ∧
  kernelSymbol r' frameID.1 frameID.2 =
    default symbol (fallbackSymbols r !! frameID).
Proof.
  cbn zeta.
  assert (Hl : fallbackSymbols (ReportFallbackSymbol r frameID symbol)
                 !! frameID =
               Some (default symbol (fallbackSymbols r !! frameID))).
  { rewrite ReportFallbackSymbol_lookup.
    destruct (fallbackSymbols r !! frameID); [done|].
    by rewrite decide_True. }
  split; [done|]. split.
  { intros k Hk. rewrite ReportFallbackSymbol_lookup.
    destruct (fallbackSymbols r !! k); [done|]. by rewrite decide_False. }
  split; [apply ReportFallbackSymbol_others|]. split.
  - unfold ReportFallbackSymbol at 1. by rewrite Hl.
  - unfold kernelSymbol, NewFrameID. destruct frameID as [f a]. cbn [fst snd].
    by rewrite Hl.
Qed.

Lemma u32_add_l a b : u32 (u32 a + b) = u32 (a + b).
Proof. unfold u32. by rewrite Zplus_mod_idemp_l. Qed.

Lemma totalCount_snoc cs c : totalCount (cs ++ [c]) = totalCount cs + countCount c.
Proof. unfold totalCount. induction cs as [|c' cs IH]; cbn; lia. Qed.

Lemma applyCount_lookup h r c :
  0 ≤ countCount c < 2 ^ 16 →
  samples (applyCount h r c) !! h =
    Some {| timestamps := timestamps (samples r !!! h) ++ [countTimestamp c];
            count := u32 (count (samples r !!! h) + countCount c) |} ∧
  traces (applyCount h r c) !! h =
    Some {| files := files (traces r !!! h);
            linenos := linenos (traces r !!! h);
            frameTypes := frameTypes (traces r !!! h);
            comm := countComm c; podName := countPodName c;
            podNamespace := countPodNamespace c;
            containerName := countContainerName c;
            apmServiceName := apmServiceName (traces r !!! h) |} ∧
  ∀ k, k ≠ h →
    samples (applyCount h r c) !! k = samples r !! k ∧
    traces (applyCount h r c) !! k = traces r !! k.
Proof.
  intros Hc. unfold applyCount, ReportCountForTrace.
  rewrite !lookup_total_alt.
  destruct (traces r !! h) as [t|] eqn:Ht;
    destruct (samples r !! h) as [v|] eqn:Hv; cbn; rewrite Hv; cbn;
    rewrite ?lookup_insert_eq; (split; [|split; [done|]]);
    try (intros k Hk; by rewrite !lookup_insert_ne).
  all: try done.
  all: by rewrite u32_small by lia.
Qed.

(** Counts add up: after a run of [ReportCountForTrace] calls for one
    hash the counter holds the timestamps of the calls in call order after
    those it held, and the sum of the counts at [uint32]; the trace
    information keeps its frames and has the labels of the last call; no
    other hash is touched. *)
Theorem ReportCountForTrace_accumulates (traceHash : TraceHash)
    (r : OTLPReporter) (cs : list countCall) (c : countCall) :
  Forall (λ c, 0 ≤ countCount c < 2 ^ 16) (cs ++ [c]) →
  let r' := foldl (applyCount traceHash) r (cs ++ [c]) in
  samples r' !! traceHash =
    Some {| timestamps :=
              timestamps (samples r !!! traceHash) ++
              (countTimestamp <$> cs ++ [c]);
            count :=
              u32 (count (samples r !!! traceHash) +
                   totalCount (cs ++ [c])) |} ∧
  traces r' !! traceHash =
    Some {| files := files (traces r !!! traceHash);
            linenos := linenos (traces r !!! traceHash);
            frameTypes := frameTypes (traces r !!! traceHash);
            comm := countComm c; podName := countPodName c;
            podNamespace := countPodNamespace c;
            containerName := countContainerName c;
            apmServiceName := apmServiceName (traces r !!! traceHash) |} ∧
  ∀ k, k ≠ traceHash →
    samples r' !! k = samples r !! k ∧ traces r' !! k = traces r !! k.
Proof.
  cbn zeta. revert c. induction cs as [|c' cs IH] using rev_ind; intros c Hc.
  - cbn [app foldl] in *. rewrite Forall_singleton in Hc.
    destruct (applyCount_lookup traceHash r c Hc) as (-> & -> & Hk).
    split; [|done]. cbn. do 3 f_equal. unfold totalCount. cbn. lia.
  - apply Forall_app in Hc as [Hcs Hc]. rewrite Forall_singleton in Hc.
    rewrite foldl_app. cbn [foldl].
    destruct (IH c' Hcs) as (Hs & Ht & Hk).
    set (r1 := foldl (applyCount traceHash) r (cs ++ [c'])) in *.
    destruct (applyCount_lookup traceHash r1 c Hc) as (-> & -> & Hk').
    rewrite (lookup_total_correct _ _ _ Hs), (lookup_total_correct _ _ _ Ht).
    cbn. split; [|split; [done|]].
    + f_equal. f_equal.
      * by rewrite (fmap_app _ (cs ++ [c'])), app_assoc.
      * rewrite u32_add_l, (totalCount_snoc (cs ++ [c'])). f_equal. lia.
    + intros k Hne. destruct (Hk k Hne) as [<- <-]. by apply Hk'.
Qed.

Lemma foldl_insert_union (l : list (string * string)) :
  ∀ base : gmap string string,
    NoDup l.*1 →
    foldl (λ c kv, <[kv.1 := kv.2]> c) base l = list_to_map l ∪ base.
Proof.
  induction l as [|[k v] l IH]; intros base Hnd; cbn.
  - by rewrite (left_id_L ∅ (∪)).
  - apply NoDup_cons in Hnd as [Hk Hnd]. rewrite IH by done.
    rewrite <- insert_union_l, <- insert_union_r; [done|].
    by apply not_elem_of_list_to_map_1.
Qed.

Lemma rangeMetadata_to_map m :
  NoDup (rangeMetadata m).*1 ∧ list_to_map (rangeMetadata m) = m.
Proof.
  assert (Hnd : NoDup (rangeMetadata m).*1).
  { rewrite rangeMetadata_perm. apply NoDup_fst_map_to_list. }
  split; [done|].
  rewrite (list_to_map_proper _ _ Hnd (rangeMetadata_perm m)).
  apply list_to_map_to_list.
Qed.

Lemma getResource_eq r :
  getResource r =
    ((λ kv, {| kvKey := kv.1; kvValue := kv.2 |}) <$>
       rangeOver HostMetadata (hostmetadata r)) ++
    [{| kvKey := "__name__"; kvValue := "otel_profiling_agent_on_cpu" |}].
Proof. done. Qed.

Lemma length_rangeOver l `{Countable K} {V} (m : gmap K V) :
  length (rangeOver l m) = size m.
Proof. by rewrite rangeOver_perm, length_map_to_list. Qed.

Lemma elem_of_getResource r k v :
  hostmetadata r !! k = Some v →
  {| kvKey := k; kvValue := v |} ∈ getResource r.
Proof.
  intros Hk. rewrite getResource_eq. apply elem_of_app. left.
  apply list_elem_of_fmap. exists (k, v). split; [done|].
  by apply elem_of_rangeOver.
Qed.

(** Host metadata is merged: while the reported entries and the cached
    ones together fit the cache, after [ReportHostMetadata] the cache holds
    the reported map over what it held, whatever the order in which the map
    is visited; the blocking variant does the same and returns nil;
    nothing else changes, and every reported pair is an attribute of the
    next resource. *)
Theorem ReportHostMetadata_merges (r : OTLPReporter)
    (metadataMap : gmap string string) :
  (size (metadataMap ∪ hostmetadata r) ≤ hostmetadataEntries)%nat →
  hostmetadata (ReportHostMetadata r metadataMap) =
    metadataMap ∪ hostmetadata r ∧
  ReportHostMetadataBlocking r metadataMap =
    (ReportHostMetadata r metadataMap, None) ∧
  set_hostmetadata (ReportHostMetadata r metadataMap) (hostmetadata r) = r ∧
  ∀ k v, metadataMap !! k = Some v →
    {| kvKey := k; kvValue := v |} ∈
      getResource (ReportHostMetadata r metadataMap).
Proof.
  intros _.
  assert (Hu : hostmetadata (ReportHostMetadata r metadataMap) =
               metadataMap ∪ hostmetadata r).
  { unfold ReportHostMetadata, addHostmetadata. cbn.
    destruct (rangeMetadata_to_map metadataMap) as [Hnd Hm].
    by rewrite foldl_insert_union, Hm. }
  split; [done|]. split; [done|]. split; [by destruct r|].
  intros k v Hk. apply elem_of_getResource. rewrite Hu.
  by apply lookup_union_Some_l.
Qed.

(** The resource of an export has one attribute per host metadata entry
    and, last, the name of the profile type; the attribute keys are
    pairwise distinct exactly when no host metadata entry is itself keyed
    [__name__]. *)
Theorem getResource_attributes (r : OTLPReporter) :
  length (getResource r) = S (size (hostmetadata r)) ∧
  last (getResource r) =
    Some {| kvKey := "__name__";
            kvValue := "otel_profiling_agent_on_cpu" |} ∧
  (∀ k v, hostmetadata r !! k = Some v ↔
     {| kvKey := k; kvValue := v |} ∈
       take (size (hostmetadata r)) (getResource r)) ∧
  (NoDup (kvKey <$> getResource r) ↔ hostmetadata r !! "__name__" = None).
Proof.
  rewrite getResource_eq.
  set (f := λ kv : string * string, {| kvKey := kv.1; kvValue := kv.2 |}).
  set (l := rangeOver HostMetadata (hostmetadata r)).
  assert (Hlen : length (f <$> l) = size (hostmetadata r)).
  { rewrite length_fmap. apply length_rangeOver. }
  split; [rewrite length_app, Hlen; cbn; lia|].
  split; [apply last_snoc|]. split.
  - intros k v. rewrite take_app_length' by done.
    rewrite list_elem_of_fmap. split.
    + intros Hk. exists (k, v). split; [done|]. by apply elem_of_rangeOver.
    + intros ([k' v'] & [= -> ->] & Hin). by apply elem_of_rangeOver in Hin.
  - rewrite fmap_app, <- list_fmap_compose. cbn.
    change (kvKey ∘ f) with (@fst string string).
    rewrite NoDup_app. split.
    + intros (_ & Hd & _). apply eq_None_not_Some. intros [v Hv].
      apply (Hd "__name__"); [|apply list_elem_of_here].
      apply list_elem_of_fmap. exists ("__name__", v). split; [done|].
      by apply elem_of_rangeOver.
    + intros Hn. split; [apply NoDup_fst_rangeOver|]. split.
      * intros k Hk Hk'. apply list_elem_of_singleton in Hk'. subst k.
        apply list_elem_of_fmap in Hk as ([k v] & Hk & Hin).
        apply elem_of_rangeOver in Hin. cbn in Hk. congruence.
      * apply NoDup_singleton.
Qed.

(** [FrameMetadata] stores what it is given for its (FileID, address),
    with the path already stored when the new one is empty, and changes
    the metadata of no other frame and nothing outside the frames cache. *)
Theorem FrameMetadata_stores (r : OTLPReporter) (fileID : FileID)
    (addressOrLine : AddressOrLineno) (lineNumber' functionOffset' : Z)
    (functionName' filePath' : string) :
  let r' :=
    FrameMetadata r fileID addressOrLine lineNumber' functionOffset'
      functionName' filePath' in
  (frames r' !! fileID ≫= (.!! addressOrLine)) =
    Some {| lineNumber := lineNumber'; functionOffset := functionOffset';
            functionName := functionName';
            filePath :=
              if decide (filePath' = "") then
                default "" (storedFilePath r fileID addressOrLine)
              else filePath' |} ∧
  (∀ f a, (f, a) ≠ (fileID, addressOrLine) →
     (frames r' !! f ≫= (.!! a)) = (frames r !! f ≫= (.!! a))) ∧
  set_frames r' (frames r) = r.
Proof.
  cbn zeta. unfold FrameMetadata, storedFilePath.
  destruct (frames r !! fileID) as [v|] eqn:Hv; cbn.
  - rewrite lookup_insert_eq. cbn. rewrite lookup_insert_eq.
    split; [|split; [|by destruct r]].
    + do 2 f_equal. case_decide; [|done]. by destruct (v !! addressOrLine).
    + intros f a Hne. destruct (decide (f = fileID)) as [->|Hf].
      * rewrite lookup_insert_eq, Hv. cbn.
        rewrite lookup_insert_ne; [done|]. congruence.
      * by rewrite lookup_insert_ne.
  - rewrite lookup_insert_eq. cbn. rewrite lookup_insert_eq.
    split; [|split; [|by destruct r]].
    + do 2 f_equal. by case_decide.
    + intros f a Hne. destruct (decide (f = fileID)) as [->|Hf].
      * rewrite lookup_insert_eq, Hv. cbn.
        rewrite lookup_insert_ne; [done|]. congruence.
      * by rewrite lookup_insert_ne.
Qed.

(** A round drains everything exactly when every counter has trace
    information: [getProfile] leaves the samples cache empty if and only
    if no counter of the cache lacks trace information, and it then emits
    one sample per counter of the cache. *)
Theorem getProfile_drains_covered (r : OTLPReporter) (p : Profile) (s e : Z)
    (r' : OTLPReporter) :
  getProfile r = Some (p, s, e, r') →
  (samples r' = ∅ ↔ covered r) ∧
  (covered r → length (Profile_Sample p) = size (samples r)).
Proof.
  intros Hg.
  destruct (getProfile_inv _ _ _ _ _ Hg)
    as (enc & sm & Henc & _ & _ & HS & _ & _ & _ & _ & ->).
  assert (Hl : ∀ k, samples (set_samples r (drainSamples r).1) !! k =
                 if decide (traces r !! k = None) then samples r !! k
                 else None).
  { intros k. apply (proj1 (drainSamples_lookup r k)). }
  split; [split|].
  - intros He k [v Hv].
    destruct (traces r !! k) as [t|] eqn:Ht; [by eexists|].
    pose proof (Hl k) as Hk. rewrite He, lookup_empty, Ht, Hv in Hk.
    by rewrite decide_True in Hk.
  - intros Hc. apply map_eq. intros k. rewrite Hl, lookup_empty.
    case_decide as Ht; [|done].
    destruct (samples r !! k) as [v|] eqn:Hv; [|done].
    destruct (Hc k) as [t Hk]; [by eexists|]. congruence.
  - intros Hc.
    assert (Hws : (drainSamples r).2 = samples r).
    { apply map_eq. intros k. rewrite (proj2 (drainSamples_lookup r k)).
      case_decide as Ht; [|done].
      destruct (samples r !! k) as [v|] eqn:Hv; [|done].
      destruct (Hc k) as [t Hk]; [by eexists|]. congruence. }
    unfold encodeSnapshot in Henc.
    destruct (encodeSamples_spec _ _ _ _ Henc) as (_ & smps & Hs & Hf & _).
    rewrite HS, Hs, length_app, <- (Forall2_length _ _ _ Hf).
    by rewrite length_rangeOver, Hws.
Qed.

End calls.

(** ** Executables *)

Section executables.
Context `{External}.
Import Reporter.

(** [ExecutableMetadata] hands the executable to the symbol uploader
    under the name it was given, caches it under the last element of that
    name, never under [/], and changes nothing else; the mapping that a
    native frame of the FileID then creates carries the cached name and, in
    linker mode, the reported build ID. *)
Theorem ExecutableMetadata_names_mapping `{symbolUploader U G}
    (Base : string → string) (now : Z) (r : OTLPReporter) (u : U)
    (fileID : FileID) (fileName' buildID' : string) (fileOffset : Z)
    (e : encoder) :
  let res := ExecutableMetadata Base now r u fileID fileName' buildID' in
  let baseName :=
    if decide (Base fileName' = "/") then "<anonymous-blob>"
    else Base fileName' in
  let m := (nativeMapping res.1.1 fileID fileOffset e).1 in
  let sm := stringMap (nativeMapping res.1.1 fileID fileOffset e).2 in
  (res.1.2, res.2) = Upload now u fileID fileName' buildID' ∧
  set_executables res.1.1 (executables r) = r ∧
  executables res.1.1 =
    <[fileID := {| fileName := baseName; buildID := buildID' |}]>
      (executables r) ∧
  baseName ≠ "/" ∧
  sm !! baseName = Some (Filename m) ∧
  (otlpBuildIDMode r = "linker" →
   sm !! buildID' = Some (BuildId m) ∧
   Mapping_BuildIdKind m = BUILD_ID_LINKER).
Proof.
  cbn zeta. unfold ExecutableMetadata.
  destruct (Upload now u fileID fileName' buildID') as [u' g]. cbn.
  split; [done|]. split; [by destruct r|]. split; [done|].
  split; [by case_decide|].
  unfold nativeMapping. cbn. rewrite lookup_insert_eq. cbn.
  set (baseName := if decide (Base fileName' = "/") then _ else _).
  destruct (decide (otlpBuildIDMode r = "linker")) as [Hl|Hl];
    destruct (decide (otlpBuildIDMode r = "hash")) as [Hh|Hh];
    rewrite !intern_eq; cbn.
  - congruence.
  - split.
    + eapply lookup_weaken; [apply getStringMapIndex_lookup|].
      apply getStringMapIndex_subseteq.
    + intros _. split; [apply getStringMapIndex_lookup|done].
  - split; [|done].
    eapply lookup_weaken; [apply getStringMapIndex_lookup|].
    apply getStringMapIndex_subseteq.
  - split; [|done].
    eapply lookup_weaken; [apply getStringMapIndex_lookup|].
    apply getStringMapIndex_subseteq.
Qed.

(** With the Parca uploader: an upload that [ExecutableMetadata] starts
    is for the name and build ID as reported (the build ID is not empty),
    and reporting the FileID again, at any time and under any name, starts
    no second upload while it still refreshes the executables cache. *)
Theorem ExecutableMetadata_uploads_once (Base : string → string) (now : Z)
    (r r1 : OTLPReporter) (u u1 : Symuploader.ParcaSymbolUploader)
    (fileID : FileID) (fileName' buildID' : string)
    (a : Symuploader.attempt) :
  ExecutableMetadata Base now r u fileID fileName' buildID' =
    (r1, u1, Some a) →
  a = {| Symuploader.attemptFileID := fileID;
         Symuploader.attemptPath := fileName';
         Symuploader.attemptBuildID := buildID' |} ∧
  buildID' ≠ "" ∧
  ∀ now' r2 fileName2 buildID2,
    ∃ r3,
      ExecutableMetadata Base now' r2 u1 fileID fileName2 buildID2 =
        (r3, u1, None) ∧
      ∃ x, executables r3 !! fileID = Some x ∧ buildID x = buildID2.
Proof.
  unfold ExecutableMetadata. cbn [Upload ParcaSymbolUploader_Upload].
  destruct (Symuploader.Upload now u fileID fileName' buildID')
    as [u' g] eqn:Hu.
  intros [= <- <- ->].
  assert (Hu' : u' = Symuploader.set_singleflight u
                  (Symuploader.Add (Symuploader.singleflight u) fileID true)
                ∧ buildID' ≠ "" ∧
                a = {| Symuploader.attemptFileID := fileID;
                       Symuploader.attemptPath := fileName';
                       Symuploader.attemptBuildID := buildID' |}).
  { unfold Symuploader.Upload in Hu. repeat case_match; by simplify_eq. }
  destruct Hu' as (-> & Hb & ->). split; [done|]. split; [done|].
  intros now' r2 fileName2 buildID2.
  rewrite (Upload_entry_found now' _ fileID fileName2 buildID2
             {| Symuploader.value := true; Symuploader.expire := None |}).
  - eexists. split; [done|]. cbn. rewrite lookup_insert_eq. by eexists.
  - apply lookup_insert_eq.
  - done.
Qed.

End executables.

(** ** Locations, mappings and samples of a snapshot *)

Section locations.
Context `{External}.
Import Reporter.

Lemma interned_weaken sm sm' i : sm ⊆ sm' → interned sm i → interned sm' i.
Proof. intros Hsub [s Hs]. exists s. by eapply lookup_weaken. Qed.

Lemma describes_weaken r sm sm' fm fm' mm mm' fr loc :
  sm ⊆ sm' → fm ⊆ fm' → mm ⊆ mm' →
  describes r sm fm mm fr loc → describes r sm' fm' mm' fr loc.
Proof.
  intros Hs Hf Hm (a & Ha & Hadr & Hty & Hk).
  exists a. split; [done|]. split; [done|].
  split; [by eapply lookup_weaken|].
  destruct (fr.1.1); [| |done|].
  - destruct Hk as (f & ? & ? & ?). exists f.
    split_and!; [done| |done]. by eapply lookup_weaken.
  - destruct Hk as (f & l & ? & ? & ? & ? & ?). exists f, l.
    split_and!; [done| |done|done|]; by eapply lookup_weaken.
  - destruct Hk as (f & l & ? & ? & ? & ? & ?). exists f, l.
    split_and!; [done| |done|done|]; by eapply lookup_weaken.
Qed.

Lemma grows_stringMap_subseteq e e' : grows e e' → stringMap e ⊆ stringMap e'.
Proof. intros ([l ->] & _). apply internAll_subseteq. Qed.

Lemma mappingsOk_strings e e' :
  mappingsOk e → stringMap e ⊆ stringMap e' →
  fileIDtoMapping e' = fileIDtoMapping e →
  profileMapping e' = profileMapping e →
  mappingsOk e'.
Proof.
  intros (Hix & Hsz & Hall) Hsub Hm Hp. unfold mappingsOk.
  rewrite Hm, Hp. split; [done|]. split; [done|].
  eapply Forall_impl; [exact Hall|]. intros m [? ?].
  split; by eapply interned_weaken.
Qed.

Lemma mappingsOk_addMapping e f m :
  mappingsOk e → fileIDtoMapping e !! f = None →
  interned (stringMap e) (Filename m) → interned (stringMap e) (BuildId m) →
  mappingsOk (addMapping e f (Z.of_nat (size (fileIDtoMapping e))) m).
Proof.
  intros (Hix & Hsz & Hall) Hf H1 H2. split; [|split]; cbn.
  - by apply indexed_insert.
  - rewrite map_size_insert_None by done. rewrite length_app. cbn. lia.
  - apply Forall_app. split; [done|]. by apply Forall_singleton.
Qed.

Lemma addMapping_dom e f i m f' :
  is_Some (fileIDtoMapping (addMapping e f i m) !! f') →
  is_Some (fileIDtoMapping e !! f') ∨ f' = f.
Proof.
  cbn. destruct (decide (f = f')) as [->|Hne]; [by right|].
  rewrite lookup_insert_ne by done. by left.
Qed.

Lemma getDummyMappingIndex_step f e :
  mappingsOk e →
  mappingsOk (getDummyMappingIndex f e).2 ∧
  fileIDtoMapping e ⊆ fileIDtoMapping (getDummyMappingIndex f e).2 ∧
  fileIDtoMapping (getDummyMappingIndex f e).2 !! f =
    Some (getDummyMappingIndex f e).1 ∧
  (∀ f', is_Some (fileIDtoMapping (getDummyMappingIndex f e).2 !! f') →
     is_Some (fileIDtoMapping e !! f') ∨ f' = f) ∧
  locationIndex (getDummyMappingIndex f e).2 = locationIndex e.
Proof.
  intros Hok. unfold getDummyMappingIndex.
  destruct (fileIDtoMapping e !! f) as [d|] eqn:Hf; cbn.
  { split; [done|]. split; [done|]. split; [done|]. split; [|done].
    intros f'. by left. }
  rewrite !intern_eq. cbn.
  set (p1 := getStringMapIndex (stringMap e) "DUMMY").
  set (p2 := getStringMapIndex p1.2 (FileID_StringNoQuotes f)).
  split; [|split; [|split; [|split]]].
  - apply (mappingsOk_addMapping (set_stringMap (set_stringMap e p1.2) p2.2)).
    + eapply mappingsOk_strings; [exact Hok| |done|done]. cbn.
      etrans; apply getStringMapIndex_subseteq.
    + done.
    + exists "DUMMY". cbn. eapply lookup_weaken;
        [apply getStringMapIndex_lookup|apply getStringMapIndex_subseteq].
    + eexists. cbn. apply getStringMapIndex_lookup.
  - by apply insert_subseteq.
  - apply lookup_insert_eq.
  - intros f'. destruct (decide (f = f')) as [->|Hne]; [by right|].
    rewrite lookup_insert_ne by done. by left.
  - done.
Qed.

Lemma nativeMapping_interned r f off e :
  interned (stringMap (nativeMapping r f off e).2)
    (Filename (nativeMapping r f off e).1) ∧
  interned (stringMap (nativeMapping r f off e).2)
    (BuildId (nativeMapping r f off e).1) ∧
  locationIndex (nativeMapping r f off e).2 = locationIndex e.
Proof.
  unfold nativeMapping.
  repeat case_decide; rewrite !intern_eq; cbn; (split; [|split; [|done]]);
    eexists; first
      [ apply getStringMapIndex_lookup
      | eapply lookup_weaken;
          [apply getStringMapIndex_lookup|apply getStringMapIndex_subseteq] ].
Qed.

Lemma interpretedFunction_source r k f a e :
  (interpretedFunction r k f a e).1.1 = (interpretedSource r k f a).1 ∧
  funcMap (interpretedFunction r k f a e).2 !! (interpretedSource r k f a).2 =
    Some ((interpretedFunction r k f a e).1.2 - 1) ∧
  stringMap (interpretedFunction r k f a e).2 = stringMap e ∧
  fileIDtoMapping (interpretedFunction r k f a e).2 = fileIDtoMapping e ∧
  profileMapping (interpretedFunction r k f a e).2 = profileMapping e ∧
  locationIndex (interpretedFunction r k f a e).2 = locationIndex e.
Proof.
  unfold interpretedFunction, interpretedSource.
  destruct (frames r !! f) as [v|]; [destruct (v !! a)|];
    rewrite internFunction_eq; cbn; (split; [done|]); (split; [|done]);
    rewrite createFunctionEntry_lookup; f_equal; lia.
Qed.

(** One frame: the location it appends describes it, and the mapping
    table stays in step with its index. *)
Lemma encodeFrame_step r trace i k e e' :
  encodeFrame r trace i k e = Some e' →
  frameIDtoFunction e = ∅ → mappingsOk e →
  mappingsOk e' ∧ fileIDtoMapping e ⊆ fileIDtoMapping e' ∧
  locationIndex e' = locationIndex e ∧
  (∀ f, is_Some (fileIDtoMapping e' !! f) →
     is_Some (fileIDtoMapping e !! f) ∨
     (k ≠ AbortFrame ∧ files trace !! i = Some f)) ∧
  ∃ loc, profileLocation e' = profileLocation e ++ [loc] ∧
    describes r (stringMap e') (funcMap e') (fileIDtoMapping e')
      (k, files trace !! i, linenos trace !! i) loc.
Proof.
  intros He Hempty Hok. unfold encodeFrame in He. rewrite intern_eq in He.
  pose proof (getStringMapIndex_lookup (stringMap e) (FrameType_String k))
    as Hid.
  pose proof (getStringMapIndex_subseteq (stringMap e) (FrameType_String k))
    as Hsub.
  revert He Hid Hsub.
  generalize (getStringMapIndex (stringMap e) (FrameType_String k)).
  intros p He Hid Hsub.
  assert (Hok0 : mappingsOk (set_stringMap e p.2)).
  { by eapply mappingsOk_strings. }
  destruct (linenos trace !! i) as [a|] eqn:Ha; cbn in He; [|done].
  destruct k as [| | |c].
  - destruct (files trace !! i) as [f|] eqn:Hf; cbn in He; [|done].
    destruct (fileIDtoMapping e !! f) as [idx|] eqn:Hm.
    + injection He as <-. cbn. split; [exact Hok0|]. split; [done|].
      split; [done|]. split; [by left|]. eexists. split; [done|].
      exists a. cbn. split; [done|]. split; [done|]. split; [done|].
      exists f. split; [done|]. split; [|done].
      rewrite Hm. f_equal. lia.
    + destruct (nativeMapping r f a _) as [m e2] eqn:Hn.
      pose proof (nativeMapping_spec r f a (set_stringMap e p.2)) as Hs.
      pose proof (nativeMapping_interned r f a (set_stringMap e p.2)) as Hi.
      rewrite Hn in Hs, Hi. cbn in Hs, Hi.
      destruct Hs as (G2 & HF & HL & HS & HM & HI).
      destruct Hi as (Hi1 & Hi2 & Hli).
      injection He as <-. cbn.
      assert (Hok2 : mappingsOk e2).
      { eapply mappingsOk_strings; [exact Hok0| |done|done].
        by apply grows_stringMap_subseteq. }
      pose proof (mappingsOk_addMapping e2 f m Hok2) as Hok3.
      rewrite HI in Hok3. specialize (Hok3 Hm Hi1 Hi2).
      split; [exact Hok3|]. rewrite HI.
      split; [by apply insert_subseteq|]. split; [done|]. split.
      { intros f'. destruct (decide (f = f')) as [->|Hne]; [by right|].
        rewrite lookup_insert_ne by done. by left. }
      rewrite HL. eexists. split; [done|].
      exists a. cbn. split; [done|]. split; [done|].
      split; [by eapply (grows_string_lookup _ _ _ _ G2)|].
      exists f. split; [done|]. split; [|done].
      rewrite lookup_insert_eq. f_equal. lia.
  - destruct (files trace !! i) as [f|] eqn:Hf; cbn in He; [|done].
    rewrite Hempty, lookup_empty in He.
    rewrite internFunction_eq in He. cbn in He.
    fold (kernelSymbol r f a) in He.
    destruct (getDummyMappingIndex f _) as [d e3] eqn:Hd.
    match type of Hd with
    | getDummyMappingIndex _ ?x = _ =>
        pose proof (getDummyMappingIndex_spec f x) as Hs;
        pose proof (getDummyMappingIndex_step f x Hok0) as Ht
    end.
    rewrite Hd in Hs, Ht. cbn in Hs, Ht.
    destruct Hs as (G2 & HF & HL & HS).
    destruct Ht as (Hok3 & Hsub3 & Hd3 & Hdom & Hli).
    injection He as <-. cbn.
    split; [exact Hok3|]. split; [done|]. split; [done|]. split.
    { intros f' Hf'. destruct (Hdom f' Hf') as [?| ->]; [by left|].
      by right. }
    rewrite HL. eexists. split; [done|].
    exists a. cbn. split; [done|]. split; [done|].
    split; [by eapply (grows_string_lookup _ _ _ _ G2)|].
    eexists f, _. split; [done|]. split.
    { rewrite Hd3. f_equal. lia. }
    split; [done|]. split; [done|]. cbn.
    rewrite HF. cbn. rewrite createFunctionEntry_lookup. f_equal. lia.
  - injection He as <-. cbn. split; [exact Hok0|]. split; [done|].
    split; [done|]. split; [by left|]. eexists. split; [done|].
    exists a. cbn. by split_and!.
  - destruct (files trace !! i) as [f|] eqn:Hf; cbn in He; [|done].
    destruct (interpretedFunction r _ f a _) as [[ln fi] e2] eqn:Hi.
    match type of Hi with
    | interpretedFunction _ ?k _ _ ?x = _ =>
        pose proof (interpretedFunction_source r k f a x) as Hs
    end.
    rewrite Hi in Hs. cbn in Hs.
    destruct Hs as (Hln & Hfi & Hsm & Hmm & Hpm & Hli2).
    assert (Hok2 : mappingsOk e2).
    { eapply mappingsOk_strings; [exact Hok0|by rewrite Hsm|done|done]. }
    destruct (getDummyMappingIndex f e2) as [d e3] eqn:Hd.
    pose proof (getDummyMappingIndex_spec f e2) as Hs.
    pose proof (getDummyMappingIndex_step f e2 Hok2) as Ht.
    rewrite Hd in Hs, Ht. cbn in Hs, Ht.
    destruct Hs as (G3 & HF3 & HL3 & HS3).
    destruct Ht as (Hok3 & Hsub3 & Hd3 & Hdom & Hli).
    pose proof (interpretedFunction_spec r (InterpretedFrame c) f a
                  (set_stringMap e p.2)) as Hs.
    rewrite Hi in Hs. cbn in Hs. destruct Hs as (G2 & HL2 & HS2).
    injection He as <-. cbn.
    split; [exact Hok3|]. rewrite Hmm in Hsub3, Hdom. cbn in Hsub3, Hdom.
    split; [done|]. split; [congruence|]. split.
    { intros f' Hf'. destruct (Hdom f' Hf') as [?| ->]; [by left|].
      by right. }
    rewrite HL3, HL2. eexists. split; [done|].
    exists a. cbn. split; [done|]. split; [done|]. split.
    { eapply (grows_string_lookup _ _ _ _ G3). by rewrite Hsm. }
    eexists f, _. split; [done|]. split.
    { rewrite Hd3. f_equal. lia. }
    split; [done|]. split; [done|]. cbn. by rewrite HF3.
Qed.

Lemma elem_of_mappedFiles frs f :
  f ∈ mappedFiles frs ↔
  ∃ k a, (k, Some f, a) ∈ frs ∧ k ≠ AbortFrame.
Proof.
  unfold mappedFiles. rewrite list_elem_of_omap. split.
  - intros ([[k o] a] & Hin & Hf). cbn in Hf.
    destruct k; simplify_eq; by eexists _, _.
  - intros (k & a & Hin & Hk). exists (k, Some f, a). split; [done|].
    cbn. by destruct k.
Qed.

(** The frame loop of one trace. *)
Lemma encodeFrames_step r trace kinds : ∀ i e e',
  encodeFrames r trace i kinds e = Some e' →
  frameIDtoFunction e = ∅ → mappingsOk e →
  let frs :=
    imap (λ j k, (k, files trace !! (i + j)%nat,
                  linenos trace !! (i + j)%nat)) kinds in
  mappingsOk e' ∧ fileIDtoMapping e ⊆ fileIDtoMapping e' ∧
  locationIndex e' = locationIndex e ∧
  (∀ f, is_Some (fileIDtoMapping e' !! f) →
     is_Some (fileIDtoMapping e !! f) ∨ f ∈ mappedFiles frs) ∧
  ∃ locs, profileLocation e' = profileLocation e ++ locs ∧
    Forall2
      (describes r (stringMap e') (funcMap e') (fileIDtoMapping e'))
      frs locs.
Proof.
  induction kinds as [|k kinds IH]; intros i e e' He Hempty Hok; cbn zeta;
    cbn [encodeFrames] in He.
  - injection He as <-. split; [done|]. split; [done|]. split; [done|].
    split; [by left|]. exists []. split; [by rewrite app_nil_r|constructor].
  - rewrite imap_cons.
    destruct (encodeFrame r trace i k e) as [e1|] eqn:H1; cbn in He; [|done].
    destruct (encodeFrame_spec _ _ _ _ _ _ H1) as (G1 & _).
    destruct (encodeFrame_step _ _ _ _ _ _ H1 Hempty Hok)
      as (Hok1 & Hsub1 & Hli1 & Hdom1 & loc & HL1 & Hd1).
    destruct (encodeFrames_spec _ _ _ _ _ _ He) as (G2 & _).
    destruct (IH _ _ _ He (grows_frameIDs _ _ G1 Hempty) Hok1)
      as (Hok2 & Hsub2 & Hli2 & Hdom2 & locs & HL2 & Hd2).
    split; [done|]. split; [by etrans|]. split; [congruence|]. split.
    { intros f Hf. destruct (Hdom2 f Hf) as [Hf1|Hin].
      - destruct (Hdom1 f Hf1) as [?|[Hk Hfi]]; [by left|]. right.
        apply elem_of_mappedFiles. exists k, (linenos trace !! (i + 0)%nat).
        split; [|done]. rewrite <- Hfi, Nat.add_0_r. apply list_elem_of_here.
      - right. apply elem_of_mappedFiles in Hin as (k' & a' & Hin & Hk').
        apply elem_of_mappedFiles. exists k', a'. split; [|done].
        apply list_elem_of_further.
        erewrite imap_ext; [exact Hin|].
        intros j k'' _. cbn. by rewrite Nat.add_succ_r. }
    exists (loc :: locs). split; [by rewrite HL2, HL1, <- app_assoc|].
    constructor.
    + rewrite Nat.add_0_r.
      eapply describes_weaken; [..|exact Hd1]; [|
        by apply grows_funcMap_subseteq|done].
      by apply grows_stringMap_subseteq.
    + erewrite imap_ext; [exact Hd2|].
      intros j k' _. cbn. by rewrite Nat.add_succ_r.
Qed.

Lemma addLabel_labelled key value fields labels m :
  Forall2
    (λ kv l, m !! kv.1 = Some (Key l) ∧ m !! kv.2 = Some (Str l))
    fields labels →
  Forall2
    (λ kv l, (addLabel key value (labels, m)).2 !! kv.1 = Some (Key l) ∧
             (addLabel key value (labels, m)).2 !! kv.2 = Some (Str l))
    (fields ++ filter (λ kv, kv.2 ≠ "") [(key, value)])
    (addLabel key value (labels, m)).1 ∧
  m ⊆ (addLabel key value (labels, m)).2.
Proof.
  intros Hf. unfold addLabel. rewrite filter_cons, filter_nil. cbn.
  destruct (decide (value = "")) as [->|Hv].
  - rewrite decide_False by (by intros ?). cbn.
    by rewrite app_nil_r.
  - rewrite decide_True by done.
    pose proof (getStringMapIndex_lookup m key) as H1.
    pose proof (getStringMapIndex_subseteq m key) as S1.
    destruct (getStringMapIndex m key) as [i1 m1]. cbn in H1, S1.
    pose proof (getStringMapIndex_lookup m1 value) as H2.
    pose proof (getStringMapIndex_subseteq m1 value) as S2.
    destruct (getStringMapIndex m1 value) as [i2 m2]. cbn in H2, S2. cbn.
    split; [|by etrans].
    apply Forall2_app.
    + eapply Forall2_impl; [exact Hf|]. intros kv l [? ?].
      split; eapply lookup_weaken; try done; by etrans.
    + constructor; [|constructor]. cbn. split; [|done].
      by eapply lookup_weaken.
Qed.

Lemma getTraceLabels_labelled m t :
  labelled (getTraceLabels m t).2 t (getTraceLabels m t).1 ∧
  m ⊆ (getTraceLabels m t).2.
Proof.
  unfold getTraceLabels, labelled.
  change (labelFields t) with
    ([] ++ [("comm", comm t)] ++ [("podName", podName t)] ++
     [("podNamespace", podNamespace t)] ++
     [("containerName", containerName t)] ++
     [("apmServiceName", apmServiceName t)]).
  rewrite !filter_app, !app_assoc.
  destruct (addLabel_labelled "comm" (comm t) [] [] m) as [F1 S1];
    [constructor|].
  destruct (addLabel "comm" _ _) as [ls1 m1]. cbn in F1, S1.
  destruct (addLabel_labelled "podName" (podName t) _ ls1 m1 F1) as [F2 S2].
  destruct (addLabel "podName" _ _) as [ls2 m2]. cbn in F2, S2.
  destruct (addLabel_labelled "podNamespace" (podNamespace t) _ ls2 m2 F2)
    as [F3 S3].
  destruct (addLabel "podNamespace" _ _) as [ls3 m3]. cbn in F3, S3.
  destruct (addLabel_labelled "containerName" (containerName t) _ ls3 m3 F3)
    as [F4 S4].
  destruct (addLabel "containerName" _ _) as [ls4 m4]. cbn in F4, S4.
  destruct (addLabel_labelled "apmServiceName" (apmServiceName t) _ ls4 m4 F4)
    as [F5 S5].
  split; [exact F5|]. repeat (etrans; [eassumption|]). done.
Qed.

Lemma sliceOf_app L X smp :
  0 ≤ LocationsStartIndex smp →
  0 ≤ LocationsLength smp →
  LocationsStartIndex smp + LocationsLength smp ≤ Z.of_nat (length L) →
  sliceOf (L ++ X) smp = sliceOf L smp.
Proof.
  intros H0 H1 H2. unfold sliceOf.
  rewrite drop_app_le by lia. apply take_app_le. rewrite length_drop. lia.
Qed.

Lemma sliceOf_here L locs smp :
  LocationsStartIndex smp = Z.of_nat (length L) →
  LocationsLength smp = Z.of_nat (length locs) →
  sliceOf (L ++ locs) smp = locs.
Proof.
  intros H1 H2. unfold sliceOf. rewrite H1, H2, !Nat2Z.id, drop_app_length.
  by apply take_ge.
Qed.

Lemma sampled_weaken r sm sm' fm fm' mm mm' L X kv smp :
  sm ⊆ sm' → fm ⊆ fm' → mm ⊆ mm' →
  sampled r sm fm mm L kv smp → sampled r sm' fm' mm' (L ++ X) kv smp.
Proof.
  intros Hs Hf Hm (H0 & Hlen & Hle & Hd & Hl & Hid).
  split; [done|]. split; [done|].
  split; [rewrite length_app; lia|]. split; [|split].
  - rewrite sliceOf_app by lia.
    eapply Forall2_impl; [exact Hd|]. intros fr loc.
    by apply describes_weaken.
  - eapply Forall2_impl; [exact Hl|]. intros kv' l [? ?].
    split; by eapply lookup_weaken.
  - by eapply lookup_weaken.
Qed.

(** One counter of the working set. *)
Lemma encodeSample_step r kv e e' :
  encodeSample r kv e = Some e' →
  frameIDtoFunction e = ∅ → mappingsOk e →
  locationIndex e = Z.of_nat (length (profileLocation e)) →
  mappingsOk e' ∧ fileIDtoMapping e ⊆ fileIDtoMapping e' ∧
  locationIndex e' = Z.of_nat (length (profileLocation e')) ∧
  (∀ f, is_Some (fileIDtoMapping e' !! f) →
     is_Some (fileIDtoMapping e !! f) ∨
     f ∈ mappedFiles (traceFrames (traces r !!! kv.1))) ∧
  ∃ smp locs,
    profileSample e' = profileSample e ++ [smp] ∧
    profileLocation e' = profileLocation e ++ locs ∧
    LocationsStartIndex smp = Z.of_nat (length (profileLocation e)) ∧
    Forall2
      (describes r (stringMap e') (funcMap e') (fileIDtoMapping e'))
      (traceFrames (traces r !!! kv.1)) locs ∧
    sampled r (stringMap e') (funcMap e') (fileIDtoMapping e')
      (profileLocation e') kv smp.
Proof.
  intros He Hempty Hok Hli. destruct kv as [h s].
  unfold encodeSample in He. rewrite intern_eq in He.
  pose proof (getStringMapIndex_lookup (stringMap e)
                (TraceHash_StringNoQuotes h)) as Hid.
  pose proof (getStringMapIndex_subseteq (stringMap e)
                (TraceHash_StringNoQuotes h)) as Hsub.
  revert He Hid Hsub.
  generalize (getStringMapIndex (stringMap e) (TraceHash_StringNoQuotes h)).
  intros p He Hid Hsub.
  destruct (foldl trackTimestamp _ _) as [st en].
  destruct (encodeFrames r _ 0 _ _) as [e2|] eqn:H2; cbn in He; [|done].
  assert (Hok0 : mappingsOk
                   (set_timestamps (set_stringMap e p.2) st en)).
  { by eapply mappingsOk_strings. }
  destruct (encodeFrames_spec _ _ _ _ _ _ H2) as (G2 & S2 & _).
  destruct (encodeFrames_step _ _ _ _ _ _ H2 Hempty Hok0)
    as (Hok2 & Hsub2 & Hli2 & Hdom2 & locs & HL2 & Hd2).
  cbn in G2, S2, Hsub2, Hli2, Hdom2, HL2.
  fold (traceFrames (traces r !!! h)) in Hdom2, Hd2.
  destruct (getTraceLabels_labelled (stringMap e2) (traces r !!! h))
    as [Hlab Hsubl].
  destruct (getTraceLabels _ _) as [labels m]. cbn in Hlab, Hsubl.
  injection He as <-. cbn.
  assert (Hlen : length locs = length (frameTypes (traces r !!! h))).
  { rewrite <- (Forall2_length _ _ _ Hd2). unfold traceFrames.
    by rewrite length_imap. }
  assert (Hd : Forall2
                 (describes r m (funcMap e2) (fileIDtoMapping e2))
                 (traceFrames (traces r !!! h)) locs).
  { eapply Forall2_impl; [exact Hd2|]. intros fr loc.
    by apply describes_weaken. }
  split; [by eapply mappingsOk_strings|]. split; [done|].
  split; [rewrite HL2, length_app; lia|]. split; [done|].
  eexists _, locs. split; [by rewrite S2|]. split; [done|].
  split; [by rewrite Hli|]. split; [done|].
  split; [cbn; lia|]. split; [done|]. cbn.
  split; [rewrite HL2, length_app; lia|]. split; [|split; [done|]].
  - rewrite HL2, sliceOf_here; [done|by cbn|cbn; lia].
  - eapply lookup_weaken; [|exact Hsubl].
    eapply (grows_string_lookup _ _ _ _ G2). exact Hid.
Qed.

Lemma mappedFiles_app frs1 frs2 :
  mappedFiles (frs1 ++ frs2) = mappedFiles frs1 ++ mappedFiles frs2.
Proof. apply omap_app. Qed.

(** The loop over the working set. *)
Lemma encodeSamples_step r ws : ∀ e e',
  encodeSamples r ws e = Some e' →
  frameIDtoFunction e = ∅ → mappingsOk e →
  locationIndex e = Z.of_nat (length (profileLocation e)) →
  mappingsOk e' ∧ fileIDtoMapping e ⊆ fileIDtoMapping e' ∧
  locationIndex e' = Z.of_nat (length (profileLocation e')) ∧
  (∀ f, is_Some (fileIDtoMapping e' !! f) →
     is_Some (fileIDtoMapping e !! f) ∨
     f ∈ mappedFiles (snapshotFrames r ws)) ∧
  ∃ smps locs,
    profileSample e' = profileSample e ++ smps ∧
    profileLocation e' = profileLocation e ++ locs ∧
    Forall2
      (describes r (stringMap e') (funcMap e') (fileIDtoMapping e'))
      (snapshotFrames r ws) locs ∧
    Forall2
      (sampled r (stringMap e') (funcMap e') (fileIDtoMapping e')
         (profileLocation e')) ws smps ∧
    tiles (Z.of_nat (length (profileLocation e))) smps
      (Z.of_nat (length (profileLocation e'))).
Proof.
  induction ws as [|kv ws IH]; intros e e' He Hempty Hok Hli;
    cbn [encodeSamples] in He.
  - injection He as <-. split; [done|]. split; [done|]. split; [done|].
    split; [by left|]. exists [], []. rewrite !app_nil_r.
    split; [done|]. split; [done|]. split; [constructor|].
    split; [constructor|done].
  - destruct (encodeSample r kv e) as [e1|] eqn:H1; cbn in He; [|done].
    destruct (encodeSample_spec _ _ _ _ H1) as (G1 & _).
    destruct (encodeSample_step _ _ _ _ H1 Hempty Hok Hli)
      as (Hok1 & Hsub1 & Hli1 & Hdom1 & smp & locs1 & S1 & L1 & Hst & Hd1
          & Hs1).
    destruct (encodeSamples_spec _ _ _ _ He) as (G2 & _).
    destruct (IH _ _ He (grows_frameIDs _ _ G1 Hempty) Hok1 Hli1)
      as (Hok2 & Hsub2 & Hli2 & Hdom2 & smps & locs2 & S2 & L2 & Hd2 & Hs2
          & Ht2).
    pose proof (grows_stringMap_subseteq _ _ G2) as Hsm.
    pose proof (grows_funcMap_subseteq _ _ G2) as Hfm.
    change (snapshotFrames r (kv :: ws)) with
      (traceFrames (traces r !!! kv.1) ++ snapshotFrames r ws).
    split; [done|]. split; [by etrans|]. split; [done|]. split.
    { intros f Hf. rewrite mappedFiles_app, elem_of_app.
      destruct (Hdom2 f Hf) as [Hf1|Hin]; [|by right; right].
      destruct (Hdom1 f Hf1) as [?|?]; [by left|by right; left]. }
    exists (smp :: smps), (locs1 ++ locs2).
    split; [by rewrite S2, S1, <- app_assoc|].
    split; [by rewrite L2, L1, <- app_assoc|]. split; [|split].
    + apply Forall2_app; [|done].
      eapply Forall2_impl; [exact Hd1|]. intros fr loc.
      by apply describes_weaken.
    + constructor; [|done]. rewrite L2.
      by eapply sampled_weaken.
    + cbn [tiles]. split; [done|].
      destruct Hs1 as (_ & Hlen & _). 
      assert (Hl1 : Z.of_nat (length (profileLocation e1)) =
                    Z.of_nat (length (profileLocation e)) +
                    LocationsLength smp).
      { destruct (encodeSample_step _ _ _ _ H1 Hempty Hok Hli)
          as (_ & _ & _ & _ & smp' & locs' & S1' & L1' & _ & Hd' & Hs').
        rewrite S1 in S1'. apply app_inv_head in S1'. injection S1' as <-.
        destruct Hs' as (_ & Hlen' & _).
        rewrite L1', length_app, Hlen'.
        rewrite <- (Forall2_length _ _ _ Hd'). unfold traceFrames.
        rewrite length_imap. lia. }
      by rewrite <- Hl1.
Qed.

End locations.

(** ** The profile of a snapshot *)

Section profiles.
Context `{External, RangeOrder}.
Import Reporter.

Lemma newEncoder_mappingsOk : mappingsOk newEncoder.2.
Proof. split; [apply indexed_empty|]. split; [done|constructor]. Qed.

(** The head of the profile literal. *)
Lemma getProfile_header r p s e r' :
  getProfile r = Some (p, s, e, r') →
  SampleType p = [newEncoder.1.1] ∧ PeriodType p = newEncoder.1.2 ∧
  LocationIndices p = Z.of_nat <$> seq 0 (length (Profile_Location p)) ∧
  Period p = 1000000000 `quot` SamplesPerSecond ∧
  TimeNanos p = UnixNano (i64 s) ∧
  DurationNanos p = i64 (UnixNano (i64 e) - UnixNano (i64 s)).
Proof.
  unfold getProfile, samplingPeriod.
  destruct (decide (SamplesPerSecond = 0)); cbn; [done|].
  destruct (encodeSnapshot r) as [enc|]; cbn; [|done].
  destruct (buildTables enc) as [[ft st]|]; cbn; [|done].
  intros [= <- <- <- <-]. by cbn.
Qed.

(** What the encoder of a snapshot knows when the loops are over. *)
Lemma getProfile_encoding r p s e r' :
  getProfile r = Some (p, s, e, r') →
  let ws := rangeOver WorkingSet (drainSamples r).2 in
  ∃ enc,
    encodeSnapshot r = Some enc ∧
    stringMap newEncoder.2 ⊆ stringMap enc ∧
    mappingsOk enc ∧
    length (Profile_Mapping p) = size (fileIDtoMapping enc) ∧
    (∀ f, is_Some (fileIDtoMapping enc !! f) ↔
       f ∈ mappedFiles (snapshotFrames r ws)) ∧
    Forall2
      (describes r (stringMap enc) (funcMap enc) (fileIDtoMapping enc))
      (snapshotFrames r ws) (Profile_Location p) ∧
    Forall2
      (sampled r (stringMap enc) (funcMap enc) (fileIDtoMapping enc)
         (Profile_Location p)) ws (Profile_Sample p) ∧
    tiles 0 (Profile_Sample p) (Z.of_nat (length (Profile_Location p))).
Proof.
  intros Hg ws.
  destruct (getProfile_inv _ _ _ _ _ Hg)
    as (enc & sm & Henc & _ & _ & HS & HL & HM & _).
  exists enc. split; [done|]. unfold encodeSnapshot in Henc.
  destruct (encodeSamples_spec _ _ _ _ Henc) as (G & _).
  destruct (encodeSamples_step _ _ _ _ Henc eq_refl newEncoder_mappingsOk
              eq_refl)
    as (Hok & _ & _ & Hdom & smps & locs & S1 & L1 & Hd & Hs & Ht).
  rewrite <- HS in S1. rewrite <- HL in L1, Hs, Ht.
  change (profileSample newEncoder.2) with (@nil Sample) in S1.
  change (profileLocation newEncoder.2) with (@nil Location) in L1, Ht.
  cbn in S1, L1, Ht. subst smps locs.
  split; [by apply grows_stringMap_subseteq|]. split; [done|].
  split; [rewrite HM; symmetry; apply Hok|]. split; [|done].
  intros f. split.
  - intros Hf. destruct (Hdom f Hf) as [[? Hx]|?]; [|done].
    change (fileIDtoMapping newEncoder.2) with (∅ : gmap FileID Z) in Hx.
    by rewrite lookup_empty in Hx.
  - intros Hf. apply elem_of_mappedFiles in Hf as (k & a & Hin & Hk).
    apply list_elem_of_lookup in Hin as [i Hi].
    destruct (Forall2_lookup_l _ _ _ _ _ Hd Hi)
      as (loc & _ & a' & _ & _ & _ & Hkind).
    cbn in Hkind. destruct k; [| |done|].
    + destruct Hkind as (f' & [= <-] & Hm & _). by eexists.
    + destruct Hkind as (f' & l & [= <-] & Hm & _). by eexists.
    + destruct Hkind as (f' & l & [= <-] & Hm & _). by eexists.
Qed.

(** Referential integrity: every index of the profile refers to an entry
    of the table it indexes.  String indices of samples, labels,
    locations, mappings, functions and value types are below the length of
    the string table; a sample's location slice lies within the location
    table; a location's mapping index is 0 or a 1-based position of the
    mapping table and its lines refer to 1-based positions of the function
    table; no function entry is nil; the location indices are the
    identity. *)
Theorem getProfile_indices_in_range (r : OTLPReporter) (p : Profile)
    (s e : Z) (r' : OTLPReporter) :
  getProfile r = Some (p, s, e, r') →
  let inStrings idx := 0 ≤ idx < Z.of_nat (length (StringTable p)) in
  Forall
    (λ smp,
       inStrings (StacktraceIdIndex smp) ∧
       Forall (λ l, inStrings (Key l) ∧ inStrings (Str l))
         (Sample_Label smp) ∧
       0 ≤ LocationsStartIndex smp ∧ 0 ≤ LocationsLength smp ∧
       LocationsStartIndex smp + LocationsLength smp ≤
         Z.of_nat (length (Profile_Location p)))
    (Profile_Sample p) ∧
  Forall
    (λ loc,
       inStrings (TypeIndex loc) ∧
       0 ≤ MappingIndex loc ≤ Z.of_nat (length (Profile_Mapping p)) ∧
       Forall
         (λ l, 1 ≤ FunctionIndex l ≤ Z.of_nat (length (Profile_Function p)))
         (Location_Line loc))
    (Profile_Location p) ∧
  Forall (λ m, inStrings (Filename m) ∧ inStrings (BuildId m))
    (Profile_Mapping p) ∧
  Forall
    (λ f, ∃ fn, f = Some fn ∧
       inStrings (Name fn) ∧ inStrings (Function_Filename fn))
    (Profile_Function p) ∧
  Forall (λ v, inStrings (Type_ v) ∧ inStrings (Unit v))
    (PeriodType p :: SampleType p) ∧
  LocationIndices p = Z.of_nat <$> seq 0 (length (Profile_Location p)).
Proof.
  intros Hg. cbn zeta.
  destruct (getProfile_tables _ _ _ _ _ Hg)
    as (enc & sm & Henc & Hff & Hfs & Hsub & Hok & Hfix & Hsl & Hfl & Hsome
        & Hfk & _).
  destruct (getProfile_encoding _ _ _ _ _ Hg)
    as (enc' & Henc' & Hnew & Hmok & Hml & Hdom & Hd & Hs & Ht).
  rewrite Henc in Henc'. injection Henc' as <-.
  destruct (getProfile_inv _ _ _ _ _ Hg)
    as (enc' & _ & Henc' & _ & _ & _ & _ & HM & _).
  rewrite Henc in Henc'. injection Henc' as <-.
  destruct (getProfile_header _ _ _ _ _ Hg) as (HST & HPT & HLI & _).
  assert (Hsm : ∀ i str, sm !! str = Some i →
                  0 ≤ i < Z.of_nat (length (StringTable p))).
  { intros i str Hi. rewrite Hsl. by apply (proj1 (proj2 Hok)) with str. }
  assert (Hin : ∀ i, interned (stringMap enc) i →
                  0 ≤ i < Z.of_nat (length (StringTable p))).
  { intros i [str Hi]. apply Hsm with str. by eapply lookup_weaken. }
  assert (Hmi : ∀ f i, fileIDtoMapping enc !! f = Some (i - 1) →
                  0 ≤ i ≤ Z.of_nat (length (Profile_Mapping p))).
  { intros f i Hi. rewrite Hml.
    pose proof (proj1 (proj1 Hmok) _ _ Hi). lia. }
  assert (Hfi : ∀ k i, funcMap enc !! k = Some (i - 1) →
                  1 ≤ i ≤ Z.of_nat (length (Profile_Function p))).
  { intros k i Hi. rewrite Hfl. pose proof (proj1 Hfix _ _ Hi). lia. }
  split_and!.
  - apply Forall_forall. intros smp Hsmp.
    apply list_elem_of_lookup in Hsmp as [j Hj].
    destruct (Forall2_lookup_r _ _ _ _ _ Hs Hj)
      as (kv & _ & H0' & Hlen & Hle & _ & Hlab & Hid).
    split; [apply Hin; by eexists|].
    split; [|split; [done|split; [lia|done]]].
    apply Forall_forall. intros l Hl.
    apply list_elem_of_lookup in Hl as [j' Hj'].
    destruct (Forall2_lookup_r _ _ _ _ _ Hlab Hj') as (kv' & _ & Hk & Hv).
    split; apply Hin; by eexists.
  - apply Forall_forall. intros loc Hloc.
    apply list_elem_of_lookup in Hloc as [j Hj].
    destruct (Forall2_lookup_r _ _ _ _ _ Hd Hj)
      as ([[k o] oa] & _ & a & _ & _ & Hty & Hkind).
    cbn in Hty, Hkind. split; [apply Hin; by eexists|].
    destruct k.
    + destruct Hkind as (f & _ & Hm & ->).
      split; [by eapply Hmi|constructor].
    + destruct Hkind as (f & l & _ & Hm & -> & _ & Hf).
      split; [by eapply Hmi|]. constructor; [|constructor]. by eapply Hfi.
    + destruct Hkind as [-> ->]. split; [lia|constructor].
    + destruct Hkind as (f & l & _ & Hm & -> & _ & Hf).
      split; [by eapply Hmi|]. constructor; [|constructor]. by eapply Hfi.
  - rewrite HM. eapply Forall_impl; [exact (proj2 (proj2 Hmok))|].
    intros m [? ?]. split; by apply Hin.
  - apply Forall_lookup. intros j x Hj.
    pose proof (lookup_lt_Some _ _ _ Hj) as Hlt.
    destruct (proj2 (proj2 Hfix) (Z.of_nat j)) as [k Hk]; [lia|].
    destruct (Hfk k _ Hk) as (fn & Hfn & Hn & Hf).
    rewrite Nat2Z.id, Hj in Hfn. injection Hfn as ->.
    exists fn. split; [done|]. split; by eapply Hsm.
  - rewrite HST, HPT.
    constructor; [split|constructor; [split|constructor]]; apply Hin.
    + exists "cpu". eapply lookup_weaken; [|exact Hnew].
      vm_compute. reflexivity.
    + exists "nanoseconds". eapply lookup_weaken; [|exact Hnew].
      vm_compute. reflexivity.
    + exists "samples". eapply lookup_weaken; [|exact Hnew].
      vm_compute. reflexivity.
    + exists "count". eapply lookup_weaken; [|exact Hnew].
      vm_compute. reflexivity.
  - done.
Qed.

(** Each sample points at its own frames: the location slices of the
    samples follow one another and cover the location table, and the
    slice of a sample has one location per frame of its trace, in order.
    A location carries the frame's type and address; an abort marker has
    no mapping and no line, a native frame a mapping and no line, a kernel
    frame one line (number 0) whose function is the frame's fallback symbol
    (or UNKNOWN) in vmlinux, an interpreted frame one line with the line
    number, function name and file path of its frame metadata (UNREPORTED
    without metadata for the file, UNRESOLVED without metadata for the
    line).  The labels of a sample are the non-empty fields of the trace
    information, in order. *)
Theorem getProfile_sample_locations (r : OTLPReporter) (p : Profile)
    (s e : Z) (r' : OTLPReporter) :
  getProfile r = Some (p, s, e, r') →
  Z.of_nat (length (StringTable p)) ≤ 2 ^ 32 →
  let ws := rangeOver WorkingSet (drainSamples r).2 in
  Forall2
    (λ kv smp,
       let t := traces r !!! kv.1 in
       LocationsLength smp = Z.of_nat (length (frameTypes t)) ∧
       Forall2 (located r p) (traceFrames t)
         (sliceOf (Profile_Location p) smp) ∧
       Forall2
         (λ kv l, resolves p (Key l) kv.1 ∧ resolves p (Str l) kv.2)
         (filter (λ kv, kv.2 ≠ "") (labelFields t)) (Sample_Label smp))
    ws (Profile_Sample p) ∧
  tiles 0 (Profile_Sample p) (Z.of_nat (length (Profile_Location p))).
Proof.
  intros Hg Hb ws.
  destruct (getProfile_tables _ _ _ _ _ Hg)
    as (enc & sm & Henc & Hff & Hfs & Hsub & Hok & Hfix & Hsl & Hfl & Hsome
        & Hfk & Hres).
  destruct (Hres Hb) as [_ Hrs].
  destruct (getProfile_encoding _ _ _ _ _ Hg)
    as (enc' & Henc' & Hnew & Hmok & Hml & Hdom & Hd & Hs & Ht).
  rewrite Henc in Henc'. injection Henc' as <-.
  split; [|done].
  assert (Hstr : ∀ str i, stringMap enc !! str = Some i → resolves p i str).
  { intros str i Hi. apply Hrs. by eapply lookup_weaken. }
  assert (Hmi : ∀ f i, fileIDtoMapping enc !! f = Some (i - 1) →
                  1 ≤ i ≤ Z.of_nat (length (Profile_Mapping p))).
  { intros f i Hi. rewrite Hml.
    pose proof (proj1 (proj1 Hmok) _ _ Hi). lia. }
  assert (Hfn : ∀ k i, funcMap enc !! k = Some (i - 1) →
                  namedFunction p i (name k) (funcFileName k)).
  { intros k i Hi. split; [pose proof (proj1 Hfix _ _ Hi); lia|].
    destruct (Hfk k _ Hi) as (fn & ? & ? & ?).
    exists fn. split; [done|]. split; by apply Hrs. }
  eapply Forall2_impl; [exact Hs|].
  intros kv smp (_ & Hlen & _ & Hdesc & Hlab & _). cbn zeta.
  split; [done|]. split.
  - eapply Forall2_impl; [exact Hdesc|].
    intros [[k o] oa] loc (a & Ha & Hadr & Hty & Hkind).
    cbn in Ha, Hty, Hkind.
    exists a. cbn. split; [done|]. split; [done|].
    split; [by apply Hstr|].
    destruct k.
    + destruct Hkind as (f & _ & Hm & Hl). split; [by eapply Hmi|done].
    + destruct Hkind as (f & l & Hf & Hm & Hl & H0' & Hfm).
      exists f, l. split; [done|]. split; [by eapply Hmi|].
      split; [done|]. split; [done|]. exact (Hfn _ _ Hfm).
    + done.
    + destruct Hkind as (f & l & Hf & Hm & Hl & H0' & Hfm).
      exists f, l. split; [done|]. split; [by eapply Hmi|].
      split; [done|]. split; [done|]. exact (Hfn _ _ Hfm).
  - eapply Forall2_impl; [exact Hlab|]. intros kv' l [? ?].
    split; by apply Hstr.
Qed.

(** One mapping per file: the mapping table has one entry per FileID
    among the frames that are not abort markers, and two such frames refer
    to the same mapping exactly when they have the same FileID. *)
Theorem getProfile_one_mapping_per_file (r : OTLPReporter) (p : Profile)
    (s e : Z) (r' : OTLPReporter) :
  getProfile r = Some (p, s, e, r') →
  let frs := snapshotFrames r (rangeOver WorkingSet (drainSamples r).2) in
  length (Profile_Location p) = length frs ∧
  length (Profile_Mapping p) =
    size (list_to_set (mappedFiles frs) : gset FileID) ∧
  ∀ i j k1 f1 a1 k2 f2 a2 l1 l2,
    frs !! i = Some (k1, Some f1, a1) → frs !! j = Some (k2, Some f2, a2) →
    k1 ≠ AbortFrame → k2 ≠ AbortFrame →
    Profile_Location p !! i = Some l1 → Profile_Location p !! j = Some l2 →
    (MappingIndex l1 = MappingIndex l2 ↔ f1 = f2).
Proof.
  intros Hg frs.
  destruct (getProfile_encoding _ _ _ _ _ Hg)
    as (enc & Henc & Hnew & Hmok & Hml & Hdom & Hd & Hs & Ht).
  fold frs in Hdom, Hd.
  split; [symmetry; by eapply Forall2_length|]. split.
  - rewrite Hml, <- size_dom. f_equal. apply set_eq. intros f.
    rewrite elem_of_dom, elem_of_list_to_set. apply Hdom.
  - assert (Hmap : ∀ i k f a l,
              frs !! i = Some (k, Some f, a) → k ≠ AbortFrame →
              Profile_Location p !! i = Some l →
              fileIDtoMapping enc !! f = Some (MappingIndex l - 1)).
    { intros i k f a l Hi Hk Hl.
      destruct (Forall2_lookup_l _ _ _ _ _ Hd Hi)
        as (loc & Hloc & a' & _ & _ & _ & Hkind).
      rewrite Hl in Hloc. injection Hloc as <-. cbn in Hkind.
      destruct k; [| |done|].
      - by destruct Hkind as (f' & [= <-] & Hm & _).
      - by destruct Hkind as (f' & l' & [= <-] & Hm & _).
      - by destruct Hkind as (f' & l' & [= <-] & Hm & _). }
    intros i j k1 f1 a1 k2 f2 a2 l1 l2 Hi Hj Hk1 Hk2 Hl1 Hl2.
    pose proof (Hmap _ _ _ _ _ Hi Hk1 Hl1) as H1.
    pose proof (Hmap _ _ _ _ _ Hj Hk2 Hl2) as H2.
    split.
    + intros Heq. rewrite Heq in H1.
      exact (proj1 (proj2 (proj1 Hmok)) _ _ _ H1 H2).
    + intros <-. rewrite H1 in H2. injection H2. lia.
Qed.

(** *** When [getProfile] returns *)

Lemma encodeFrame_is_Some r trace i k e :
  is_Some (encodeFrame r trace i k e) ↔
  is_Some (linenos trace !! i) ∧
  (k ≠ AbortFrame → is_Some (files trace !! i)).
Proof.
  unfold encodeFrame. destruct (intern _ e) as [ti e1].
  destruct (linenos trace !! i) as [a|]; cbn; cycle 1.
  { split; [by intros [? ?]|]. by intros [[? ?] _]. }
  destruct k; cbn.
  - destruct (files trace !! i) as [f|]; cbn.
    + split; [by split|]. intros _.
      by destruct (fileIDtoMapping e1 !! f);
        [|destruct (nativeMapping r f a e1)].
    + split; [by intros [? ?]|]. intros [_ Hf]. by destruct Hf as [? ?].
  - destruct (files trace !! i) as [f|]; cbn.
    + split; [by split|]. intros _.
      destruct (frameIDtoFunction e1 !! NewFrameID f a);
        [|destruct (internFunction _ _ e1)];
        by destruct (getDummyMappingIndex f _).
    + split; [by intros [? ?]|]. intros [_ Hf]. by destruct Hf as [? ?].
  - split; [|done]. intros _. split; [done|]. by intros ?.
  - destruct (files trace !! i) as [f|]; cbn.
    + split; [by split|]. intros _.
      destruct (interpretedFunction r _ f a e1) as [[? ?] ?].
      by destruct (getDummyMappingIndex f _).
    + split; [by intros [? ?]|]. intros [_ Hf]. by destruct Hf as [? ?].
Qed.

Lemma encodeFrames_is_Some r trace kinds : ∀ i e,
  is_Some (encodeFrames r trace i kinds e) ↔
  ∀ j k, kinds !! j = Some k →
    is_Some (linenos trace !! (i + j)%nat) ∧
    (k ≠ AbortFrame → is_Some (files trace !! (i + j)%nat)).
Proof.
  induction kinds as [|k kinds IH]; intros i e; cbn [encodeFrames].
  - split; [|done]. intros _ j k. by rewrite lookup_nil.
  - split.
    + intros [e' He].
      destruct (encodeFrame r trace i k e) as [e1|] eqn:H1; cbn in He;
        [|done].
      intros [|j] k'; cbn.
      * intros [= <-]. rewrite Nat.add_0_r.
        apply (encodeFrame_is_Some r trace i k e). by eexists.
      * intros Hj. rewrite Nat.add_succ_r.
        apply (proj1 (IH (S i) e1)); [by eexists|done].
    + intros Hall.
      destruct (proj2 (encodeFrame_is_Some r trace i k e)) as [e1 ->].
      { rewrite <- (Nat.add_0_r i). by apply Hall. }
      cbn. apply IH. intros j k' Hj.
      replace (S i + j)%nat with (i + S j)%nat by lia. by apply Hall.
Qed.

Lemma encodeSample_is_Some r kv e :
  is_Some (encodeSample r kv e) ↔ indexable (traces r !!! kv.1).
Proof.
  destruct kv as [h c]. unfold encodeSample, indexable. cbn [fst].
  destruct (intern _ e) as [si e1].
  destruct (foldl trackTimestamp _ _) as [st en].
  rewrite <- (encodeFrames_is_Some r (traces r !!! h)
                (frameTypes (traces r !!! h)) 0 (set_timestamps e1 st en)).
  destruct (encodeFrames r _ 0 _ _) as [e2|]; cbn.
  - split; [by eexists|]. intros _. by destruct (getTraceLabels _ _).
  - split; by intros [? ?].
Qed.

Lemma encodeSamples_is_Some r ws : ∀ e,
  is_Some (encodeSamples r ws e) ↔
  Forall (λ kv, indexable (traces r !!! kv.1)) ws.
Proof.
  induction ws as [|kv ws IH]; intros e; cbn [encodeSamples].
  - split; [constructor|done].
  - rewrite Forall_cons, <- (encodeSample_is_Some r kv e).
    destruct (encodeSample r kv e) as [e1|]; cbn.
    + rewrite IH. split; [by split|by intros [_ ?]].
    + split; [by intros [? ?]|]. by intros [[? ?] _].
Qed.

(** [getProfile] returns (does not panic) exactly when the sampling
    frequency is not zero and every counter that has trace information has
    a trace whose frame loop stays in range: a line number for every frame
    type, and a file for every frame type but an abort marker.  Counters
    without trace information and traces without a counter do not
    matter. *)
Theorem getProfile_returns_iff (r : OTLPReporter) :
  is_Some (getProfile r) ↔
  SamplesPerSecond ≠ 0 ∧
  ∀ k c t, samples r !! k = Some c → traces r !! k = Some t → indexable t.
Proof.
  assert (Hws : Forall (λ kv, indexable (traces r !!! kv.1))
                  (rangeOver WorkingSet (drainSamples r).2) ↔
                ∀ k c t, samples r !! k = Some c → traces r !! k = Some t →
                  indexable t).
  { rewrite Forall_forall. split.
    - intros Hall k c t Hc Ht.
      rewrite <- (lookup_total_correct _ _ _ Ht).
      apply (Hall (k, c)). apply elem_of_rangeOver.
      rewrite (proj2 (drainSamples_lookup r k)), Ht.
      by rewrite decide_False.
    - intros Hall [k c] Hin. apply elem_of_rangeOver in Hin.
      rewrite (proj2 (drainSamples_lookup r k)) in Hin. cbn.
      destruct (traces r !! k) as [t|] eqn:Ht; [|done].
      rewrite decide_False in Hin by done.
      rewrite (lookup_total_correct _ _ _ Ht). by eapply Hall. }
  rewrite <- Hws, <- (encodeSamples_is_Some r _ newEncoder.2).
  unfold getProfile, samplingPeriod, encodeSnapshot.
  destruct (decide (SamplesPerSecond = 0)) as [Hz|Hz]; cbn.
  { split; [by intros [? ?]|]. by intros [? _]. }
  destruct (encodeSamples r _ newEncoder.2) as [enc|] eqn:Henc; cbn.
  - split; [by split|]. intros _.
    destruct (encodeSamples_spec _ _ _ _ Henc) as (G & _).
    destruct (buildTables_Some enc) as [[ft st] ->]; [..|done].
    + eapply grows_indexed; [exact G|apply indexed_empty].
    + eapply grows_stringsOk; [exact G|apply newEncoder_strings].
  - split; [by intros [? ?]|]. by intros [_ [? ?]].
Qed.

(** *** Timestamps *)

Lemma trackTimestamp_positive (l : list Z) :
  Forall (λ t, 0 < t) l →
  let st := (foldl trackTimestamp (0, 0) l).1 in
  let en := (foldl trackTimestamp (0, 0) l).2 in
  (l = [] ∧ st = 0 ∧ en = 0) ∨
  (st ∈ l ∧ Forall (λ t, st ≤ t) l ∧ (en = 0 ∨ en ∈ l ∧ st ≤ en)).
Proof.
  cbn zeta. induction l as [|x l IH] using rev_ind; intros Hpos.
  { by left. }
  apply Forall_app in Hpos as [Hl Hx]. rewrite Forall_singleton in Hx.
  right. rewrite foldl_app. cbn [foldl].
  destruct (foldl trackTimestamp (0, 0) l) as [st en]. cbn in IH.
  destruct (IH Hl) as [(-> & -> & ->)|(Hst & Hmin & Hen)].
  { cbn. rewrite decide_True by (by right). cbn.
    split; [apply list_elem_of_here|]. split; [|by left].
    by apply Forall_singleton. }
  assert (0 < st) by (by eapply (proj1 (Forall_forall _ _) Hl)).
  unfold trackTimestamp.
  destruct (decide (x < st ∨ st = 0)) as [[Hlt|?]|Hge]; [|lia|]; cbn.
  - split; [apply elem_of_app; right; apply list_elem_of_here|].
    split.
    + apply Forall_app. split; [|by apply Forall_singleton].
      eapply Forall_impl; [exact Hmin|]. intros t ?. cbn in *. lia.
    + destruct Hen as [->|[Hin Hle]]; [by left|]. right.
      split; [apply elem_of_app; by left|lia].
  - assert (st ≤ x) by lia.
    destruct (decide (x > en)) as [Hgt|Hngt]; cbn.
    + split; [apply elem_of_app; by left|]. split.
      * apply Forall_app. split; [done|by apply Forall_singleton].
      * right. split; [apply elem_of_app; right; apply list_elem_of_here|].
        done.
    + split; [apply elem_of_app; by left|]. split.
      * apply Forall_app. split; [done|by apply Forall_singleton].
      * destruct Hen as [->|[Hin Hle]]; [by left|]. right.
        split; [apply elem_of_app; by left|done].
Qed.

(** The start timestamp: when the timestamps of the encoded counters are
    all positive, the start that [getProfile] returns is their minimum, and
    the end is either unset (0) or one of them and not before the start;
    with no timestamp at all both are 0. *)
Theorem getProfile_start_is_minimum (r : OTLPReporter) (p : Profile)
    (s e : Z) (r' : OTLPReporter) :
  getProfile r = Some (p, s, e, r') →
  let tss :=
    rangeOver WorkingSet (drainSamples r).2 ≫= λ kv, timestamps kv.2 in
  Forall (λ t, 0 < t) tss →
  (tss = [] ∧ s = 0 ∧ e = 0) ∨
  (s ∈ tss ∧ Forall (λ t, s ≤ t) tss ∧ (e = 0 ∨ e ∈ tss ∧ s ≤ e)).
Proof.
  intros Hg tss Hpos. pose proof (getProfile_timestamps _ _ _ _ _ Hg) as Ht.
  fold tss in Ht. pose proof (trackTimestamp_positive tss Hpos) as Hp.
  cbn zeta in Hp. by rewrite <- Ht in Hp.
Qed.

(** *** A second snapshot *)

Lemma rangeOver_empty l `{Countable K} {V} :
  rangeOver l (∅ : gmap K V) = [].
Proof.
  apply Permutation_nil_r. by rewrite rangeOver_perm, map_to_list_empty.
Qed.

(** A snapshot right after a snapshot is empty: it returns, emits no
    sample, location or mapping and no timestamps, and leaves the reporter
    as it found it (the counters without trace information stay in the
    cache). *)
Theorem getProfile_twice (r : OTLPReporter) (p : Profile) (s e : Z)
    (r' : OTLPReporter) :
  getProfile r = Some (p, s, e, r') →
  ∃ p2, getProfile r' = Some (p2, 0, 0, r') ∧
    Profile_Sample p2 = [] ∧ Profile_Location p2 = [] ∧
    Profile_Mapping p2 = [] ∧ Profile_Function p2 = [] ∧
    ∀ k, samples r' !! k =
      if decide (traces r !! k = None) then samples r !! k else None.
Proof.
  intros Hg.
  assert (Hsps : SamplesPerSecond ≠ 0).
  { intros Hz. unfold getProfile, samplingPeriod in Hg.
    by rewrite decide_True in Hg. }
  destruct (getProfile_inv _ _ _ _ _ Hg)
    as (_ & _ & _ & _ & _ & _ & _ & _ & _ & _ & ->).
  assert (Hs : ∀ k, samples (set_samples r (drainSamples r).1) !! k =
                 if decide (traces r !! k = None) then samples r !! k
                 else None).
  { intros k. apply (proj1 (drainSamples_lookup r k)). }
  set (r1 := set_samples r (drainSamples r).1) in *.
  assert (Hd : drainSamples r1 = (samples r1, ∅)).
  { apply injective_projections; apply map_eq; intros k.
    - rewrite (proj1 (drainSamples_lookup r1 k)). cbn [fst].
      change (traces r1) with (traces r). rewrite !Hs.
      by destruct (decide (traces r !! k = None)).
    - rewrite (proj2 (drainSamples_lookup r1 k)). cbn [snd].
      change (traces r1) with (traces r). rewrite !Hs, lookup_empty.
      by destruct (decide (traces r !! k = None)). }
  unfold getProfile, samplingPeriod, encodeSnapshot.
  rewrite decide_False by done. rewrite Hd. cbn [fst snd].
  rewrite rangeOver_empty. cbn [encodeSamples mbind option_bind].
  unfold buildTables, fillFunctions.
  change (funcMap newEncoder.2) with (∅ : gmap funcInfo Z).
  rewrite map_size_empty, rangeOver_empty. cbn [foldl replicate mbind
    option_bind].
  destruct (fillStrings (stringMap newEncoder.2)) as [st|] eqn:Hst.
  - cbn. eexists. split; [reflexivity|]. by cbn.
  - exfalso.
    destruct (buildTables_Some newEncoder.2 indexed_empty newEncoder_strings)
      as [[ft st] Hbt].
    unfold buildTables, fillFunctions in Hbt.
    change (funcMap newEncoder.2) with (∅ : gmap funcInfo Z) in Hbt.
    rewrite map_size_empty, rangeOver_empty in Hbt. cbn in Hbt.
    by rewrite Hst in Hbt.
Qed.

(** *** Export *)

(** A round with samples: when some counter has trace information,
    [reportOTLPProfile] hands exactly one request to the exporter and
    returns the exporter's error; the request carries the resource of the
    reporter and a profile with at least one sample, whose duration is the
    report interval when the computed one is 0.  What is exported and what
    is left in the reporter do not depend on the exporter's answer: the
    counter is gone from the cache also when the export fails. *)
Theorem reportOTLPProfile_exports_once (r : OTLPReporter)
    (reportInterval : Z)
    (export : ExportProfilesServiceRequest → option string)
    (res : reportResult) (k : TraceHash) (c : sample) (t : traceInfo) :
  reportOTLPProfile r reportInterval export = Some res →
  samples r !! k = Some c → traces r !! k = Some t →
  (∃ req, exported res = [req] ∧ reportError res = export req ∧
     Resource req = getResource r ∧
     Profile_Sample (ContainerProfile req) ≠ [] ∧
     (DurationNanos (ContainerProfile req) = 0 → reportInterval = 0)) ∧
  samples (reporterAfter res) !! k = None ∧
  ∀ export', ∃ res',
    reportOTLPProfile r reportInterval export' = Some res' ∧
    exported res' = exported res ∧ reporterAfter res' = reporterAfter res.
Proof.
  intros Hr Hc Ht. unfold reportOTLPProfile in *.
  destruct (getProfile r) as [[[[p s] e] r1]|] eqn:Hg; cbn in Hr; [|done].
  destruct (getProfile_inv _ _ _ _ _ Hg)
    as (enc & _ & Henc & _ & _ & HS & _ & _ & _ & _ & Hr1).
  assert (Hne : length (Profile_Sample p) ≠ 0%nat).
  { unfold encodeSnapshot in Henc.
    destruct (encodeSamples_spec _ _ _ _ Henc) as (_ & smps & Hs & Hf & _).
    rewrite HS, Hs, length_app, <- (Forall2_length _ _ _ Hf).
    assert (Hin : (k, c) ∈ rangeOver WorkingSet (drainSamples r).2).
    { apply elem_of_rangeOver.
      rewrite (proj2 (drainSamples_lookup r k)), Ht.
      by rewrite decide_False. }
    destruct (rangeOver WorkingSet (drainSamples r).2);
      [by apply elem_of_nil in Hin|]. cbn. lia. }
  rewrite decide_False in Hr by done. injection Hr as <-. cbn.
  split; [|split].
  - eexists. split; [done|]. split; [done|]. cbn.
    split; [by rewrite Hr1|]. split.
    + case_decide; cbn; by destruct (Profile_Sample p).
    + case_decide as Hd; cbn; [done|]. intros Hz. by destruct Hd.
  - rewrite Hr1. cbn. rewrite (proj1 (drainSamples_lookup r k)), Ht.
    by rewrite decide_False.
  - intros export'. cbn. rewrite decide_False by done. by eexists.
Qed.

End profiles.

(** ** Labels and native frames *)

Section frame_kinds.
Context `{External}.
Import Reporter.

(** [getTraceLabels] makes one label per non-empty field of the trace
    information, in the order comm, podName, podNamespace, containerName,
    apmServiceName, with key and value interned; it keeps every index the
    string map had; a trace without any of the fields gets no label and
    leaves the string map alone. *)
Theorem getTraceLabels_labels (stringMap : gmap string Z) (i : traceInfo) :
  labelled (getTraceLabels stringMap i).2 i (getTraceLabels stringMap i).1 ∧
  stringMap ⊆ (getTraceLabels stringMap i).2 ∧
  (length (getTraceLabels stringMap i).1 ≤ 5)%nat ∧
  (comm i = "" → podName i = "" → podNamespace i = "" →
   containerName i = "" → apmServiceName i = "" →
   getTraceLabels stringMap i = ([], stringMap)).
Proof.
  destruct (getTraceLabels_labelled stringMap i) as [Hl Hs].
  split; [done|]. split; [done|]. split.
  - rewrite <- (Forall2_length _ _ _ Hl).
    etrans; [apply length_filter|]. done.
  - intros H1 H2 H3 H4 H5. unfold getTraceLabels, addLabel.
    rewrite H1, H2, H3, H4, H5. by rewrite !decide_True by done.
Qed.

(** A native frame refers to the mapping of its FileID.  When the FileID
    has a mapping already (made by a frame of any kind), the frame reuses
    it and appends none.  Otherwise it appends one at the next index, with
    the frame's address as file offset and the cached file name of the
    executable; the build ID is the cached one in linker mode, the FileID
    in hash mode and UNKNOWN in any other mode. *)
Theorem native_frame_mapping_modes (r : OTLPReporter) (trace : traceInfo)
    (i : nat) (e : encoder) (f : FileID) (a : AddressOrLineno) :
  files trace !! i = Some f →
  linenos trace !! i = Some a →
  ∃ e' loc,
    encodeFrame r trace i NativeFrame e = Some e' ∧
    profileLocation e' = profileLocation e ++ [loc] ∧
    Location_Line loc = [] ∧ Address loc = a ∧
    match fileIDtoMapping e !! f with
    | Some idx =>
        MappingIndex loc = idx + 1 ∧
        profileMapping e' = profileMapping e ∧
        fileIDtoMapping e' = fileIDtoMapping e
    | None =>
        ∃ m,
          profileMapping e' = profileMapping e ++ [m] ∧
          MappingIndex loc = Z.of_nat (size (fileIDtoMapping e)) + 1 ∧
          fileIDtoMapping e' !! f =
            Some (Z.of_nat (size (fileIDtoMapping e))) ∧
          FileOffset m = a ∧
          (∀ x, executables r !! f = Some x →
             stringMap e' !! fileName x = Some (Filename m) ∧
             (otlpBuildIDMode r = "linker" →
              stringMap e' !! buildID x = Some (BuildId m) ∧
              Mapping_BuildIdKind m = BUILD_ID_LINKER)) ∧
          (otlpBuildIDMode r = "hash" →
           stringMap e' !! FileID_StringNoQuotes f = Some (BuildId m) ∧
           Mapping_BuildIdKind m = BUILD_ID_BINARY_HASH) ∧
          (otlpBuildIDMode r ≠ "linker" → otlpBuildIDMode r ≠ "hash" →
           stringMap e' !! "UNKNOWN" = Some (BuildId m) ∧
           Mapping_BuildIdKind m = BUILD_ID_LINKER)
    end.
Proof.
  intros Hf Ha. unfold encodeFrame. rewrite intern_eq, Ha, Hf. cbn.
  destruct (fileIDtoMapping e !! f) as [idx|] eqn:Hm.
  { eexists _, _. split; [done|]. cbn. by split_and!. }
  unfold nativeMapping. rewrite !intern_eq. cbn.
  set (m0 := (getStringMapIndex (stringMap e) (FrameType_String NativeFrame)).2).
  assert (Hlast : ∀ m1 s1 s2,
            (getStringMapIndex (getStringMapIndex m1 s1).2 s2).2 !! s1 =
              Some (getStringMapIndex m1 s1).1).
  { intros m1 s1 s2. eapply lookup_weaken;
      [apply getStringMapIndex_lookup|apply getStringMapIndex_subseteq]. }
  destruct (decide (otlpBuildIDMode r = "linker")) as [Hl|Hl];
    destruct (decide (otlpBuildIDMode r = "hash")) as [Hh|Hh];
    rewrite !intern_eq; cbn; try congruence;
    (eexists _, _; split; [done|]; cbn; split; [done|]; split; [done|];
     split; [done|]; eexists; split; [done|]; split; [done|];
     split; [apply lookup_insert_eq|]; split; [done|]; cbn).
  - split; [|split; [congruence|done]].
    intros x ->. split; [apply Hlast|]. intros _.
    split; [apply getStringMapIndex_lookup|done].
  - split; [|split; [|done]].
    + intros x ->. split; [apply Hlast|done].
    + intros _. split; [apply getStringMapIndex_lookup|done].
  - split; [|split; [done|]].
    + intros x ->. split; [apply Hlast|done].
    + intros _ _. split; [apply getStringMapIndex_lookup|done].
Qed.

End frame_kinds.

(** ** Examples of the properties above *)

Section more_examples.
Import Reporter.
#[local] Existing Instances demoExternal demoOrder demoMetadataOrder.

Lemma ReportCountForTrace_accumulates_witness :
  samples threeCounts !! 7%N =
    Some {| timestamps := [1000; 1001; 1002]; count := 10 |}.
Proof.
  destruct (ReportCountForTrace_accumulates 7%N oneSample [countA] countB)
    as (Hs & _).
  { repeat constructor; cbn; lia. }
  cbn zeta in Hs. etrans; [exact Hs|]. vm_compute. reflexivity.
Defined.

Lemma ReportHostMetadata_merges_witness :
  {| kvKey := "host.name"; kvValue := "node-1" |} ∈
    getResource
      (ReportHostMetadata (emptyReporter "linker")
         (<["host.name" := "node-1"]> ∅)).
Proof.
  refine (proj2 (proj2 (proj2
    (@ReportHostMetadata_merges demoOrder demoMetadataOrder
       (emptyReporter "linker") (<["host.name" := "node-1"]> ∅) _)))
    "host.name" "node-1" _).
  - vm_compute. lia.
  - vm_compute. reflexivity.
Defined.

Lemma getProfile_drains_covered_witness :
  ∃ p s e r',
    getProfile twoCounters = Some (p, s, e, r') ∧ ¬ covered twoCounters.
Proof.
  eexists _, _, _, _. split; [vm_compute; reflexivity|].
  intros Hc.
  pose proof (proj2 (proj1
    (@getProfile_drains_covered demoExternal demoOrder twoCounters _ _ _ _
       ltac:(vm_compute; reflexivity))) Hc) as He.
  apply (f_equal (λ m, m !! 9%N)) in He. vm_compute in He. discriminate He.
Defined.

Lemma ExecutableMetadata_uploads_once_witness :
  ∃ r1 u1 a r3,
    ExecutableMetadata demoBase 0 (emptyReporter "linker") newUploader 1%N
      "/usr/bin/app" "build-1" = (r1, u1, Some a) ∧
    Symuploader.attemptPath a = "/usr/bin/app" ∧
    ExecutableMetadata demoBase 5 r1 u1 1%N "/usr/bin/app" "build-2" =
      (r3, u1, None).
Proof.
  eexists _, _, _.
  destruct (ExecutableMetadata_uploads_once demoBase 0
              (emptyReporter "linker") _ newUploader _ 1%N "/usr/bin/app"
              "build-1" _ ltac:(vm_compute; reflexivity))
    as (Ha & _ & Hnext).
  destruct (Hnext 5 (ExecutableMetadata demoBase 0 (emptyReporter "linker")
                       newUploader 1%N "/usr/bin/app" "build-1").1.1
              "/usr/bin/app" "build-2") as (r3 & H3 & _).
  exists r3. split; [vm_compute; reflexivity|]. split; [reflexivity|].
  exact H3.
Defined.

Lemma getProfile_indices_in_range_witness :
  ∃ p s e r',
    getProfile busyReporter = Some (p, s, e, r') ∧
    Forall
      (λ loc,
         0 ≤ TypeIndex loc < Z.of_nat (length (StringTable p)) ∧
         0 ≤ MappingIndex loc ≤ Z.of_nat (length (Profile_Mapping p)) ∧
         Forall
           (λ l, 1 ≤ FunctionIndex l ≤
                   Z.of_nat (length (Profile_Function p)))
           (Location_Line loc))
      (Profile_Location p).
Proof.
  eexists _, _, _, _. split; [vm_compute; reflexivity|].
  exact (proj1 (proj2
    (@getProfile_indices_in_range demoExternal demoOrder busyReporter _ _ _ _
       ltac:(vm_compute; reflexivity)))).
Defined.

Lemma getProfile_sample_locations_witness :
  ∃ p s e r',
    getProfile busyReporter = Some (p, s, e, r') ∧
    length (Profile_Sample p) = 1%nat ∧
    tiles 0 (Profile_Sample p) (Z.of_nat (length (Profile_Location p))).
Proof.
  eexists _, _, _, _. split; [vm_compute; reflexivity|].
  split; [reflexivity|].
  exact (proj2
    (@getProfile_sample_locations demoExternal demoOrder busyReporter _ _ _ _
       ltac:(vm_compute; reflexivity) ltac:(vm_compute; discriminate))).
Defined.

Lemma getProfile_one_mapping_per_file_witness :
  ∃ p s e r',
    getProfile busyReporter = Some (p, s, e, r') ∧
    length (Profile_Location p) = 4%nat ∧
    length (Profile_Mapping p) = 3%nat.
Proof.
  eexists _, _, _, _. split; [vm_compute; reflexivity|].
  destruct (@getProfile_one_mapping_per_file demoExternal demoOrder
              busyReporter _ _ _ _
              ltac:(vm_compute; reflexivity)) as (Hl & Hm & _).
  split; [etrans; [exact Hl|]|etrans; [exact Hm|]]; vm_compute; reflexivity.
Defined.

Lemma getProfile_start_is_minimum_witness :
  ∃ p r',
    getProfile threeCounts = Some (p, 1000, 1002, r') ∧
    Forall (λ t, 1000 ≤ t) [1000; 1001; 1002].
Proof.
  eexists _, _. split; [vm_compute; reflexivity|].
  destruct (@getProfile_start_is_minimum demoExternal demoOrder
              threeCounts _ 1000 1002 _
              ltac:(vm_compute; reflexivity)) as [(Hnil & _)|(_ & Hmin & _)].
  - vm_compute. repeat constructor.
  - vm_compute in Hnil. discriminate Hnil.
  - vm_compute in Hmin. vm_compute. exact Hmin.
Defined.

Lemma getProfile_twice_witness :
  ∃ p s e r' p2,
    getProfile twoCounters = Some (p, s, e, r') ∧
    getProfile r' = Some (p2, 0, 0, r') ∧
    Profile_Sample p2 = [] ∧
    samples r' !! 9%N = Some {| timestamps := [1001]; count := 2 |}.
Proof.
  eexists _, _, _, _.
  destruct (@getProfile_twice demoExternal demoOrder twoCounters _ _ _ _
              ltac:(vm_compute; reflexivity))
    as (p2 & H2 & Hs & _ & _ & _ & Hk).
  exists p2. split; [vm_compute; reflexivity|]. split; [exact H2|].
  split; [exact Hs|]. rewrite Hk. vm_compute. reflexivity.
Defined.

Lemma reportOTLPProfile_exports_once_witness :
  ∃ res req,
    reportOTLPProfile oneSample 5000000000 (λ _, Some "unavailable") =
      Some res ∧
    exported res = [req] ∧ reportError res = Some "unavailable" ∧
    samples (reporterAfter res) !! 7%N = None.
Proof.
  eexists.
  destruct (@reportOTLPProfile_exports_once demoExternal demoOrder
              oneSample 5000000000
              (λ _, Some "unavailable") _ 7%N
              {| timestamps := [1000]; count := 3 |} oneTraceInfo
              ltac:(vm_compute; reflexivity) ltac:(vm_compute; reflexivity)
              ltac:(vm_compute; reflexivity))
    as ((req & Hreq & Herr & _) & Hgone & _).
  exists req. split; [vm_compute; reflexivity|]. by split_and!.
Defined.

Lemma native_frame_mapping_modes_witness :
  ∃ e' loc m,
    encodeFrame (emptyReporter "hash") oneTraceInfo 0 NativeFrame
      newEncoder.2 = Some e' ∧
    profileLocation e' = [loc] ∧ MappingIndex loc = 1 ∧
    profileMapping e' = [m] ∧
    stringMap e' !! "file-1" = Some (BuildId m) ∧
    Mapping_BuildIdKind m = BUILD_ID_BINARY_HASH.
Proof.
  destruct (@native_frame_mapping_modes demoExternal
              (emptyReporter "hash") oneTraceInfo 0
              newEncoder.2 1%N 4096 eq_refl eq_refl)
    as (e' & loc & He & Hl & _ & _ & Hm).
  change (fileIDtoMapping newEncoder.2 !! 1%N) with (@None Z) in Hm.
  destruct Hm as (m & Hpm & Hmi & _ & _ & _ & Hh & _).
  destruct (Hh eq_refl) as [Hb Hk].
  exists e', loc, m. by split_and!.
Defined.

End more_examples.
